(** * dev-charts: the GitHub ingestion pipeline (tasks/build_json and its
    cached and sequential variants)

    A shallow embedding of the cache store, the rate-limited request
    client, the paginators, the comment reconciliation, the batch
    scheduler and the snapshot assembler, followed by the properties of
    the specification that were checked against them. *)

From Stdlib Require Import ZArith List Ascii String Bool Lia Permutation.
From Stdlib Require Import Decimal DecimalString DecimalPos DecimalZ.
From stdpp Require Import base option list sorting gmap strings.

Import ListNotations.
Local Open Scope string_scope.
Local Open Scope list_scope.
Local Open Scope Z_scope.

(* ===================================================================== *)
(** ** Bytes and text *)
(* ===================================================================== *)

(** A JS string restricted to one byte per character: the requests of the
    pipeline are ASCII, so the UTF-8 encoding [update(data)] hashes is the
    character sequence itself. *)
Definition bytes_of_string (s : string) : list Z :=
  map (fun c => Z.of_nat (nat_of_ascii c)) (list_ascii_of_string s).

Definition hex_digit (n : Z) : ascii :=
  if n <? 10 then ascii_of_nat (Z.to_nat (48 + n))
  else ascii_of_nat (Z.to_nat (87 + n)).

Definition hex_byte (b : Z) : list ascii :=
  [hex_digit (b / 16); hex_digit (b mod 16)].

(* ===================================================================== *)
(** ** MD5 (RFC 1321), as computed by [crypto.createHash('md5')] *)
(* ===================================================================== *)

Module MD5.

Definition w32 (x : Z) : Z := x mod 2 ^ 32.
Definition add32 (x y : Z) : Z := w32 (x + y).
Definition not32 (x : Z) : Z := Z.lxor x 0xffffffff.
Definition rotl32 (x c : Z) : Z :=
  w32 (Z.lor (Z.shiftl x c) (Z.shiftr x (32 - c))).

(** [K[i] = floor (2^32 * |sin (i + 1)|)] *)
Definition K : list Z :=
  [ 0xd76aa478; 0xe8c7b756; 0x242070db; 0xc1bdceee;
    0xf57c0faf; 0x4787c62a; 0xa8304613; 0xfd469501;
    0x698098d8; 0x8b44f7af; 0xffff5bb1; 0x895cd7be;
    0x6b901122; 0xfd987193; 0xa679438e; 0x49b40821;
    0xf61e2562; 0xc040b340; 0x265e5a51; 0xe9b6c7aa;
    0xd62f105d; 0x02441453; 0xd8a1e681; 0xe7d3fbc8;
    0x21e1cde6; 0xc33707d6; 0xf4d50d87; 0x455a14ed;
    0xa9e3e905; 0xfcefa3f8; 0x676f02d9; 0x8d2a4c8a;
    0xfffa3942; 0x8771f681; 0x6d9d6122; 0xfde5380c;
    0xa4beea44; 0x4bdecfa9; 0xf6bb4b60; 0xbebfbc70;
    0x289b7ec6; 0xeaa127fa; 0xd4ef3085; 0x04881d05;
    0xd9d4d039; 0xe6db99e5; 0x1fa27cf8; 0xc4ac5665;
    0xf4292244; 0x432aff97; 0xab9423a7; 0xfc93a039;
    0x655b59c3; 0x8f0ccc92; 0xffeff47d; 0x85845dd1;
    0x6fa87e4f; 0xfe2ce6e0; 0xa3014314; 0x4e0811a1;
    0xf7537e82; 0xbd3af235; 0x2ad7d2bb; 0xeb86d391 ].

(** per-round shift amounts *)
Definition S : list Z :=
  [ 7; 12; 17; 22; 7; 12; 17; 22; 7; 12; 17; 22; 7; 12; 17; 22;
    5;  9; 14; 20; 5;  9; 14; 20; 5;  9; 14; 20; 5;  9; 14; 20;
    4; 11; 16; 23; 4; 11; 16; 23; 4; 11; 16; 23; 4; 11; 16; 23;
    6; 10; 15; 21; 6; 10; 15; 21; 6; 10; 15; 21; 6; 10; 15; 21 ].

Definition nthZ (l : list Z) (i : Z) : Z := nth (Z.to_nat i) l 0.

(** little-endian encodings *)
Fixpoint le_bytes (n : nat) (x : Z) : list Z :=
  match n with
  | O => []
  | Datatypes.S n' => (x mod 256) :: le_bytes n' (x / 256)
  end.

Fixpoint le_word (bs : list Z) : Z :=
  match bs with
  | [] => 0
  | b :: bs' => b + 256 * le_word bs'
  end.

(** message ++ 0x80 ++ zeros up to 56 mod 64 ++ bit length on 8 bytes *)
Definition pad (msg : list Z) : list Z :=
  let len := Z.of_nat (length msg) in
  msg ++ [128] ++ repeat 0 (Z.to_nat ((55 - len) mod 64))
      ++ le_bytes 8 ((8 * len) mod 2 ^ 64).

Fixpoint chunks {A} (n : nat) (size : nat) (l : list A) : list (list A) :=
  match n with
  | O => []
  | Datatypes.S n' => firstn size l :: chunks n' size (skipn size l)
  end.

Definition words (block : list Z) : list Z :=
  map le_word (chunks 16 4 block).

Definition state : Type := (Z * Z * Z * Z)%type.

Definition init : state :=
  (0x67452301, 0xefcdab89, 0x98badcfe, 0x10325476).

Definition step (M : list Z) (st : state) (i : Z) : state :=
  let '(A, B, C, D) := st in
  let '(F, g) :=
    if i <? 16 then
      (Z.lor (Z.land B C) (Z.land (not32 B) D), i)
    else if i <? 32 then
      (Z.lor (Z.land D B) (Z.land (not32 D) C), (5 * i + 1) mod 16)
    else if i <? 48 then
      (Z.lxor (Z.lxor B C) D, (3 * i + 5) mod 16)
    else
      (Z.lxor C (Z.lor B (not32 D)), (7 * i) mod 16) in
  let F' := add32 (add32 (add32 F A) (nthZ K i)) (nthZ M g) in
  (D, add32 B (rotl32 F' (nthZ S i)), B, C).

Definition rounds : list Z := map Z.of_nat (seq 0 64).

Definition compress (st : state) (block : list Z) : state :=
  let '(a0, b0, c0, d0) := st in
  let '(A, B, C, D) := fold_left (step (words block)) rounds st in
  (add32 a0 A, add32 b0 B, add32 c0 C, add32 d0 D).

Definition digest (msg : list Z) : list Z :=
  let padded := pad msg in
  let blocks := chunks (length padded / 64)%nat 64 padded in
  let '(a, b, c, d) := fold_left compress blocks init in
  le_bytes 4 a ++ le_bytes 4 b ++ le_bytes 4 c ++ le_bytes 4 d.

(** [.digest('hex')] *)
Definition hexdigest (s : string) : string :=
  string_of_list_ascii (flat_map hex_byte (digest (bytes_of_string s))).

End MD5.

(* ===================================================================== *)
(** ** JavaScript values and [JSON.stringify] *)
(* ===================================================================== *)

(** The values a request parameter or a response body can hold.  Numbers
    are the integers (printed in plain decimal, as JS does below 1e21) and
    [NaN]; an object is the list of its own properties in enumeration order,
    which for keys that are not array indices is insertion order. *)
#[warnings="-register-all"]
Inductive JsValue : Type :=
| JUndefined
| JNull
| JBool (b : bool)
| JNum (n : Z)
| JNaN
| JStr (s : string)
| JArr (items : list JsValue)
| JObj (props : list (string * JsValue)).

Definition is_undefined (v : JsValue) : bool :=
  match v with JUndefined => true | _ => false end.

(** [if (v)]: undefined, null, false, 0, NaN and the empty string are falsy;
    every array and object is truthy. *)
Definition truthy (v : JsValue) : bool :=
  match v with
  | JUndefined | JNull | JNaN => false
  | JBool b => b
  | JNum n => negb (n =? 0)
  | JStr s => negb (String.eqb s EmptyString)
  | JArr _ | JObj _ => true
  end.

(** [Number.prototype.toString] on an integer: the decimal digits, after a
    minus sign when it is negative. *)
Definition string_of_Z (n : Z) : string :=
  NilEmpty.string_of_int (Z.to_int n).

Definition dquote : ascii := ascii_of_nat 34.

Definition hex4 (n : Z) : string :=
  string_of_list_ascii
    [hex_digit (n / 4096 mod 16); hex_digit (n / 256 mod 16);
     hex_digit (n / 16 mod 16); hex_digit (n mod 16)].

Definition backslash : ascii := ascii_of_nat 92.

Definition escape_with (c : ascii) : string :=
  String backslash (String c EmptyString).

(** QuoteJSONString, one character *)
Definition escape_char (c : ascii) : string :=
  let n := Z.of_nat (nat_of_ascii c) in
  if n =? 34 then escape_with dquote
  else if n =? 92 then escape_with backslash
  else if n =? 8 then escape_with "b"
  else if n =? 9 then escape_with "t"
  else if n =? 10 then escape_with "n"
  else if n =? 12 then escape_with "f"
  else if n =? 13 then escape_with "r"
  else if n <? 32 then escape_with "u" ++ hex4 n
  else String c EmptyString.

Fixpoint escape (s : string) : string :=
  match s with
  | EmptyString => EmptyString
  | String c s' => escape_char c ++ escape s'
  end.

Definition quote (s : string) : string :=
  String dquote (escape s ++ String dquote EmptyString).

Fixpoint join (sep : string) (parts : list string) : string :=
  match parts with
  | [] => EmptyString
  | [p] => p
  | p :: rest => p ++ sep ++ join sep rest
  end.

(** SerializeJSONProperty without indentation.  [JUndefined] is rendered
    the way an array renders it; an object skips the properties that hold
    it. *)
Fixpoint serialize (v : JsValue) : string :=
  match v with
  | JUndefined => "null"
  | JNull => "null"
  | JBool true => "true"
  | JBool false => "false"
  | JNum n => string_of_Z n
  | JNaN => "null"
  | JStr s => quote s
  | JArr items => "[" ++ join "," (map serialize items) ++ "]"
  | JObj props =>
      "{" ++ join ","
        (flat_map (fun kv =>
           match kv with
           | (k, JUndefined) => []
           | (k, x) => [(quote k ++ ":" ++ serialize x)%string]
           end) props) ++ "}"
  end.

(** The values JSON represents: no [undefined] and no [NaN], at any
    depth. *)
Fixpoint representable (v : JsValue) : bool :=
  match v with
  | JUndefined | JNaN => false
  | JNull | JBool _ | JNum _ | JStr _ => true
  | JArr items => forallb representable items
  | JObj props =>
      forallb (fun kv => match kv with (_, x) => representable x end) props
  end.

(** [JSON.stringify(v)]: [None] is JS [undefined] *)
Definition JSON_stringify (v : JsValue) : option string :=
  if is_undefined v then None else Some (serialize v).

(* ===================================================================== *)
(** ** Reading a JSON text back *)
(* ===================================================================== *)

(** The notions used to show that the text of a request determines the
    request. *)

(** What follows a value inside an array or an object. *)
Definition closes (r : string) : Prop :=
  exists c r', r = String c r' /\ (c = "," \/ c = "]" \/ c = "}")%char.

(** The value of a hexadecimal digit. *)
Definition unhex (c : ascii) : option Z :=
  let n := Z.of_nat (nat_of_ascii c) in
  if (48 <=? n) && (n <=? 57) then Some (n - 48)
  else if (97 <=? n) && (n <=? 102) then Some (n - 87)
  else None.

Definition unescape_hex4 (s : string) : option (ascii * string) :=
  match s with
  | String h1 (String h2 (String h3 (String h4 rest))) =>
      match unhex h1, unhex h2, unhex h3, unhex h4 with
      | Some a, Some b, Some c, Some d =>
          Some (ascii_of_nat (Z.to_nat (a * 4096 + b * 256 + c * 16 + d)), rest)
      | _, _, _, _ => None
      end
  | _ => None
  end.

(** Reading back one character of the text of a string; [None] at the
    closing quote. *)
Definition unescape_char (s : string) : option (ascii * string) :=
  match s with
  | EmptyString => None
  | String c rest =>
      if Ascii.eqb c dquote then None
      else if Ascii.eqb c backslash then
        match rest with
        | String e rest' =>
            if Ascii.eqb e dquote then Some (dquote, rest')
            else if Ascii.eqb e backslash then Some (backslash, rest')
            else if Ascii.eqb e "b" then Some (ascii_of_nat 8, rest')
            else if Ascii.eqb e "t" then Some (ascii_of_nat 9, rest')
            else if Ascii.eqb e "n" then Some (ascii_of_nat 10, rest')
            else if Ascii.eqb e "f" then Some (ascii_of_nat 12, rest')
            else if Ascii.eqb e "r" then Some (ascii_of_nat 13, rest')
            else if Ascii.eqb e "u" then unescape_hex4 rest'
            else None
        | EmptyString => None
        end
      else Some (c, rest)
  end.

(** The first character of a text tells the kind of the value: one
    number for the kind of a value and one for the kind a character
    announces. *)
Definition value_kind (v : JsValue) : nat :=
  match v with
  | JUndefined | JNaN | JNull => 0
  | JBool _ => 1
  | JNum _ => 2
  | JStr _ => 3
  | JArr _ => 4
  | JObj _ => 5
  end.

Definition char_kind (c : ascii) : nat :=
  let n := nat_of_ascii c in
  if (n =? 110)%nat then 0
  else if ((n =? 116) || (n =? 102))%nat then 1
  else if ((n =? 45) || ((48 <=? n) && (n <=? 57)))%nat then 2
  else if (n =? 34)%nat then 3
  else if (n =? 91)%nat then 4
  else if (n =? 123)%nat then 5
  else 6.

(** A property inside an object. *)
Definition property_text (kv : string * JsValue) : string :=
  (quote (fst kv) ++ ":" ++ serialize (snd kv))%string.

(** The text after the first element of an array and after the first
    property of an object. *)
Fixpoint array_tail (items : list JsValue) : string :=
  match items with
  | [] => "]"
  | x :: xs => ("," ++ serialize x ++ array_tail xs)%string
  end.

Fixpoint object_tail (props : list (string * JsValue)) : string :=
  match props with
  | [] => "}"
  | kv :: ps => ("," ++ property_text kv ++ object_tail ps)%string
  end.

(** A representable value can be read back from the front of a text. *)
Definition reads_back (v1 : JsValue) : Prop :=
  representable v1 = true ->
  forall v2 r1 r2,
    representable v2 = true -> closes r1 -> closes r2 ->
    (serialize v1 ++ r1 = serialize v2 ++ r2)%string ->
    v1 = v2 /\ r1 = r2.

(* ===================================================================== *)
(** ** Cache store *)
(* ===================================================================== *)

(** [{ method, url, params }] *)
Definition request_object (method url : string) (params : JsValue) : JsValue :=
  JObj [("method", JStr method); ("url", JStr url); ("params", params)].

Definition generateCacheKey (method url : string) (params : JsValue) : string :=
  MD5.hexdigest (serialize (request_object method url params)).

(** One file of the cache directory. *)
Record CacheFile : Type := mkCacheFile { mtimeMs : Z; text : string }.

(* ===================================================================== *)
(** ** Request client *)
(* ===================================================================== *)

(** A thrown value, as the [catch] blocks read it: [error.status] and
    [error.message], either of which may be absent. *)
Record JsError : Type := mkError { status : option Z; message : option string }.

(** [new Error(msg)] *)
Definition new_Error (msg : string) : JsError :=
  {| status := None; message := Some msg |}.

(** calling [.includes] on an absent message *)
Definition TypeError : JsError :=
  new_Error "Cannot read properties of undefined (reading 'includes')".

Inductive Result (A : Type) : Type :=
| Ok (a : A)
| Throw (e : JsError).
Arguments Ok {A} a.
Arguments Throw {A} e.

(** [s.includes(sub)] *)
Fixpoint includes (s sub : string) : bool :=
  String.prefix sub s ||
  match s with
  | EmptyString => false
  | String _ s' => includes s' sub
  end.

(** What a request can observe and change: the cache directory (file name
    without the [.json] suffix to file), [Date.now()], and two traces, the
    live calls issued and the [setTimeout] delays waited for. *)
Record World : Type := mkWorld {
  fs : gmap string CacheFile;
  clock : Z;
  live_calls : list (string * JsValue);
  waits : list Z
}.

Definition ms_per_day : Z := 1000 * 60 * 60 * 24.

Definition sleep (w : World) (waitTime : Z) : World :=
  {| fs := fs w; clock := clock w + waitTime;
     live_calls := live_calls w; waits := waits w ++ [waitTime] |}.

Definition record_call (w : World) (route : string) (params : JsValue) : World :=
  {| fs := fs w; clock := clock w;
     live_calls := live_calls w ++ [(route, params)]; waits := waits w |}.

Section Client.

(** [JSON.parse]: [None] when it throws. *)
Variable JSON_parse : string -> option JsValue.
(** [JSON.stringify(data, null, 2)]: [None] when the result is
    [undefined]. *)
Variable JSON_stringify_indented : JsValue -> option string.
(** [octokit.request(route, params)]: the remote API, which may answer
    differently as the world changes. *)
Variable octokit_request : World -> string -> JsValue -> Result JsValue.

Definition read_cache_file (f : CacheFile) : JsValue :=
  match JSON_parse (text f) with
  | Some v => v
  | None => JNull
  end.

(** [cacheAge <= ttlDays] with [cacheAge = (now - mtime) / ms_per_day]
    is stated without the division. *)
Definition getCachedData (w : World) (cacheKey : string) (ttlDays : Z)
    (forceCache : bool) : JsValue :=
  match fs w !! cacheKey with
  | Some f =>
      if forceCache then read_cache_file f
      else if clock w - mtimeMs f <=? ttlDays * ms_per_day then read_cache_file f
      else JNull
  | None => JNull
  end.

(** The lookup of a request finds nothing the client would serve. *)
Definition cache_miss (w : World) (method url : string) (params : JsValue)
    (ttlDays : Z) (force : bool) : Prop :=
  truthy (getCachedData w (generateCacheKey method url params) ttlDays force) = false.

(** A failed write is caught and logged: the cache is left as it was. *)
Definition saveCacheData (w : World) (cacheKey : string) (data : JsValue) : World :=
  match JSON_stringify_indented data with
  | Some txt =>
      {| fs := <[cacheKey := {| mtimeMs := clock w; text := txt |}]> (fs w);
         clock := clock w; live_calls := live_calls w; waits := waits w |}
  | None => w
  end.

Definition forced_miss_error (method url : string) : JsError :=
  new_Error ("Cache forçado, mas não encontrado para " ++ method ++ " " ++ url).

Definition retries_exhausted_error (method url : string) (error : JsError) : JsError :=
  new_Error ("Limite de tentativas excedido para " ++ method ++ " " ++ url ++ ": "
             ++ default "undefined" (message error)).

(** [None]: the recursion was cut short by [fuel]; see [cachedRequest]. *)
Fixpoint cachedRequest_rec (fuel : nat) (w : World) (method url : string)
    (params : JsValue) (ttlDays : Z) (retryCount : nat) (forceCache : bool)
    : option (World * Result JsValue) :=
  match fuel with
  | O => None
  | S fuel' =>
      let cacheKey := generateCacheKey method url params in
      let cachedData := getCachedData w cacheKey ttlDays forceCache in
      if truthy cachedData then Some (w, Ok cachedData)
      else if forceCache then Some (w, Throw (forced_miss_error method url))
      else
        let route := (method ++ " " ++ url)%string in
        let w1 := record_call w route params in
        match octokit_request w route params with
        | Ok data => Some (saveCacheData w1 cacheKey data, Ok data)
        | Throw error =>
            let retry (base : Z) :=
              if (3 <=? retryCount)%nat then
                Some (w1, Throw (retries_exhausted_error method url error))
              else
                let waitTime := 2 ^ Z.of_nat retryCount * base in
                cachedRequest_rec fuel' (sleep w1 waitTime) method url params
                  ttlDays (retryCount + 1) forceCache in
            let quota_or_other :=
              match message error with
              | Some m =>
                  if negb (String.eqb m EmptyString)
                     && includes m "Request quota exhausted"
                  then retry 60000
                  else Some (w1, Throw error)
              | None => Some (w1, Throw error)
              end in
            if bool_decide (status error = Some 403) then
              match message error with
              | Some m =>
                  if includes m "API rate limit exceeded" then retry 30000
                  else quota_or_other
              | None => Some (w1, Throw TypeError)
              end
            else quota_or_other
        end
  end.

(** A call recurses only while [retryCount < 3], so this much fuel is
    never used up ([cachedRequest_returns]). *)
Definition cachedRequest (w : World) (method url : string) (params : JsValue)
    (ttlDays : Z) (retryCount : nat) (forceCache : bool)
    : option (World * Result JsValue) :=
  cachedRequest_rec (S (3 - retryCount)) w method url params ttlDays
    retryCount forceCache.

End Client.

(** The three kinds of failure the retry policy of the specification tells
    apart, read off an error the way the [catch] block of [cachedRequest]
    does. *)
Inductive ErrorKind : Type := PrimaryRateLimit | QuotaExhausted | OtherError.

Definition message_includes (e : JsError) (sub : string) : bool :=
  match message e with
  | Some m => includes m sub
  | None => false
  end.

Definition classify (e : JsError) : ErrorKind :=
  if bool_decide (status e = Some 403) && message_includes e "API rate limit exceeded"
  then PrimaryRateLimit
  else if message_includes e "Request quota exhausted" then QuotaExhausted
  else OtherError.

(** First delay of each retry scheme and the delays of the three retries. *)
Definition base_delay (k : ErrorKind) : Z :=
  match k with
  | PrimaryRateLimit => 30000
  | QuotaExhausted => 60000
  | OtherError => 0
  end.



(** What the caller of [cachedRequest] catches when the live call threw
    [e] and no retry applies. *)
Definition propagated (e : JsError) : JsError :=
  match message e with
  | None => if bool_decide (status e = Some 403) then TypeError else e
  | Some _ => e
  end.

(* ===================================================================== *)
(** ** Entities *)
(* ===================================================================== *)

(** Records keep the field names of the interfaces of the source; each
    lives in a module of its own so that [id], [user], [body] can be
    reused.  A [Raw] record is the wire payload ([any] in the source), in
    which [null] is [None]. *)

Module User.
Record t : Type := mk {
  login : string;
  id : Z;
  avatar_url : string;
  html_url : string
}.
End User.

(** [{ login: u.login, id: u.id, avatar_url: u.avatar_url, html_url:
    u.html_url }] *)
Definition copy_user (u : User.t) : User.t :=
  {| User.login := User.login u; User.id := User.id u;
     User.avatar_url := User.avatar_url u; User.html_url := User.html_url u |}.

(** [x || ''] on a string that may be null *)
Definition or_empty (x : option string) : string := default EmptyString x.

(** [x || 0] on a number that may be null *)
Definition or_zero (x : option Z) : Z := default 0 x.

Module RawReview.
Record t : Type := mk {
  id : Z;
  user : option User.t;
  body : option string;
  state : string;
  submitted_at : option string;
  html_url : string
}.
End RawReview.

Module Review.
Record t : Type := mk {
  id : Z;
  user : User.t;
  body : option string;
  state : string;
  submitted_at : string;
  html_url : string
}.
End Review.

Module RawComment.
Record t : Type := mk {
  id : Z;
  user : option User.t;
  body : option string;
  created_at : option string;
  updated_at : option string;
  html_url : string;
  path : option string;
  position : option Z;
  original_position : option Z;
  commit_id : option string;
  diff_hunk : option string;
  in_reply_to_id : option Z
}.
End RawComment.

Inductive CommentType : Type := pr_review | pr_line | issue.

Module Comment.
Record t : Type := mk {
  id : Z;
  user : User.t;
  body : option string;
  created_at : string;
  updated_at : string;
  html_url : string;
  comment_type : CommentType;
  path : option string;
  position : option Z;
  original_position : option Z;
  commit_id : option string;
  diff_hunk : option string;
  in_reply_to_id : option Z
}.
End Comment.

(** The name, email and date of a commit's author or committer. *)
Module Signature.
Record t : Type := mk { name : string; email : string; date : string }.
End Signature.

Module RawSignature.
Record t : Type := mk {
  name : option string;
  email : option string;
  date : option string
}.
End RawSignature.

Module Stats.
Record t : Type := mk { additions : Z; deletions : Z; total : Z }.
End Stats.

Module RawStats.
Record t : Type := mk {
  additions : option Z;
  deletions : option Z;
  total : option Z
}.
End RawStats.

Module RawCommit.
Record t : Type := mk {
  sha : string;
  author : option User.t;
  committer : option User.t;
  commit_author : option RawSignature.t;
  commit_committer : option RawSignature.t;
  message : string;
  html_url : string
}.
End RawCommit.

Module Commit.
Record t : Type := mk {
  sha : string;
  author : option User.t;
  committer : option User.t;
  commit_author : Signature.t;
  commit_committer : Signature.t;
  message : string;
  html_url : string;
  stats : option Stats.t
}.
End Commit.

Module ReviewRequest.
Record t : Type := mk { user : User.t }.
End ReviewRequest.

(** An item of the pull-request listing.  [created_at] is the instant (in
    ms) the ISO string of the payload denotes, which is what the source
    compares after [new Date(...)]. *)
Module RawPullRequest.
Record t : Type := mk {
  id : Z;
  number : Z;
  title : string;
  state : string;
  created_at : Z
}.
End RawPullRequest.

(** The aggregated pull request.  The attributes that are copied from the
    payload and never read again by the pipeline (refs, labels, assignees,
    draft flag, urls) are left out. *)
Module PullRequest.
Record t : Type := mk {
  id : Z;
  number : Z;
  title : string;
  state : string;
  merged_at : option string;
  commits : list Commit.t;
  reviews : list Review.t;
  review_requests : list ReviewRequest.t;
  comments : list Comment.t;
  additions : Z;
  deletions : Z;
  changed_files : Z
}.
End PullRequest.

Module Repository.
Record t : Type := mk {
  id : Z;
  name : string;
  full_name : string;
  html_url : string;
  visibility : string;
  default_branch : string
}.
End Repository.

(* ===================================================================== *)
(** ** Paginators *)
(* ===================================================================== *)

(** The loop shared by the list endpoints:
<<
    while (hasMorePages) {
      try {
        const data = await request(page);
        if (data.length === 0) hasMorePages = false;
        else { out.push(...format(data)); page++; }
      } catch (error) { hasMorePages = false; }
    }
>>
    [request page] is the answer of the request client for that page;
    [None] when [fuel] pages were not enough to reach the end. *)
Fixpoint paginate {Raw Out : Type} (request : nat -> Result (list Raw))
    (format : list Raw -> list Out) (fuel page : nat) (out : list Out)
    : option (list Out) :=
  match fuel with
  | O => None
  | S fuel' =>
      match request page with
      | Throw _ => Some out
      | Ok [] => Some out
      | Ok data => paginate request format fuel' (S page) (out ++ format data)
      end
  end.

(** The same loop without the [try]: a failed page request is thrown to
    the caller. *)
Fixpoint paginate_throwing {Raw Out : Type} (request : nat -> Result (list Raw))
    (format : list Raw -> list Out) (fuel page : nat) (out : list Out)
    : option (Result (list Out)) :=
  match fuel with
  | O => None
  | S fuel' =>
      match request page with
      | Throw e => Some (Throw e)
      | Ok [] => Some (Ok out)
      | Ok data => paginate_throwing request format fuel' (S page) (out ++ format data)
      end
  end.

(** The raw items a paginator goes through, page after page. *)
Definition fetched {Raw : Type} (request : nat -> Result (list Raw)) (fuel : nat)
    : option (list Raw) :=
  paginate request (fun data => data) fuel 1 [].

(* --------------------------------------------------------------------- *)
(** *** Reviews and comments *)
(* --------------------------------------------------------------------- *)


(** The [filter] and [map] of a page in one pass: [None] for a payload the
    filter drops, the mapped record (which reads [review.user!]) for one it
    keeps. *)
Definition format_review (r : RawReview.t) : option Review.t :=
  match RawReview.user r with
  | Some u =>
      Some {| Review.id := RawReview.id r;
           Review.user := copy_user u;
           Review.body := RawReview.body r;
           Review.state := RawReview.state r;
           Review.submitted_at := or_empty (RawReview.submitted_at r);
           Review.html_url := RawReview.html_url r |}
  | None => None
  end.

(** [data.filter(review => review.user !== null).map(review => ...)] *)
Definition format_reviews (data : list RawReview.t) : list Review.t :=
  omap format_review data.


Definition format_line_comment (c : RawComment.t) : option Comment.t :=
  match RawComment.user c with
  | Some u =>
      Some {| Comment.id := RawComment.id c;
           Comment.user := copy_user u;
           Comment.body := Some (or_empty (RawComment.body c));
           Comment.created_at := or_empty (RawComment.created_at c);
           Comment.updated_at := or_empty (RawComment.updated_at c);
           Comment.html_url := RawComment.html_url c;
           Comment.comment_type := pr_line;
           Comment.path := RawComment.path c;
           Comment.position := RawComment.position c;
           Comment.original_position := RawComment.original_position c;
           Comment.commit_id := RawComment.commit_id c;
           Comment.diff_hunk := RawComment.diff_hunk c;
           Comment.in_reply_to_id := RawComment.in_reply_to_id c |}
  | None => None
  end.

Definition format_issue_comment (c : RawComment.t) : option Comment.t :=
  match RawComment.user c with
  | Some u =>
      Some {| Comment.id := RawComment.id c;
           Comment.user := copy_user u;
           Comment.body := Some (or_empty (RawComment.body c));
           Comment.created_at := or_empty (RawComment.created_at c);
           Comment.updated_at := or_empty (RawComment.updated_at c);
           Comment.html_url := RawComment.html_url c;
           Comment.comment_type := issue;
           Comment.path := None;
           Comment.position := None;
           Comment.original_position := None;
           Comment.commit_id := None;
           Comment.diff_hunk := None;
           Comment.in_reply_to_id := None |}
  | None => None
  end.

Definition format_line_comments (data : list RawComment.t) : list Comment.t :=
  omap format_line_comment data.

Definition format_issue_comments (data : list RawComment.t) : list Comment.t :=
  omap format_issue_comment data.

(** [review.body !== null && review.body !== ''] *)
Definition has_body (r : Review.t) : bool :=
  match Review.body r with
  | Some b => negb (String.eqb b EmptyString)
  | None => false
  end.

(** [String.prototype.trim] on the ASCII white space *)
Definition is_space (c : ascii) : bool :=
  let n := nat_of_ascii c in
  ((n =? 32) || (n =? 9) || (n =? 10) || (n =? 11) || (n =? 12) || (n =? 13))%nat.

Fixpoint trim_start (s : string) : string :=
  match s with
  | EmptyString => EmptyString
  | String c s' => if is_space c then trim_start s' else s
  end.

(** [review.body && review.body.trim() !== ''], the test of the variant
    without cache: a body of white space only does not count.  Trimming the
    end cannot empty a string that starts with something else. *)
Definition has_text (r : Review.t) : bool :=
  match Review.body r with
  | Some b => negb (String.eqb b EmptyString)
              && negb (String.eqb (trim_start b) EmptyString)
  | None => false
  end.

Definition review_comment (body : option string) (r : Review.t) : Comment.t :=
  {| Comment.id := Review.id r;
     Comment.user := Review.user r;
     Comment.body := body;
     Comment.created_at := Review.submitted_at r;
     Comment.updated_at := Review.submitted_at r;
     Comment.html_url := Review.html_url r;
     Comment.comment_type := pr_review;
     Comment.path := None;
     Comment.position := None;
     Comment.original_position := None;
     Comment.commit_id := None;
     Comment.diff_hunk := None;
     Comment.in_reply_to_id := None |}.

(** [reviews.filter(...).map(review => ({ ..., body: review.body, ... }))] *)
Definition review_comments (reviews : list Review.t) : list Comment.t :=
  map (fun r => review_comment (Review.body r) r) (List.filter has_body reviews).

(** the variant without cache: [body: review.body || ''] *)
Definition review_comments_direct (reviews : list Review.t) : list Comment.t :=
  map (fun r => review_comment (Some (or_empty (Review.body r))) r)
      (List.filter has_text reviews).

Section PullRequestComments.

(** What the request client answers for page [p] of the line comments, of
    the issue comments and of the reviews of one pull request. *)
Variable line_pages : nat -> Result (list RawComment.t).
Variable issue_pages : nat -> Result (list RawComment.t).
Variable review_pages : nat -> Result (list RawReview.t).

(** The cached pipeline. *)
Definition fetchPullRequestReviews (fuel : nat) : option (list Review.t) :=
  paginate review_pages format_reviews fuel 1 [].

Definition fetchPullRequestComments (fuel : nat) : option (list Comment.t) :=
  match paginate line_pages format_line_comments fuel 1 [] with
  | None => None
  | Some comments =>
      match paginate issue_pages format_issue_comments fuel 1 comments with
      | None => None
      | Some comments =>
          match fetchPullRequestReviews fuel with
          | None => None
          | Some reviews => Some (comments ++ review_comments reviews)
          end
      end
  end.

(** The pipeline without cache (tasks/build_json.ts): the review loop has
    no [try]; the comments function catches what it throws. *)
Definition fetchPullRequestReviews_direct (fuel : nat) : option (Result (list Review.t)) :=
  paginate_throwing review_pages format_reviews fuel 1 [].

Definition fetchPullRequestComments_direct (fuel : nat) : option (list Comment.t) :=
  match paginate line_pages format_line_comments fuel 1 [] with
  | None => None
  | Some comments =>
      match paginate issue_pages format_issue_comments fuel 1 comments with
      | None => None
      | Some comments =>
          match fetchPullRequestReviews_direct fuel with
          | None => None
          | Some (Ok reviews) => Some (comments ++ review_comments_direct reviews)
          | Some (Throw _) => Some comments
          end
      end
  end.

End PullRequestComments.




(* --------------------------------------------------------------------- *)
(** *** Commits *)
(* --------------------------------------------------------------------- *)

Definition format_signature (s : option RawSignature.t) : Signature.t :=
  {| Signature.name := or_empty (s ≫= RawSignature.name);
     Signature.email := or_empty (s ≫= RawSignature.email);
     Signature.date := or_empty (s ≫= RawSignature.date) |}.

Definition format_stats (st : RawStats.t) : Stats.t :=
  {| Stats.additions := or_zero (RawStats.additions st);
     Stats.deletions := or_zero (RawStats.deletions st);
     Stats.total := or_zero (RawStats.total st) |}.

Definition format_commit (apiCommit : RawCommit.t) (detailed_stats : option RawStats.t)
    : Commit.t :=
  {| Commit.sha := RawCommit.sha apiCommit;
     Commit.author := copy_user <$> RawCommit.author apiCommit;
     Commit.committer := copy_user <$> RawCommit.committer apiCommit;
     Commit.commit_author := format_signature (RawCommit.commit_author apiCommit);
     Commit.commit_committer := format_signature (RawCommit.commit_committer apiCommit);
     Commit.message := RawCommit.message apiCommit;
     Commit.html_url := RawCommit.html_url apiCommit;
     Commit.stats := format_stats <$> detailed_stats |}.

Section PullRequestCommits.

Variable commit_pages : nat -> Result (list RawCommit.t).
(** [GET /repos/{owner}/{repo}/commits/{ref}] for a sha: the [stats] of the
    answer, or what the call throws. *)
Variable commit_detail : string -> Result (option RawStats.t).

(** The body of [for (const apiCommit of data)]: the [push] is inside the
    [try], after the call. *)
Definition fetch_commit_stats (apiCommit : RawCommit.t) : list Commit.t :=
  match commit_detail (RawCommit.sha apiCommit) with
  | Ok detailed_stats => [format_commit apiCommit detailed_stats]
  | Throw _ => []
  end.

(** The cached pipeline. *)
Definition fetchPullRequestCommits (fuel : nat) : option (list Commit.t) :=
  paginate commit_pages (flat_map fetch_commit_stats) fuel 1 [].

(** The pipelines without cache. *)
Definition fetchPullRequestCommits_direct (fuel : nat) : option (Result (list Commit.t)) :=
  paginate_throwing commit_pages (flat_map fetch_commit_stats) fuel 1 [].

End PullRequestCommits.

(* --------------------------------------------------------------------- *)
(** *** Pull requests since a date *)
(* --------------------------------------------------------------------- *)

Section AllPullRequests.

(** The answer for page [p] of the listing sorted by creation, newest
    first. *)
Variable pulls_page : nat -> Result (list RawPullRequest.t).
Variable since : Z.

(** [new Date(pr.created_at) >= new Date(since)] *)
Definition in_window (pr : RawPullRequest.t) : bool :=
  since <=? RawPullRequest.created_at pr.

(** Newest first: no item is older than one that comes after it. *)
Definition newest_first (prs : list RawPullRequest.t) : Prop :=
  StronglySorted
    (fun a b => RawPullRequest.created_at b <= RawPullRequest.created_at a) prs.

(** The page ends before the cutoff date. *)
Definition ends_before_cutoff (data : list RawPullRequest.t) : Prop :=
  exists lastPR,
    last data = Some lastPR /\ RawPullRequest.created_at lastPR < since.

(** The discovery loop.  It returns what it pushed to [allPullRequests]
    (only the page that made it stop is pushed there), [pagePromises], and
    the page numbers it requested, in order. *)
Fixpoint fetchAllPullRequests_loop (fuel page : nat)
    (pagePromises : list (list RawPullRequest.t)) (requested : list nat)
    : option (list RawPullRequest.t * list (list RawPullRequest.t) * list nat) :=
  match fuel with
  | O => None
  | S fuel' =>
      let requested := requested ++ [page] in
      match pulls_page page with
      | Throw _ => Some ([], pagePromises, requested)
      | Ok data =>
          match last data with
          | None => Some ([], pagePromises, requested)
          | Some lastPR =>
              if RawPullRequest.created_at lastPR <? since
              then Some (List.filter in_window data, pagePromises, requested)
              else fetchAllPullRequests_loop fuel' (S page)
                     (pagePromises ++ [data]) requested
          end
      end
  end.

(** The list returned and the pages requested. *)
Definition fetchAllPullRequests (fuel : nat)
    : option (list RawPullRequest.t * list nat) :=
  match fetchAllPullRequests_loop fuel 1 [] [] with
  | None => None
  | Some (allPullRequests, pagePromises, requested) =>
      Some (allPullRequests ++ flat_map (List.filter in_window) pagePromises,
            requested)
  end.

End AllPullRequests.

(* ===================================================================== *)
(** ** Batch scheduler *)
(* ===================================================================== *)

Section Batches.

Context {T R : Type}.

(** [Promise.all] keeps one slot per promise and fills the slot of a
    promise when it is fulfilled, whenever that happens; the first promise
    to be rejected rejects the whole.  [outcomes] is what each promise
    settles to and [order] the order in which they settle, as indices. *)
Fixpoint settle (outcomes : list (Result R)) (order : list nat)
    (values : list (option R)) : Result (list (option R)) :=
  match order with
  | [] => Ok values
  | i :: order' =>
      match outcomes !! i with
      | Some (Ok v) => settle outcomes order' (<[i := Some v]> values)
      | Some (Throw e) => Throw e
      | None => settle outcomes order' values
      end
  end.

Fixpoint all_fulfilled (values : list (option R)) : option (list R) :=
  match values with
  | [] => Some []
  | Some v :: values' => cons v <$> all_fulfilled values'
  | None :: _ => None
  end.

(** [None]: some promise never settles and [await] never returns. *)
Definition Promise_all (outcomes : list (Result R)) (order : list nat)
    : option (Result (list R)) :=
  match settle outcomes order (replicate (length outcomes) None) with
  | Throw e => Some (Throw e)
  | Ok values => Ok <$> all_fulfilled values
  end.

Variable items : list T.
Variable batchSize : nat.
(** What the worker's promise settles to for an item. *)
Variable processFunction : T -> Result R.
(** The order in which the promises of the batch that starts at index [i]
    settle. *)
Variable completion_order : nat -> list nat.

(** [for (let i = 0; i < items.length; i += batchSize)].  Besides the
    outcome, the loop reports the batches it cut, in order.  [None]: the
    loop did not end within [fuel] rounds or an [await] never returned. *)
Fixpoint processInBatches_loop (fuel i : nat) (results : list R)
    (batches : list (list T)) : option (Result (list R) * list (list T)) :=
  match fuel with
  | O => None
  | S fuel' =>
      if (i <? length items)%nat then
        let batch := take batchSize (drop i items) in
        let batches := batches ++ [batch] in
        match Promise_all (map processFunction batch) (completion_order i) with
        | None => None
        | Some (Throw e) => Some (Throw e, batches)
        | Some (Ok batchResults) =>
            processInBatches_loop fuel' (i + batchSize) (results ++ batchResults) batches
        end
      else Some (Ok results, batches)
  end.

(** One round per item and one for the last test is enough for any
    positive [batchSize]; with [batchSize = 0] the index never moves and
    no fuel is enough. *)
Definition processInBatches : option (Result (list R) * list (list T)) :=
  processInBatches_loop (S (length items)) 0 [] [].

End Batches.

Definition worker_fulfilled {T R : Type} (processFunction : T -> Result R) (x : T)
    : Prop :=
  exists r, processFunction x = Ok r.

Definition worker_rejected {T R : Type} (processFunction : T -> Result R) (x : T)
    : Prop :=
  exists e, processFunction x = Throw e.

(** The last promise of a batch settles first. *)
Definition last_first {T : Type} (items : list T) (batchSize : nat) (i : nat)
    : list nat :=
  rev (seq 0 (length (take batchSize (drop i items)))).

(** Consecutive chunks of size [n] (the last one may be shorter). *)
Definition consecutive_chunks {T : Type} (n : nat) (items : list T)
    (batches : list (list T)) : Prop :=
  concat batches = items
  /\ Forall (fun batch => (0 < length batch <= n)%nat) batches
  /\ forall k batch, (S k < length batches)%nat -> batches !! k = Some batch ->
       length batch = n.

(* ===================================================================== *)
(** ** Snapshot assembler *)
(* ===================================================================== *)

Module Summary.
Record t : Type := mk {
  total_repositories : Z;
  total_pull_requests : Z;
  open_pull_requests : Z;
  closed_pull_requests : Z;
  merged_pull_requests : Z;
  total_commits : Z;
  total_comments : Z;
  total_reviews : Z;
  total_review_requests : Z;
  total_additions : Z;
  total_deletions : Z;
  total_changed_files : Z
}.
End Summary.

Module RepoEntry.
Record t : Type := mk {
  repository : Repository.t;
  pull_requests : list PullRequest.t
}.
End RepoEntry.

Module GitHubData.
Record t : Type := mk {
  organization : string;
  generated_at : string;
  repositories : gmap string RepoEntry.t;
  summary : Summary.t
}.
End GitHubData.

(** [prs.reduce((total, pr) => total + f(pr), 0)] *)
Definition reduce_sum (f : PullRequest.t -> Z) (prs : list PullRequest.t) : Z :=
  fold_left (fun total pr => total + f pr) prs 0.

Definition array_length {A : Type} (l : list A) : Z := Z.of_nat (length l).

(** [pr.state === 'open'] *)
Definition state_is_open (pr : PullRequest.t) : bool :=
  String.eqb (PullRequest.state pr) "open".

(** [pr.state === 'closed' && !pr.merged_at]: a null and an empty
    [merged_at] are both falsy. *)
Definition state_is_closed_and_not_merged (pr : PullRequest.t) : bool :=
  String.eqb (PullRequest.state pr) "closed"
  && negb (match PullRequest.merged_at pr with
           | Some t => negb (String.eqb t EmptyString)
           | None => false
           end).

(** [pr.merged_at !== null] *)
Definition merged_at_is_not_null (pr : PullRequest.t) : bool :=
  match PullRequest.merged_at pr with
  | Some _ => true
  | None => false
  end.

Definition initial_data (org generated_at : string) (repositories : list Repository.t)
    : GitHubData.t :=
  {| GitHubData.organization := org;
     GitHubData.generated_at := generated_at;
     GitHubData.repositories := ∅;
     GitHubData.summary :=
       {| Summary.total_repositories := array_length repositories;
          Summary.total_pull_requests := 0;
          Summary.open_pull_requests := 0;
          Summary.closed_pull_requests := 0;
          Summary.merged_pull_requests := 0;
          Summary.total_commits := 0;
          Summary.total_comments := 0;
          Summary.total_reviews := 0;
          Summary.total_review_requests := 0;
          Summary.total_additions := 0;
          Summary.total_deletions := 0;
          Summary.total_changed_files := 0 |} |}.

(** The end of the body of the loop over the repositories: the entry of
    the repository and the twelve counters. *)
Definition record_repository (data : GitHubData.t) (repo : Repository.t)
    (detailedPRs : list PullRequest.t) : GitHubData.t :=
  let s := GitHubData.summary data in
  {| GitHubData.organization := GitHubData.organization data;
     GitHubData.generated_at := GitHubData.generated_at data;
     GitHubData.repositories :=
       <[Repository.name repo :=
           {| RepoEntry.repository := repo; RepoEntry.pull_requests := detailedPRs |}]>
         (GitHubData.repositories data);
     GitHubData.summary :=
       {| Summary.total_repositories := Summary.total_repositories s;
          Summary.total_pull_requests :=
            Summary.total_pull_requests s + array_length detailedPRs;
          Summary.open_pull_requests :=
            Summary.open_pull_requests s
            + array_length (List.filter state_is_open detailedPRs);
          Summary.closed_pull_requests :=
            Summary.closed_pull_requests s
            + array_length (List.filter state_is_closed_and_not_merged detailedPRs);
          Summary.merged_pull_requests :=
            Summary.merged_pull_requests s
            + array_length (List.filter merged_at_is_not_null detailedPRs);
          Summary.total_commits :=
            Summary.total_commits s
            + reduce_sum (fun pr => array_length (PullRequest.commits pr)) detailedPRs;
          Summary.total_comments :=
            Summary.total_comments s
            + reduce_sum (fun pr => array_length (PullRequest.comments pr)) detailedPRs;
          Summary.total_reviews :=
            Summary.total_reviews s
            + reduce_sum (fun pr => array_length (PullRequest.reviews pr)) detailedPRs;
          Summary.total_review_requests :=
            Summary.total_review_requests s
            + reduce_sum (fun pr => array_length (PullRequest.review_requests pr))
                detailedPRs;
          Summary.total_additions :=
            Summary.total_additions s + reduce_sum PullRequest.additions detailedPRs;
          Summary.total_deletions :=
            Summary.total_deletions s + reduce_sum PullRequest.deletions detailedPRs;
          Summary.total_changed_files :=
            Summary.total_changed_files s
            + reduce_sum PullRequest.changed_files detailedPRs |} |}.

(** The same snapshot with another repository tally. *)
Definition with_total_repositories (n : Z) (data : GitHubData.t) : GitHubData.t :=
  let s := GitHubData.summary data in
  {| GitHubData.organization := GitHubData.organization data;
     GitHubData.generated_at := GitHubData.generated_at data;
     GitHubData.repositories := GitHubData.repositories data;
     GitHubData.summary :=
       {| Summary.total_repositories := n;
          Summary.total_pull_requests := Summary.total_pull_requests s;
          Summary.open_pull_requests := Summary.open_pull_requests s;
          Summary.closed_pull_requests := Summary.closed_pull_requests s;
          Summary.merged_pull_requests := Summary.merged_pull_requests s;
          Summary.total_commits := Summary.total_commits s;
          Summary.total_comments := Summary.total_comments s;
          Summary.total_reviews := Summary.total_reviews s;
          Summary.total_review_requests := Summary.total_review_requests s;
          Summary.total_additions := Summary.total_additions s;
          Summary.total_deletions := Summary.total_deletions s;
          Summary.total_changed_files := Summary.total_changed_files s |} |}.

Definition on_snapshot (f : GitHubData.t -> GitHubData.t)
    (run : option (Result GitHubData.t)) : option (Result GitHubData.t) :=
  match run with
  | Some (Ok data) => Some (Ok (f data))
  | other => other
  end.

Section Main.

(** What [fetchAllPullRequests] returns for a repository. *)
Variable pull_requests_since : Repository.t -> list RawPullRequest.t.
(** What the promise of [processPR] settles to for a pull request of a
    repository. *)
Variable processPR : Repository.t -> RawPullRequest.t -> Result PullRequest.t.
(** The order in which the promises of a batch of a repository settle. *)
Variable completion_order : Repository.t -> nat -> list nat.

(** [for (const repo of repositories)].  [None]: a batch never returned;
    [Throw]: caught by [main], which exits with status 1 and writes no
    file. *)
Fixpoint process_repositories (repositories : list Repository.t)
    (data : GitHubData.t) : option (Result GitHubData.t) :=
  match repositories with
  | [] => Some (Ok data)
  | repo :: rest =>
      let pullRequests := pull_requests_since repo in
      if (length pullRequests =? 0)%nat then process_repositories rest data
      else
        match processInBatches pullRequests 5 (processPR repo) (completion_order repo) with
        | None => None
        | Some (Throw e, _) => Some (Throw e)
        | Some (Ok detailedPRs, _) =>
            process_repositories rest (record_repository data repo detailedPRs)
        end
  end.

(** The snapshot [main] writes, from the repositories that
    [fetchRepositories] returned. *)
Definition main (org generated_at : string) (repositories : list Repository.t)
    : option (Result GitHubData.t) :=
  process_repositories repositories (initial_data org generated_at repositories).

(** The aggregated pull requests of the repositories that have some, in
    the order of the repositories. *)
Definition aggregated (repositories : list Repository.t) : list PullRequest.t :=
  flat_map (fun repo =>
    match processInBatches (pull_requests_since repo) 5 (processPR repo)
            (completion_order repo) with
    | Some (Ok detailedPRs, _) => detailedPRs
    | _ => []
    end) repositories.

End Main.

(** *** A small concrete environment

    One organisation listing request, a cache directory, and remote ends
    that always answer the same way; used to run the client on concrete
    inputs. *)
Definition sample_parse (s : string) : option JsValue :=
  if String.eqb s "null" then Some JNull
  else if String.eqb s "[]" then Some (JArr [])
  else None.

Definition repos_params (page : Z) : JsValue :=
  JObj [("org", JStr "acme"); ("type", JStr "all");
        ("per_page", JNum 100); ("page", JNum page)].

Definition repos_key : string := generateCacheKey "GET" "/orgs/{org}/repos" (repos_params 1).

Definition rate_limited : JsError :=
  {| status := Some 403;
     message := Some "API rate limit exceeded for installation ID 42." |}.

Definition always_rate_limited : World -> string -> JsValue -> Result JsValue :=
  fun _ _ _ => Throw rate_limited.

Definition always_empty_page : World -> string -> JsValue -> Result JsValue :=
  fun _ _ _ => Ok (JArr []).

Definition empty_world : World :=
  {| fs := ∅; clock := 0; live_calls := []; waits := [] |}.

(** The cache holds one file for the listing request, written at time 0,
    and the request is made at time [now]. *)
Definition world_with_entry (txt : string) (now : Z) : World :=
  {| fs := {[ repos_key := {| mtimeMs := 0; text := txt |} ]};
     clock := now; live_calls := []; waits := [] |}.

(** A remote list of one page. *)
Definition one_page {A : Type} (data : list A) : nat -> Result (list A) :=
  fun page => if (page =? 1)%nat then Ok data else Ok [].

Definition octocat : User.t :=
  {| User.login := "octocat"; User.id := 583231;
     User.avatar_url := "https://avatars.example/u/583231";
     User.html_url := "https://github.example/octocat" |}.

Definition sample_comment (id : Z) (body : string) : RawComment.t :=
  {| RawComment.id := id; RawComment.user := Some octocat;
     RawComment.body := Some body;
     RawComment.created_at := Some "2024-05-01T10:00:00Z";
     RawComment.updated_at := Some "2024-05-01T10:00:00Z";
     RawComment.html_url := "https://github.example/acme/widgets/pull/1#c";
     RawComment.path := Some "src/index.ts"; RawComment.position := Some 4;
     RawComment.original_position := Some 4;
     RawComment.commit_id := Some "9fceb02"; RawComment.diff_hunk := Some "@@ -1 +1 @@";
     RawComment.in_reply_to_id := None |}.

Definition sample_review (id : Z) (body : option string) : RawReview.t :=
  {| RawReview.id := id; RawReview.user := Some octocat;
     RawReview.body := body; RawReview.state := "APPROVED";
     RawReview.submitted_at := Some "2024-05-01T11:00:00Z";
     RawReview.html_url := "https://github.example/acme/widgets/pull/1#r" |}.

Definition sample_pr (number created_at : Z) : RawPullRequest.t :=
  {| RawPullRequest.id := 1000 + number; RawPullRequest.number := number;
     RawPullRequest.title := "Update widgets"; RawPullRequest.state := "open";
     RawPullRequest.created_at := created_at |}.

(** A listing of two pages of two items, newest first. *)
Definition two_pages : list (list RawPullRequest.t) :=
  [ [sample_pr 4 30; sample_pr 3 20]; [sample_pr 2 15; sample_pr 1 5] ].

Definition two_pages_listing (page : nat) : Result (list RawPullRequest.t) :=
  Ok (nth (page - 1) two_pages []).

Definition sample_commit (sha : string) : RawCommit.t :=
  {| RawCommit.sha := sha; RawCommit.author := Some octocat;
     RawCommit.committer := Some octocat;
     RawCommit.commit_author :=
       Some {| RawSignature.name := Some "The Octocat";
               RawSignature.email := Some "octocat@github.example";
               RawSignature.date := Some "2024-05-01T09:00:00Z" |};
     RawCommit.commit_committer := None;
     RawCommit.message := "Fix the widget";
     RawCommit.html_url := "https://github.example/acme/widgets/commit" |}.

Definition server_error : JsError :=
  {| status := Some 500; message := Some "Internal Server Error" |}.

(** The statistics call fails for the sha [9fceb02] and answers for the
    others. *)
Definition stats_fail_for_9fceb02 (sha : string) : Result (option RawStats.t) :=
  if String.eqb sha "9fceb02" then Throw server_error
  else Ok (Some {| RawStats.additions := Some 3; RawStats.deletions := None;
                   RawStats.total := Some 3 |}).

Definition widgets : Repository.t :=
  {| Repository.id := 1; Repository.name := "widgets";
     Repository.full_name := "acme/widgets";
     Repository.html_url := "https://github.example/acme/widgets";
     Repository.visibility := "private"; Repository.default_branch := "main" |}.

Definition gadgets : Repository.t :=
  {| Repository.id := 2; Repository.name := "gadgets";
     Repository.full_name := "acme/gadgets";
     Repository.html_url := "https://github.example/acme/gadgets";
     Repository.visibility := "private"; Repository.default_branch := "main" |}.

Definition approval : Review.t :=
  {| Review.id := 9; Review.user := octocat; Review.body := None;
     Review.state := "APPROVED"; Review.submitted_at := "2024-05-01T11:00:00Z";
     Review.html_url := "https://github.example/acme/widgets/pull/1#r" |}.

(** The aggregation of a listed pull request in the scenario of the
    specification: one commit, one approval, no comment; number 1 is merged
    (and closed), the others are open. *)
Definition scenario_processPR (repo : Repository.t) (pr : RawPullRequest.t)
    : Result PullRequest.t :=
  let merged := RawPullRequest.number pr =? 1 in
  Ok {| PullRequest.id := RawPullRequest.id pr;
        PullRequest.number := RawPullRequest.number pr;
        PullRequest.title := RawPullRequest.title pr;
        PullRequest.state := if merged then "closed" else "open";
        PullRequest.merged_at := if merged then Some "2024-05-02T08:00:00Z" else None;
        PullRequest.commits := [format_commit (sample_commit "9fceb02") None];
        PullRequest.reviews := [approval];
        PullRequest.review_requests := [];
        PullRequest.comments := [];
        PullRequest.additions := 10; PullRequest.deletions := 2;
        PullRequest.changed_files := 1 |}.

(** [widgets] has two pull requests in the window, any other repository
    none. *)
Definition scenario_pull_requests (repo : Repository.t) : list RawPullRequest.t :=
  if String.eqb (Repository.name repo) "widgets"
  then [sample_pr 2 30; sample_pr 1 20]
  else [].

Definition scenario_order (repo : Repository.t) : nat -> list nat :=
  last_first (scenario_pull_requests repo) 5.

(** Two parameter objects that hold the same value under every key. *)
Definition equal_as_maps (a b : JsValue) : Prop :=
  match a, b with
  | JObj props_a, JObj props_b =>
      (list_to_map props_a : gmap string JsValue) = list_to_map props_b
  | _, _ => a = b
  end.

Definition pull_params (first second : string * JsValue) : JsValue :=
  JObj [first; second; ("pull_number", JNum 1)].

(** *** Retries and footprint of a call *)

(** The delays of the retries that a sequence of failed attempts costs,
    the first of them being attempt number [retryCount]. *)
Definition retry_delays (retryCount : nat) (failures : list JsError) : list Z :=
  imap (fun i e => 2 ^ Z.of_nat (retryCount + i) * base_delay (classify e)) failures.

(** [a + b + ...] *)
Definition total_delay (delays : list Z) : Z := foldr Z.add 0 delays.

(** What a call of the request client that goes to the network does to the
    world: the live calls it issued, the delays it waited for, and the one
    cache file it may have written. *)
Definition network_footprint (JSON_stringify_indented : JsValue -> option string)
    (w w' : World) (method url : string) (params : JsValue)
    (retryCount : nat) (r : Result JsValue) : Prop :=
  exists delays,
    live_calls w'
    = live_calls w ++ replicate (S (length delays)) ((method ++ " " ++ url)%string, params)
    /\ waits w' = waits w ++ delays
    /\ clock w' = clock w + total_delay delays
    /\ (length delays <= 3 - retryCount)%nat
    /\ (forall i d, delays !! i = Some d ->
          d = 2 ^ Z.of_nat (retryCount + i) * 30000
          \/ d = 2 ^ Z.of_nat (retryCount + i) * 60000)
    /\ fs w' = match r with
               | Throw _ => fs w
               | Ok data =>
                   match JSON_stringify_indented data with
                   | Some txt =>
                       <[generateCacheKey method url params :=
                           {| mtimeMs := clock w'; text := txt |}]> (fs w)
                   | None => fs w
                   end
               end.

Definition quota_exhausted : JsError :=
  {| status := Some 429;
     message := Some "Request quota exhausted for request GET /orgs/{org}/repos" |}.

(** A remote end that fails the first attempt with the primary rate limit,
    the second with an exhausted quota, and answers an empty page from the
    third on; the attempts are told apart by the waits already made. *)
Definition fails_twice : World -> string -> JsValue -> Result JsValue :=
  fun w _ _ =>
    match [rate_limited; quota_exhausted] !! length (waits w) with
    | Some e => Throw e
    | None => Ok (JArr [])
    end.

(** The world after the listing request was answered with an empty page at
    time 0. *)
Definition world_after_listing : World :=
  {| fs := {[ repos_key := {| mtimeMs := 0; text := "[]" |} ]};
     clock := 0;
     live_calls := [("GET /orgs/{org}/repos", repos_params 1)];
     waits := [] |}.

(** The aggregation of the scenario, except that the pull request number 1
    cannot be aggregated. *)
Definition scenario_processPR_failing (repo : Repository.t) (pr : RawPullRequest.t)
    : Result PullRequest.t :=
  if RawPullRequest.number pr =? 1 then Throw server_error
  else scenario_processPR repo pr.

(* ===================================================================== *)
(** ** The aggregation of one pull request *)
(* ===================================================================== *)

(** The members of the array [Promise.all] gathers in [processPR]:
    [[commits, reviews, comments, reviewRequests]]. *)
Inductive Part : Type :=
| PartCommits (commits : list Commit.t)
| PartReviews (reviews : list Review.t)
| PartComments (comments : list Comment.t)
| PartReviewRequests (reviewRequests : list ReviewRequest.t).

(** The promise of an [async] function that settles to [r], seen as a
    member of that array. *)
Definition as_part {A : Type} (part : A -> Part) (r : Result A) : Result Part :=
  match r with
  | Ok a => Ok (part a)
  | Throw e => Throw e
  end.

(** [detailedPR.commits = commits; detailedPR.reviews = reviews;
    detailedPR.comments = comments; detailedPR.review_requests =
    reviewRequests] *)
Definition assign_parts (detailedPR : PullRequest.t) (commits : list Commit.t)
    (reviews : list Review.t) (comments : list Comment.t)
    (reviewRequests : list ReviewRequest.t) : PullRequest.t :=
  {| PullRequest.id := PullRequest.id detailedPR;
     PullRequest.number := PullRequest.number detailedPR;
     PullRequest.title := PullRequest.title detailedPR;
     PullRequest.state := PullRequest.state detailedPR;
     PullRequest.merged_at := PullRequest.merged_at detailedPR;
     PullRequest.commits := commits;
     PullRequest.reviews := reviews;
     PullRequest.review_requests := reviewRequests;
     PullRequest.comments := comments;
     PullRequest.additions := PullRequest.additions detailedPR;
     PullRequest.deletions := PullRequest.deletions detailedPR;
     PullRequest.changed_files := PullRequest.changed_files detailedPR |}.

Section ProcessPR.

(** What [fetchPullRequestDetails] settles to, and what the promises of
    the four other fetchers settle to, for the pull request at hand. *)
Variable details : Result PullRequest.t.
Variable commits : Result (list Commit.t).
Variable reviews : Result (list Review.t).
Variable comments : Result (list Comment.t).
Variable reviewRequests : Result (list ReviewRequest.t).
(** The order in which the four promises settle. *)
Variable order : list nat.

(** [processPR]: the details first; then the four fetchers, started
    together and awaited with [Promise.all].  The [catch] logs and throws
    the error again.  [None]: one of the four never settles. *)
Definition processPR : option (Result PullRequest.t) :=
  match details with
  | Throw e => Some (Throw e)
  | Ok detailedPR =>
      match Promise_all [as_part PartCommits commits; as_part PartReviews reviews;
                         as_part PartComments comments;
                         as_part PartReviewRequests reviewRequests] order with
      | None => None
      | Some (Throw e) => Some (Throw e)
      | Some (Ok [PartCommits commits; PartReviews reviews; PartComments comments;
                  PartReviewRequests reviewRequests]) =>
          Some (Ok (assign_parts detailedPR commits reviews comments reviewRequests))
      | Some (Ok _) => None
      end
  end.

(** The body of [for (const pr of pullRequests)] in the sequential
    pipeline: the five fetchers are awaited one after the other, and the
    first that throws ends the run. *)
Definition processPR_sequential : Result PullRequest.t :=
  match details with
  | Throw e => Throw e
  | Ok detailedPR =>
      match commits with
      | Throw e => Throw e
      | Ok commits =>
          match reviews with
          | Throw e => Throw e
          | Ok reviews =>
              match comments with
              | Throw e => Throw e
              | Ok comments =>
                  match reviewRequests with
                  | Throw e => Throw e
                  | Ok reviewRequests =>
                      Ok (assign_parts detailedPR commits reviews comments reviewRequests)
                  end
              end
          end
      end
  end.

End ProcessPR.

Section ProcessPRFetchers.

Variable details : Result PullRequest.t.
Variable commit_pages : nat -> Result (list RawCommit.t).
Variable commit_detail : string -> Result (option RawStats.t).
Variable line_pages : nat -> Result (list RawComment.t).
Variable issue_pages : nat -> Result (list RawComment.t).
Variable review_pages : nat -> Result (list RawReview.t).
(** What [fetchReviewRequests] returns; it catches every error. *)
Variable reviewRequests : list ReviewRequest.t.
Variable order : list nat.


(** [processPR] of the pipeline without cache (tasks/build_json.ts): the
    commits and the reviews fetchers throw what their listing throws. *)
Definition processPR_direct (fuel : nat) : option (Result PullRequest.t) :=
  match details with
  | Throw e => Some (Throw e)
  | Ok _ =>
      commits ← fetchPullRequestCommits_direct commit_pages commit_detail fuel;
      reviews ← fetchPullRequestReviews_direct review_pages fuel;
      comments ← fetchPullRequestComments_direct line_pages issue_pages review_pages fuel;
      processPR details commits reviews (Ok comments) (Ok reviewRequests) order
  end.

End ProcessPRFetchers.


(* ===================================================================== *)
(** ** Start of the run: the command line and the output file *)
(* ===================================================================== *)

(** The value of a decimal digit. *)
Definition digit_value (c : ascii) : option Z :=
  let n := Z.of_nat (nat_of_ascii c) in
  if (48 <=? n) && (n <=? 57) then Some (n - 48) else None.

(** The value of the longest prefix of [s] made of decimal digits, read
    after the digits that gave [acc]; [None] when no digit was read. *)
Fixpoint parse_digits (s : string) (acc : option Z) : option Z :=
  match s with
  | EmptyString => acc
  | String c s' =>
      match digit_value c with
      | Some d => parse_digits s' (Some (10 * default 0 acc + d))
      | None => acc
      end
  end.

(** [parseInt(s, 10)]: leading white space is skipped, then an optional
    sign, then the longest prefix of digits is read and what follows it is
    ignored; [None] is [NaN].  The result is the exact integer, as it is in
    JS below 2^53. *)
Definition parseInt (s : string) : option Z :=
  match trim_start s with
  | String "-" digits => Z.opp <$> parse_digits digits None
  | String "+" digits => parse_digits digits None
  | digits => parse_digits digits None
  end.

(** How [main] starts: [process.exit(code)], or the run with its number
    of days, its cache mode and its credentials. *)
Inductive Startup : Type :=
| Exit (code : Z)
| Run (days : Z) (forceCache : bool) (token org : string).

(** [args.includes(flag)] *)
Definition args_include (args : list string) (flag : string) : bool :=
  existsb (String.eqb flag) args.

(** The checks at the head of [main], on [process.argv.slice(2)] and on
    [process.env.GH_TOKEN] and [process.env.GH_ORG], of which [None] is
    [undefined]: [!token] holds for an unset and for an empty variable. *)
Definition startup (args : list string) (GH_TOKEN GH_ORG : option string) : Startup :=
  match args with
  | [] => Exit 1
  | first :: _ =>
      match parseInt first with
      | None => Exit 1
      | Some days =>
          if days <=? 0 then Exit 1
          else
            let forceCache := args_include args "--force-cache" in
            match GH_TOKEN, GH_ORG with
            | Some token, Some org =>
                if String.eqb token EmptyString || String.eqb org EmptyString
                then Exit 1
                else Run days forceCache token org
            | _, _ => Exit 1
            end
      end
  end.

(** What follows the digits [parseInt] reads: nothing, or a character that
    is not a digit. *)
Definition no_digit_ahead (s : string) : Prop :=
  match s with
  | EmptyString => True
  | String c _ => digit_value c = None
  end.

(** The value of the digits of [d] read after the digits that gave
    [acc]. *)
Fixpoint uint_value (d : uint) (acc : Z) : Z :=
  match d with
  | Nil => acc
  | D0 d' => uint_value d' (10 * acc + 0)
  | D1 d' => uint_value d' (10 * acc + 1)
  | D2 d' => uint_value d' (10 * acc + 2)
  | D3 d' => uint_value d' (10 * acc + 3)
  | D4 d' => uint_value d' (10 * acc + 4)
  | D5 d' => uint_value d' (10 * acc + 5)
  | D6 d' => uint_value d' (10 * acc + 6)
  | D7 d' => uint_value d' (10 * acc + 7)
  | D8 d' => uint_value d' (10 * acc + 8)
  | D9 d' => uint_value d' (10 * acc + 9)
  end.

(** What [replace(/[:.]/g, '-')] does to one character. *)
Definition dash_of (c : ascii) : ascii :=
  if Ascii.eqb c ":" || Ascii.eqb c "." then "-"%char else c.

(** [s.replace(/[:.]/g, '-')] *)
Fixpoint replace_colons_and_dots (s : string) : string :=
  match s with
  | EmptyString => EmptyString
  | String c s' => String (dash_of c) (replace_colons_and_dots s')
  end.

(** [`github-data-${timestamp}.json`], from [new Date().toISOString()] *)
Definition output_file_name (iso : string) : string :=
  "github-data-" ++ replace_colons_and_dots iso ++ ".json".

(** A character is a decimal digit. *)
Definition is_digit (c : ascii) : bool :=
  match digit_value c with Some _ => true | None => false end.

(** [YYYY-MM-DDTHH:mm:ss.sssZ], the shape of what [toISOString] returns for
    a year from 0 to 9999: what each of its 24 characters has to be. *)
Definition iso_pattern : list (ascii -> bool) :=
  [is_digit; is_digit; is_digit; is_digit; Ascii.eqb "-";
   is_digit; is_digit; Ascii.eqb "-"; is_digit; is_digit; Ascii.eqb "T";
   is_digit; is_digit; Ascii.eqb ":"; is_digit; is_digit; Ascii.eqb ":";
   is_digit; is_digit; Ascii.eqb "."; is_digit; is_digit; is_digit; Ascii.eqb "Z"].

Definition is_iso_timestamp (s : string) : Prop :=
  Forall2 (fun p c => p c = true) iso_pattern (list_ascii_of_string s).

(* ===================================================================== *)
(** ** Payloads: reading and formatting what the API answers *)
(* ===================================================================== *)

(** The formatters that follow work on the payload as it is ([any] in the
    source): a [JsValue], read with the operators of JS. *)

#[global] Instance Result_bind : MBind Result := fun A B f r =>
  match r with
  | Ok a => f a
  | Throw e => Throw e
  end.

#[global] Instance Result_ret : MRet Result := fun A a => Ok a.

(** [v === null || v === undefined] *)
Definition nullish (v : JsValue) : bool :=
  match v with
  | JUndefined | JNull => true
  | _ => false
  end.

(** The own property [k] of an object, [undefined] when it has none.  An
    object lists each of its keys once. *)
Fixpoint own_property (props : list (string * JsValue)) (k : string) : JsValue :=
  match props with
  | [] => JUndefined
  | (k', v) :: rest => if String.eqb k k' then v else own_property rest k
  end.

(** [v.k] on a value that is neither null nor undefined, for the names the
    pipeline reads: apart from [length], none of them is a property of
    arrays, strings, numbers or booleans. *)
Definition read (v : JsValue) (k : string) : JsValue :=
  match v with
  | JObj props => own_property props k
  | JArr items =>
      if String.eqb k "length" then JNum (Z.of_nat (length items)) else JUndefined
  | JStr s =>
      if String.eqb k "length" then JNum (Z.of_nat (String.length s)) else JUndefined
  | _ => JUndefined
  end.

(** The TypeError of a property read on null or undefined. *)
Definition cannot_read (v : JsValue) (k : string) : JsError :=
  new_Error ("Cannot read properties of "
             ++ match v with JNull => "null" | _ => "undefined" end
             ++ " (reading '" ++ k ++ "')").

(** The TypeError of a call of [v.method] when [v] has no such method. *)
Definition not_a_function (method : string) : JsError :=
  new_Error (method ++ " is not a function").

(** [v.k] *)
Definition get (v : JsValue) (k : string) : Result JsValue :=
  if nullish v then Throw (cannot_read v k) else Ok (read v k).

(** [v?.k] *)
Definition get_optional (v : JsValue) (k : string) : JsValue :=
  if nullish v then JUndefined else read v k.

(** [a || b] *)
Definition or_else (a b : JsValue) : JsValue := if truthy a then a else b.

(** [typeof v === 'number'] *)
Definition is_number (v : JsValue) : bool :=
  match v with
  | JNum _ | JNaN => true
  | _ => false
  end.

(** [v.map(f)]: only an array has the method. *)
Definition array_map (f : JsValue -> Result JsValue) (v : JsValue) : Result JsValue :=
  match v with
  | JArr items => items' ← mapM f items; Ok (JArr items')
  | _ => Throw (not_a_function "map")
  end.

(** [{ login: u.login, id: u.id, avatar_url: u.avatar_url, html_url:
    u.html_url }] *)
Definition user_object (u : JsValue) : Result JsValue :=
  login ← get u "login";
  id ← get u "id";
  avatar_url ← get u "avatar_url";
  html_url ← get u "html_url";
  Ok (JObj [("login", login); ("id", id); ("avatar_url", avatar_url);
            ("html_url", html_url)]).

(** [{ login: pr.user?.login || 'unknown', id: pr.user?.id || 0, ... }] *)
Definition author_object (user : JsValue) : JsValue :=
  JObj [("login", or_else (get_optional user "login") (JStr "unknown"));
        ("id", or_else (get_optional user "id") (JNum 0));
        ("avatar_url", or_else (get_optional user "avatar_url") (JStr EmptyString));
        ("html_url", or_else (get_optional user "html_url") (JStr EmptyString))].

(** [{ id: typeof label.id === 'number' ? label.id : 0, name: label.name,
    color: label.color || '', description: label.description || '' }] *)
Definition label_object (label : JsValue) : Result JsValue :=
  id ← get label "id";
  name ← get label "name";
  color ← get label "color";
  description ← get label "description";
  Ok (JObj [("id", if is_number id then id else JNum 0); ("name", name);
            ("color", or_else color (JStr EmptyString));
            ("description", or_else description (JStr EmptyString))]).

(** [{ id: b.repo?.id || 0, name: b.repo?.name || '', full_name:
    b.repo?.full_name || '', html_url: b.repo?.html_url || '' }] *)
Definition repo_object (repo : JsValue) : JsValue :=
  JObj [("id", or_else (get_optional repo "id") (JNum 0));
        ("name", or_else (get_optional repo "name") (JStr EmptyString));
        ("full_name", or_else (get_optional repo "full_name") (JStr EmptyString));
        ("html_url", or_else (get_optional repo "html_url") (JStr EmptyString))].

(** [{ ref: b.ref, sha: b.sha, repo: { ... } }], for [pr.head] and
    [pr.base] *)
Definition branch_object (branch : JsValue) : Result JsValue :=
  ref ← get branch "ref";
  sha ← get branch "sha";
  repo ← get branch "repo";
  Ok (JObj [("ref", ref); ("sha", sha); ("repo", repo_object repo)]).

(** The object literal that [fetchPullRequestDetails] and
    [formatPullRequest] build from a pull-request payload; its properties
    are evaluated in this order, and the first read that throws ends the
    evaluation.  The last three are given: each function has its own
    source for them. *)
Definition pull_request_object (pr additions deletions changed_files : JsValue)
    : Result JsValue :=
  id ← get pr "id";
  number ← get pr "number";
  title ← get pr "title";
  user ← get pr "user";
  state ← get pr "state";
  created_at ← get pr "created_at";
  updated_at ← get pr "updated_at";
  closed_at ← get pr "closed_at";
  merged_at ← get pr "merged_at";
  merge_commit_sha ← get pr "merge_commit_sha";
  assignees ← get pr "assignees";
  assignees ← array_map user_object (or_else assignees (JArr []));
  requested_reviewers ← get pr "requested_reviewers";
  requested_reviewers ← array_map user_object (or_else requested_reviewers (JArr []));
  labels ← get pr "labels";
  labels ← array_map label_object (or_else labels (JArr []));
  draft ← get pr "draft";
  head ← get pr "head";
  head ← branch_object head;
  base ← get pr "base";
  base ← branch_object base;
  html_url ← get pr "html_url";
  Ok (JObj [("id", id); ("number", number); ("title", title);
            ("user", author_object user); ("state", state);
            ("created_at", created_at); ("updated_at", updated_at);
            ("closed_at", closed_at); ("merged_at", merged_at);
            ("merge_commit_sha", merge_commit_sha); ("assignees", assignees);
            ("requested_reviewers", requested_reviewers); ("labels", labels);
            ("draft", or_else draft (JBool false)); ("head", head); ("base", base);
            ("html_url", html_url); ("commits", JArr []); ("reviews", JArr []);
            ("review_requests", JArr []); ("comments", JArr []);
            ("additions", additions); ("deletions", deletions);
            ("changed_files", changed_files)]).

(** [data.additions || 0] *)
Definition count_or_zero (data : JsValue) (k : string) : JsValue :=
  or_else (read data k) (JNum 0).

(** The formatting of [fetchPullRequestDetails]: the three counts are read
    from the payload itself. *)
Definition format_details (data : JsValue) : Result JsValue :=
  pull_request_object data (count_or_zero data "additions")
    (count_or_zero data "deletions") (count_or_zero data "changed_files").


(** A list the formatter can map: a falsy value, replaced by [[]], or an
    array without null and undefined among its items. *)
Definition mappable (v : JsValue) : bool :=
  if truthy v then
    match v with
    | JArr items => forallb (fun x => negb (nullish x)) items
    | _ => false
    end
  else true.

(** The payloads the formatter does not throw on. *)
Definition formattable (pr : JsValue) : bool :=
  negb (nullish pr)
  && mappable (read pr "assignees")
  && mappable (read pr "requested_reviewers")
  && mappable (read pr "labels")
  && negb (nullish (read pr "head"))
  && negb (nullish (read pr "base")).

(** [{ user: { login: user.login, id: user.id, avatar_url:
    user.avatar_url, html_url: user.html_url } }], for a user that is
    truthy *)
Definition review_request_object (user : JsValue) : JsValue :=
  JObj [("user", JObj [("login", read user "login"); ("id", read user "id");
                       ("avatar_url", read user "avatar_url");
                       ("html_url", read user "html_url")])].

(** [if (data.users && Array.isArray(data.users)) data.users.forEach(user
    => { if (user) reviewRequests.push(...) })] *)
Definition requested_users (users : JsValue) : list JsValue :=
  match users with
  | JArr items => map review_request_object (List.filter truthy items)
  | _ => []
  end.

(** What [fetchReviewRequests] of the cached pipeline makes of the answer
    of the request client: whatever is thrown, by the client or by the read
    of [data.users], is caught and gives no review request. *)
Definition review_requests_of (answer : Result JsValue) : list JsValue :=
  match (data ← answer; get data "users") with
  | Ok users => requested_users users
  | Throw _ => []
  end.

(** [user => ({ user: { ... }, requested_at: undefined })] of the pipelines
    without cache *)
Definition review_request_object_direct (user : JsValue) : Result JsValue :=
  u ← user_object user;
  Ok (JObj [("user", u); ("requested_at", JUndefined)]).

(** [fetchReviewRequests] of the pipelines without cache, given what the
    request answers ([response.data]) or throws: the [try] covers the
    request and the mapping. *)
Definition fetchReviewRequests_direct (answer : Result JsValue) : list JsValue :=
  match (data ← answer; users ← get data "users";
         array_map review_request_object_direct users) with
  | Ok (JArr requests) => requests
  | _ => []
  end.

(** [formattedLicense]: null unless [repo.license] is truthy *)
Definition license_object (license : JsValue) : JsValue :=
  if truthy license then
    JObj [("key", or_else (read license "key") (JStr EmptyString));
          ("name", or_else (read license "name") (JStr EmptyString));
          ("spdx_id", or_else (read license "spdx_id") (JStr EmptyString));
          ("url", or_else (read license "url") (JStr EmptyString))]
  else JNull.

(** The repository [fetchRepositories] pushes for an item of a page. *)
Definition repository_object (repo : JsValue) : Result JsValue :=
  license ← get repo "license";
  id ← get repo "id";
  name ← get repo "name";
  full_name ← get repo "full_name";
  html_url ← get repo "html_url";
  description ← get repo "description";
  fork ← get repo "fork";
  created_at ← get repo "created_at";
  updated_at ← get repo "updated_at";
  pushed_at ← get repo "pushed_at";
  homepage ← get repo "homepage";
  size ← get repo "size";
  stargazers_count ← get repo "stargazers_count";
  watchers_count ← get repo "watchers_count";
  language ← get repo "language";
  forks_count ← get repo "forks_count";
  archived ← get repo "archived";
  disabled ← get repo "disabled";
  open_issues_count ← get repo "open_issues_count";
  topics ← get repo "topics";
  visibility ← get repo "visibility";
  default_branch ← get repo "default_branch";
  Ok (JObj [("id", id); ("name", name); ("full_name", full_name);
            ("html_url", html_url); ("description", description); ("fork", fork);
            ("created_at", created_at); ("updated_at", updated_at);
            ("pushed_at", pushed_at); ("homepage", homepage); ("size", size);
            ("stargazers_count", stargazers_count);
            ("watchers_count", watchers_count); ("language", language);
            ("forks_count", forks_count); ("archived", archived);
            ("disabled", disabled); ("open_issues_count", open_issues_count);
            ("license", license_object license);
            ("topics", or_else topics (JArr []));
            ("visibility", or_else visibility (JStr "public"));
            ("default_branch", or_else default_branch (JStr "main"));
            ("pull_requests", JArr [])]).

(** [items.forEach(x => { out.push(f(x)) })] inside a [try]: the items
    before the one [f] throws on have been pushed. *)
Fixpoint push_each (f : JsValue -> Result JsValue) (items out : list JsValue)
    : list JsValue * option JsError :=
  match items with
  | [] => (out, None)
  | x :: rest =>
      match f x with
      | Ok y => push_each f rest (out ++ [y])
      | Throw e => (out, Some e)
      end
  end.

(** [{ owner, repo, pull_number }] *)
Definition pull_request_params (owner repo : string) (pull_number : Z) : JsValue :=
  JObj [("owner", JStr owner); ("repo", JStr repo); ("pull_number", JNum pull_number)].

(** [{ org, type: 'all', per_page: 100, page }] *)
Definition repositories_params (org : string) (page : nat) : JsValue :=
  JObj [("org", JStr org); ("type", JStr "all"); ("per_page", JNum 100);
        ("page", JNum (Z.of_nat page))].

Section PayloadFetchers.

Variable JSON_parse : string -> option JsValue.
Variable JSON_stringify_indented : JsValue -> option string.
Variable octokit_request : World -> string -> JsValue -> Result JsValue.

(** [fetchPullRequestDetails] of the cached pipeline: the [catch] logs
    and throws the error again. *)
Definition fetchPullRequestDetails (w : World) (owner repo : string) (pull_number : Z)
    (forceCache : bool) : option (World * Result JsValue) :=
  '(w', answer) ← cachedRequest JSON_parse JSON_stringify_indented octokit_request w
                    "GET" "/repos/{owner}/{repo}/pulls/{pull_number}"
                    (pull_request_params owner repo pull_number) 7 0 forceCache;
  Some (w', data ← answer; format_details data).

(** [fetchReviewRequests] of the cached pipeline *)
Definition fetchReviewRequests (w : World) (owner repo : string) (pull_number : Z)
    (forceCache : bool) : option (World * list JsValue) :=
  '(w', answer) ← cachedRequest JSON_parse JSON_stringify_indented octokit_request w
                    "GET" "/repos/{owner}/{repo}/pulls/{pull_number}/requested_reviewers"
                    (pull_request_params owner repo pull_number) 7 0 forceCache;
  Some (w', review_requests_of answer).

(** The loop of [fetchRepositories] in the cached pipeline.  Every error
    ends it: the one of the client, the TypeError of [data.length] on
    null, the one of [data.forEach] on what is not an array, and the one of
    a read on an item that is null.  [None]: [fuel] pages were not
    enough. *)
Fixpoint fetchRepositories_loop (fuel : nat) (w : World) (org : string)
    (forceCache : bool) (page : nat) (repositories : list JsValue)
    : option (World * list JsValue) :=
  match fuel with
  | O => None
  | S fuel' =>
      '(w', answer) ← cachedRequest JSON_parse JSON_stringify_indented octokit_request w
                        "GET" "/orgs/{org}/repos" (repositories_params org page)
                        7 0 forceCache;
      match (data ← answer; len ← get data "length"; Ok (data, len)) with
      | Throw _ => Some (w', repositories)
      | Ok (_, JNum 0) => Some (w', repositories)
      | Ok (JArr items, _) =>
          match push_each repository_object items repositories with
          | (repositories, Some _) => Some (w', repositories)
          | (repositories, None) =>
              fetchRepositories_loop fuel' w' org forceCache (S page) repositories
          end
      | Ok (_, _) => Some (w', repositories)
      end
  end.

Definition fetchRepositories (fuel : nat) (w : World) (org : string) (forceCache : bool)
    : option (World * list JsValue) :=
  fetchRepositories_loop fuel w org forceCache 1 [].

End PayloadFetchers.

(** *** Sample payloads *)

Definition octocat_payload : JsValue :=
  JObj [("login", JStr "octocat"); ("id", JNum 583231);
        ("avatar_url", JStr "https://avatars.example/u/583231");
        ("html_url", JStr "https://github.example/octocat")].

(** A pull request whose author has deleted their account and whose fork
    is gone. *)
Definition orphan_pull_request : JsValue :=
  JObj [("id", JNum 1001); ("number", JNum 1); ("title", JStr "Update widgets");
        ("user", JNull); ("state", JStr "closed");
        ("created_at", JStr "2024-05-01T10:00:00Z");
        ("updated_at", JStr "2024-05-02T08:00:00Z");
        ("closed_at", JStr "2024-05-02T08:00:00Z"); ("merged_at", JNull);
        ("merge_commit_sha", JNull); ("assignees", JArr []);
        ("requested_reviewers", JArr [octocat_payload]);
        ("labels", JArr [JObj [("id", JNum 5); ("name", JStr "bug");
                               ("color", JStr "d73a4a"); ("description", JNull)]]);
        ("draft", JBool false);
        ("head", JObj [("ref", JStr "patch-1"); ("sha", JStr "9fceb02");
                       ("repo", JNull)]);
        ("base", JObj [("ref", JStr "main"); ("sha", JStr "abc1234");
                       ("repo", JObj [("id", JNum 1); ("name", JStr "widgets");
                                      ("full_name", JStr "acme/widgets");
                                      ("html_url",
                                       JStr "https://github.example/acme/widgets")])]);
        ("html_url", JStr "https://github.example/acme/widgets/pull/1");
        ("additions", JNum 10); ("deletions", JNum 0); ("changed_files", JNum 1)].

(** The answer of the requested-reviewers request: a user, a null, and no
    team. *)
Definition requested_reviewers_payload : JsValue :=
  JObj [("users", JArr [octocat_payload; JNull]); ("teams", JArr [])].

Definition widgets_payload : JsValue :=
  JObj [("id", JNum 1); ("name", JStr "widgets"); ("full_name", JStr "acme/widgets");
        ("html_url", JStr "https://github.example/acme/widgets");
        ("private", JBool true); ("license", JNull)].

(** A reader of cache files that knows the text of the first page of the
    listing. *)
Definition listing_parse (s : string) : option JsValue :=
  if String.eqb s (serialize (JArr [widgets_payload])) then Some (JArr [widgets_payload])
  else sample_parse s.

(** The cache holds the first page of the listing and nothing else. *)
Definition world_with_first_page : World :=
  world_with_entry (serialize (JArr [widgets_payload])) 1000.

(** The result is a value, not a thrown error. *)
Definition is_Ok {A : Type} (r : Result A) : Prop := exists a, r = Ok a.

(* --------------------------------------------------------------------- *)
(** *** Private repositories first (the sequential pipeline) *)
(* --------------------------------------------------------------------- *)

(** [repo.private === true] *)
Definition is_private (repo : JsValue) : bool :=
  match read repo "private" with
  | JBool true => true
  | _ => false
  end.

(** The repository the sequential pipeline makes of an item that is not
    null, with the visibility it is given. *)
Definition repository_with_visibility (visibility : string) (repo : JsValue) : JsValue :=
  JObj [("id", read repo "id"); ("name", read repo "name");
        ("full_name", read repo "full_name"); ("html_url", read repo "html_url");
        ("description", read repo "description"); ("fork", read repo "fork");
        ("created_at", or_else (read repo "created_at") (JStr EmptyString));
        ("updated_at", or_else (read repo "updated_at") (JStr EmptyString));
        ("pushed_at", or_else (read repo "pushed_at") (JStr EmptyString));
        ("homepage", read repo "homepage");
        ("size", or_else (read repo "size") (JNum 0));
        ("stargazers_count", or_else (read repo "stargazers_count") (JNum 0));
        ("watchers_count", or_else (read repo "watchers_count") (JNum 0));
        ("language", read repo "language");
        ("forks_count", or_else (read repo "forks_count") (JNum 0));
        ("archived", or_else (read repo "archived") (JBool false));
        ("disabled", or_else (read repo "disabled") (JBool false));
        ("open_issues_count", or_else (read repo "open_issues_count") (JNum 0));
        ("license", license_object (read repo "license"));
        ("topics", or_else (read repo "topics") (JArr []));
        ("visibility", JStr visibility);
        ("default_branch", or_else (read repo "default_branch") (JStr "main"))].

(** The first loop: [const visibility = 'private'] *)
Definition private_repository (repo : JsValue) : JsValue :=
  repository_with_visibility "private" repo.

(** The second loop: [const visibility = repo.private ? 'private' :
    'public'] *)
Definition any_repository (repo : JsValue) : JsValue :=
  repository_with_visibility
    (if truthy (read repo "private") then "private" else "public") repo.

Section AllRepositories.

(** [response.data] for page [p] of the listing of the organisation: an
    array, as the client types it, of items that are read as they are. *)
Variable repos_page : nat -> Result (list JsValue).

(** The first loop keeps the private repositories and counts all the
    items it saw.  A null among the items of a page throws in the [filter]
    callback, which the [try] catches: the loop ends and the page is
    lost. *)
Fixpoint fetchAllRepositories_private (fuel page : nat) (repositories : list JsValue)
    (totalRepos : Z) : option (list JsValue * Z) :=
  match fuel with
  | O => None
  | S fuel' =>
      match repos_page page with
      | Throw _ => Some (repositories, totalRepos)
      | Ok data =>
          let totalRepos := totalRepos + Z.of_nat (length data) in
          if (length data =? 0)%nat then Some (repositories, totalRepos)
          else if forallb (fun repo => negb (nullish repo)) data then
            fetchAllRepositories_private fuel' (S page)
              (repositories ++ map private_repository (List.filter is_private data))
              totalRepos
          else Some (repositories, totalRepos)
      end
  end.

(** The second loop keeps every repository. *)
Fixpoint fetchAllRepositories_any (fuel page : nat) (repositories : list JsValue)
    : option (list JsValue) :=
  match fuel with
  | O => None
  | S fuel' =>
      match repos_page page with
      | Throw _ => Some repositories
      | Ok data =>
          if (length data =? 0)%nat then Some repositories
          else if forallb (fun repo => negb (nullish repo)) data then
            fetchAllRepositories_any fuel' (S page)
              (repositories ++ map any_repository data)
          else Some repositories
      end
  end.

(** [fetchAllRepositories]: the second loop runs when the first found
    repositories but no private one. *)
Definition fetchAllRepositories (fuel : nat) : option (list JsValue) :=
  '(repositories, totalRepos) ← fetchAllRepositories_private fuel 1 [] 0;
  if (length repositories =? 0)%nat && (0 <? totalRepos)
  then fetchAllRepositories_any fuel 1 repositories
  else Some repositories.

End AllRepositories.

(** A listing of two repositories, one of them private, and one of the
    same two when neither is. *)
Definition gadgets_payload : JsValue :=
  JObj [("id", JNum 2); ("name", JStr "gadgets"); ("full_name", JStr "acme/gadgets");
        ("html_url", JStr "https://github.example/acme/gadgets");
        ("private", JBool false); ("license", JNull)].

Definition public_widgets_payload : JsValue :=
  JObj [("id", JNum 1); ("name", JStr "widgets"); ("full_name", JStr "acme/widgets");
        ("html_url", JStr "https://github.example/acme/widgets");
        ("private", JBool false); ("license", JNull)].

(* ===================================================================== *)
(** * Properties *)
(* ===================================================================== *)

(** RFC 1321 test suite, appendix A.5 *)
Example md5_empty : MD5.hexdigest EmptyString = "d41d8cd98f00b204e9800998ecf8427e".
Proof. vm_compute. reflexivity. Qed.

Example md5_abc : MD5.hexdigest "abc" = "900150983cd24fb0d6963f7d28e17f72".
Proof. vm_compute. reflexivity. Qed.

Example md5_alphabet :
  MD5.hexdigest "abcdefghijklmnopqrstuvwxyz" = "c3fcd3d76192e4007dfb496cca67e13b".
Proof. vm_compute. reflexivity. Qed.

Example md5_two_blocks :
  MD5.hexdigest
    "12345678901234567890123456789012345678901234567890123456789012345678901234567890"
  = "57edf4a22be3c955ac49da2e2107b67a".
Proof. vm_compute. reflexivity. Qed.

Example string_of_Z_samples :
  map string_of_Z [0; 7; 10; 100; 1234567890; -42] =
  ["0"; "7"; "10"; "100"; "1234567890"; "-42"].
Proof. vm_compute. reflexivity. Qed.

Example generateCacheKey_sample :
  generateCacheKey "GET" "/x"
    (JObj [("owner", JStr "acme"); ("repo", JStr "widgets")])
  = "09e9a7ce34e54fb770563274b14a4f21".
Proof. vm_compute. reflexivity. Qed.


(* --------------------------------------------------------------------- *)
(** ** Cache keys *)
(* --------------------------------------------------------------------- *)

(** C1 fails on the insertion order and on values JSON cannot tell apart.
    Two parameter objects that hold the same values under the same keys,
    filled in a different order, get different keys; and two requests whose
    [page] is [NaN] in one and [null] in the other get the same key. *)
Lemma C1_counterexample :
  let owner_first := pull_params ("owner", JStr "acme") ("repo", JStr "widgets") in
  let repo_first := pull_params ("repo", JStr "widgets") ("owner", JStr "acme") in
  (equal_as_maps owner_first repo_first
   /\ generateCacheKey "GET" "/repos/{owner}/{repo}/pulls/{pull_number}" owner_first
      <> generateCacheKey "GET" "/repos/{owner}/{repo}/pulls/{pull_number}" repo_first)
  /\ (JObj [("page", JNaN)] <> JObj [("page", JNull)]
      /\ generateCacheKey "GET" "/orgs/{org}/repos" (JObj [("page", JNaN)])
         = generateCacheKey "GET" "/orgs/{org}/repos" (JObj [("page", JNull)])).
Proof.
  cbv zeta. split; split.
  - vm_compute. reflexivity.
  - intros Hkeys. vm_compute in Hkeys. discriminate.
  - discriminate.
  - unfold generateCacheKey. f_equal.
Qed.

Lemma string_app_assoc (a b c : string) :
  (a ++ (b ++ c) = (a ++ b) ++ c)%string.
Proof.
  induction a as [|ch a IH]; [reflexivity|].
  change (String ch (a ++ (b ++ c)) = String ch ((a ++ b) ++ c))%string.
  by rewrite IH.
Qed.

(** *** The JSON text of a request determines the request

    For the values JSON represents (no [undefined], no [NaN]) the text
    [JSON.stringify] prints can be read back in one way only. *)

Lemma string_app_cons c (a b : string) : (String c a ++ b = String c (a ++ b))%string.
Proof. reflexivity. Qed.

Lemma string_cons_inj c (a b : string) : String c a = String c b -> a = b.
Proof. by intros [= ->]. Qed.

Lemma string_app_nil (b : string) : (EmptyString ++ b = b)%string.
Proof. reflexivity. Qed.

Ltac push_append :=
  repeat first [rewrite string_app_cons | rewrite string_app_nil].
Ltac push_append_in H :=
  repeat first [rewrite string_app_cons in H | rewrite string_app_nil in H].

Lemma uint_prefix_free d : forall d' r1 r2,
  closes r1 -> closes r2 ->
  (NilEmpty.string_of_uint d ++ r1 = NilEmpty.string_of_uint d' ++ r2)%string ->
  d = d' /\ r1 = r2.
Proof.
  induction d as [|d IH|d IH|d IH|d IH|d IH|d IH|d IH|d IH|d IH|d IH];
    intros d' r1 r2 Hr1 Hr2; destruct d';
    cbn [NilEmpty.string_of_uint]; push_append; intros Heq;
    try discriminate Heq;
    try (injection Heq as Heq; destruct (IH _ _ _ Hr1 Hr2 Heq) as [-> ->]; done);
    try done.
  all: try (destruct Hr1 as (c & r' & -> & [ -> | [ -> | -> ] ]); discriminate Heq).
  all: try (destruct Hr2 as (c & r' & -> & [ -> | [ -> | -> ] ]); discriminate Heq).
Qed.

Lemma string_of_Z_prefix_free n m r1 r2 :
  closes r1 -> closes r2 ->
  (string_of_Z n ++ r1 = string_of_Z m ++ r2)%string ->
  n = m /\ r1 = r2.
Proof.
  unfold string_of_Z. intros Hr1 Hr2 Heq.
  assert (Z.to_int n = Z.to_int m /\ r1 = r2) as [Hnm ->];
    [|split; [by apply DecimalZ.to_int_inj|done]].
  destruct (Z.to_int n) as [d|d], (Z.to_int m) as [d'|d'];
    cbn [NilEmpty.string_of_int] in Heq; push_append_in Heq.
  - by destruct (uint_prefix_free _ _ _ _ Hr1 Hr2 Heq) as [-> ->].
  - destruct d; cbn [NilEmpty.string_of_uint] in Heq; push_append_in Heq;
      try discriminate Heq.
    destruct Hr1 as (c & r' & -> & [ -> | [ -> | -> ] ]); discriminate Heq.
  - destruct d'; cbn [NilEmpty.string_of_uint] in Heq; push_append_in Heq;
      try discriminate Heq.
    destruct Hr2 as (c & r' & -> & [ -> | [ -> | -> ] ]); discriminate Heq.
  - injection Heq as Heq.
    by destruct (uint_prefix_free _ _ _ _ Hr1 Hr2 Heq) as [-> ->].
Qed.


Lemma unescape_escape_char c rest :
  unescape_char (escape_char c ++ rest) = Some (c, rest).
Proof. destruct c as [[] [] [] [] [] [] [] []]; reflexivity. Qed.

Lemma escape_prefix_free s1 : forall s2 r1 r2,
  (escape s1 ++ String dquote r1 = escape s2 ++ String dquote r2)%string ->
  s1 = s2 /\ r1 = r2.
Proof.
  induction s1 as [|c1 s1 IH]; intros [|c2 s2] r1 r2; cbn [escape]; intros Heq.
  - push_append_in Heq. by injection Heq as ->.
  - rewrite <- string_app_assoc in Heq. apply (f_equal unescape_char) in Heq.
    by rewrite unescape_escape_char in Heq.
  - rewrite <- string_app_assoc in Heq. apply (f_equal unescape_char) in Heq.
    by rewrite unescape_escape_char in Heq.
  - rewrite <- !string_app_assoc in Heq. apply (f_equal unescape_char) in Heq.
    rewrite !unescape_escape_char in Heq. injection Heq as -> Heq.
    by destruct (IH _ _ _ Heq) as [-> ->].
Qed.

Lemma quote_app s r :
  (quote s ++ r = String dquote (escape s ++ String dquote r))%string.
Proof. unfold quote. push_append. by rewrite <- string_app_assoc. Qed.

Lemma quote_prefix_free s1 s2 r1 r2 :
  (quote s1 ++ r1 = quote s2 ++ r2)%string -> s1 = s2 /\ r1 = r2.
Proof.
  rewrite !quote_app. intros [= Heq]. by apply escape_prefix_free.
Qed.


Lemma JsValue_nested_ind (P : JsValue -> Prop) :
  P JUndefined -> P JNull -> (forall b, P (JBool b)) -> (forall n, P (JNum n)) ->
  P JNaN -> (forall s, P (JStr s)) ->
  (forall items, Forall P items -> P (JArr items)) ->
  (forall props, Forall (fun kv => P (snd kv)) props -> P (JObj props)) ->
  forall v, P v.
Proof.
  intros Hundef Hnull Hbool Hnum Hnan Hstr Harr Hobj.
  fix IH 1. intros [ | | b | n | | s | items | props ].
  - exact Hundef.
  - exact Hnull.
  - apply Hbool.
  - apply Hnum.
  - exact Hnan.
  - apply Hstr.
  - apply Harr. induction items as [|x items IHitems]; constructor; [apply IH|exact IHitems].
  - apply Hobj. induction props as [|[k x] props IHprops]; constructor;
      [apply IH|exact IHprops].
Qed.

Lemma string_of_Z_head n :
  exists c s, string_of_Z n = String c s /\ char_kind c = 2%nat.
Proof.
  unfold string_of_Z. destruct n as [|p|p]; cbn [Z.to_int NilEmpty.string_of_int].
  - by eexists _, _.
  - pose proof (Unsigned.to_uint_nonnil p) as Hnil.
    destruct (Pos.to_uint p); [done|..]; by eexists _, _.
  - by eexists _, _.
Qed.

Lemma serialize_JArr items :
  serialize (JArr items) = ("[" ++ join "," (map serialize items) ++ "]")%string.
Proof. reflexivity. Qed.

Lemma serialize_JObj props :
  forallb (fun kv => match kv with (_, x) => representable x end) props = true ->
  serialize (JObj props) = ("{" ++ join "," (map property_text props) ++ "}")%string.
Proof.
  intros Hprops.
  change (serialize (JObj props))
    with ("{" ++ join ","
            (flat_map (fun kv =>
               match kv with
               | (k, JUndefined) => []
               | (k, x) => [(quote k ++ ":" ++ serialize x)%string]
               end) props) ++ "}")%string.
  do 3 f_equal. induction props as [|[k x] props IH]; [reflexivity|].
  cbn [forallb] in Hprops. apply andb_true_iff in Hprops as [Hx Hprops].
  cbn [flat_map map]. rewrite IH by done. by destruct x.
Qed.

Lemma serialize_head v r :
  representable v = true ->
  exists c s, (serialize v ++ r)%string = String c s /\ char_kind c = value_kind v.
Proof.
  destruct v as [ | | [|] | n | | s | items | props ]; try done; intros Hv.
  - by eexists _, _.
  - by eexists _, _.
  - by eexists _, _.
  - destruct (string_of_Z_head n) as (c & s & Hs & Hc).
    exists c, (s ++ r)%string. cbn [serialize]. by rewrite Hs.
  - cbn [serialize]. rewrite quote_app. by eexists _, _.
  - rewrite serialize_JArr. by eexists _, _.
  - rewrite serialize_JObj by done. by eexists _, _.
Qed.


Lemma join_comma_close (part : string) (parts : list string) (close r : string) tail :
  (forall r', (join "," parts ++ close ++ r' = tail ++ r')%string) ->
  parts <> [] ->
  (join "," (part :: parts) ++ close ++ r = part ++ "," ++ tail ++ r)%string.
Proof.
  intros Htail Hne. destruct parts as [|q parts]; [done|].
  change (join "," (part :: q :: parts))
    with (part ++ "," ++ join "," (q :: parts))%string.
  rewrite <- !string_app_assoc. by rewrite Htail.
Qed.

Lemma array_text x xs r :
  (join "," (map serialize (x :: xs)) ++ "]" ++ r
   = serialize x ++ array_tail xs ++ r)%string.
Proof.
  revert x r. induction xs as [|y ys IH]; intros x r.
  - reflexivity.
  - cbn [map]. rewrite (join_comma_close _ _ _ _ (serialize y ++ array_tail ys)).
    + cbn [array_tail]. by rewrite <- !string_app_assoc.
    + intros r'. rewrite <- string_app_assoc. apply (IH y).
    + done.
Qed.

Lemma object_text kv ps r :
  (join "," (map property_text (kv :: ps)) ++ "}" ++ r
   = property_text kv ++ object_tail ps ++ r)%string.
Proof.
  revert kv r. induction ps as [|kv' ps IH]; intros kv r.
  - reflexivity.
  - cbn [map]. rewrite (join_comma_close _ _ _ _ (property_text kv' ++ object_tail ps)).
    + cbn [object_tail]. by rewrite <- !string_app_assoc.
    + intros r'. rewrite <- string_app_assoc. apply (IH kv').
    + done.
Qed.

Lemma serialize_JArr_app items r :
  (serialize (JArr items) ++ r)%string
  = String "[" (match items with
                | [] => String "]" r
                | x :: xs => serialize x ++ array_tail xs ++ r
                end)%string.
Proof.
  rewrite serialize_JArr, <- !string_app_assoc. push_append. f_equal.
  destruct items as [|x xs]; [reflexivity|]. apply array_text.
Qed.

Lemma serialize_JObj_app props r :
  forallb (fun kv => match kv with (_, x) => representable x end) props = true ->
  (serialize (JObj props) ++ r)%string
  = String "{" (match props with
                | [] => String "}" r
                | kv :: ps => property_text kv ++ object_tail ps ++ r
                end)%string.
Proof.
  intros Hprops. rewrite serialize_JObj, <- !string_app_assoc by done.
  push_append. f_equal.
  destruct props as [|kv ps]; [reflexivity|]. apply object_text.
Qed.

Lemma closes_array_tail xs r : closes (array_tail xs ++ r).
Proof.
  destruct xs; cbn [array_tail]; push_append; eexists _, _; split; eauto.
Qed.

Lemma closes_object_tail ps r : closes (object_tail ps ++ r).
Proof.
  destruct ps; cbn [object_tail]; push_append; eexists _, _; split; eauto.
Qed.

Lemma array_tail_reads_back xs :
  Forall reads_back xs ->
  forallb representable xs = true ->
  forall ys r1 r2,
    forallb representable ys = true -> closes r1 -> closes r2 ->
    (array_tail xs ++ r1 = array_tail ys ++ r2)%string ->
    xs = ys /\ r1 = r2.
Proof.
  induction xs as [|x xs IH]; intros Hback Hxs [|y ys] r1 r2 Hys Hr1 Hr2;
    cbn [array_tail]; push_append; intros Heq; try discriminate Heq.
  - by injection Heq as ->.
  - apply string_cons_inj in Heq. rewrite <- !string_app_assoc in Heq.
    apply Forall_cons in Hback as [Hx Hback].
    cbn [forallb] in Hxs, Hys.
    apply andb_true_iff in Hxs as [Hx_ok Hxs], Hys as [Hy_ok Hys].
    destruct (Hx Hx_ok y _ _ Hy_ok (closes_array_tail _ _) (closes_array_tail _ _) Heq)
      as [-> Htail].
    by destruct (IH Hback Hxs ys r1 r2 Hys Hr1 Hr2 Htail) as [-> ->].
Qed.

Lemma property_text_app kv r :
  (property_text kv ++ r = quote (fst kv) ++ String ":" (serialize (snd kv) ++ r))%string.
Proof. unfold property_text. by rewrite <- !string_app_assoc. Qed.

Lemma property_reads_back k x k' x' r1 r2 :
  reads_back x ->
  representable x = true -> representable x' = true -> closes r1 -> closes r2 ->
  (property_text (k, x) ++ r1 = property_text (k', x') ++ r2)%string ->
  (k, x) = (k', x') /\ r1 = r2.
Proof.
  intros Hback Hx Hx' Hr1 Hr2. rewrite !property_text_app. cbn [fst snd].
  intros [-> Heq]%quote_prefix_free. injection Heq as Heq.
  by destruct (Hback Hx x' r1 r2 Hx' Hr1 Hr2 Heq) as [-> ->].
Qed.

Lemma object_tail_reads_back ps :
  Forall (fun kv => reads_back (snd kv)) ps ->
  forallb (fun kv => match kv with (_, x) => representable x end) ps = true ->
  forall qs r1 r2,
    forallb (fun kv => match kv with (_, x) => representable x end) qs = true ->
    closes r1 -> closes r2 ->
    (object_tail ps ++ r1 = object_tail qs ++ r2)%string ->
    ps = qs /\ r1 = r2.
Proof.
  induction ps as [|[k x] ps IH]; intros Hback Hps [|[k' x'] qs] r1 r2 Hqs Hr1 Hr2;
    cbn [object_tail]; push_append; intros Heq; try discriminate Heq.
  - by injection Heq as ->.
  - apply string_cons_inj in Heq. rewrite <- !string_app_assoc in Heq.
    apply Forall_cons in Hback as [Hx Hback].
    cbn [forallb] in Hps, Hqs.
    apply andb_true_iff in Hps as [Hx_ok Hps], Hqs as [Hy_ok Hqs].
    destruct (property_reads_back k x k' x' _ _ Hx Hx_ok Hy_ok
                (closes_object_tail _ _) (closes_object_tail _ _) Heq)
      as [[= -> ->] Htail].
    by destruct (IH Hback Hps qs r1 r2 Hqs Hr1 Hr2 Htail) as [-> ->].
Qed.


Lemma kinds_agree v1 v2 r1 r2 :
  representable v1 = true -> representable v2 = true ->
  (serialize v1 ++ r1 = serialize v2 ++ r2)%string ->
  value_kind v1 = value_kind v2.
Proof.
  intros H1 H2 Heq.
  destruct (serialize_head v1 r1 H1) as (c1 & s1 & E1 & <-).
  destruct (serialize_head v2 r2 H2) as (c2 & s2 & E2 & <-).
  rewrite E1, E2 in Heq. by injection Heq as -> _.
Qed.

Lemma not_a_value_start v r c s :
  representable v = true ->
  (serialize v ++ r)%string = String c s -> (char_kind c <= 5)%nat.
Proof.
  intros Hv Heq. destruct (serialize_head v r Hv) as (c' & s' & E & K).
  rewrite E in Heq. injection Heq as -> _. rewrite K. by destruct v; cbn; lia.
Qed.

Theorem serialize_reads_back v : reads_back v.
Proof.
  induction v as [ | | b | n | | s | items IH | props IH ] using JsValue_nested_ind;
    intros Hv v2 r1 r2 Hv2 Hr1 Hr2 Heq; try done;
    pose proof (kinds_agree _ _ _ _ Hv Hv2 Heq) as Hkind;
    destruct v2 as [ | | b2 | n2 | | s2 | items2 | props2 ]; try done.
  - cbn [serialize] in Heq. push_append_in Heq. by injection Heq as ->.
  - destruct b, b2; cbn [serialize] in Heq; push_append_in Heq;
      try discriminate Heq; by injection Heq as ->.
  - cbn [serialize] in Heq.
    by destruct (string_of_Z_prefix_free _ _ _ _ Hr1 Hr2 Heq) as [-> ->].
  - cbn [serialize] in Heq.
    by destruct (quote_prefix_free _ _ _ _ Heq) as [-> ->].
  - rewrite !serialize_JArr_app in Heq. apply string_cons_inj in Heq.
    cbn [representable] in Hv, Hv2.
    destruct items as [|x xs], items2 as [|y ys].
    + by injection Heq as ->.
    + cbn [forallb] in Hv2. apply andb_true_iff in Hv2 as [Hy _].
      symmetry in Heq. apply not_a_value_start in Heq; [|done].
      vm_compute in Heq. lia.
    + cbn [forallb] in Hv. apply andb_true_iff in Hv as [Hx _].
      apply not_a_value_start in Heq; [|done]. vm_compute in Heq. lia.
    + apply Forall_cons in IH as [Hx_back IH].
      cbn [forallb] in Hv, Hv2.
      apply andb_true_iff in Hv as [Hx Hxs], Hv2 as [Hy Hys].
      destruct (Hx_back Hx y _ _ Hy (closes_array_tail _ _) (closes_array_tail _ _) Heq)
        as [-> Htail].
      by destruct (array_tail_reads_back xs IH Hxs ys r1 r2 Hys Hr1 Hr2 Htail)
        as [-> ->].
  - cbn [representable] in Hv, Hv2.
    rewrite !serialize_JObj_app in Heq by done. apply string_cons_inj in Heq.
    destruct props as [|[k x] ps], props2 as [|[k' x'] qs].
    + by injection Heq as ->.
    + rewrite property_text_app, quote_app in Heq. discriminate Heq.
    + rewrite property_text_app, quote_app in Heq. discriminate Heq.
    + apply Forall_cons in IH as [Hx_back IH].
      cbn [forallb] in Hv, Hv2.
      apply andb_true_iff in Hv as [Hx Hps], Hv2 as [Hy Hqs].
      destruct (property_reads_back k x k' x' _ _ Hx_back Hx Hy
                  (closes_object_tail _ _) (closes_object_tail _ _) Heq)
        as [[= -> ->] Htail].
      by destruct (object_tail_reads_back ps IH Hps qs r1 r2 Hqs Hr1 Hr2 Htail)
        as [-> ->].
Qed.

(** The text of a request object determines the method, the url and the
    parameters. *)
Lemma request_text_injective method url params method' url' params' :
  representable params = true -> representable params' = true ->
  serialize (request_object method url params)
  = serialize (request_object method' url' params') ->
  method = method' /\ url = url' /\ params = params'.
Proof.
  intros Hp Hp' Heq.
  assert (Hclose : closes ","%string) by (eexists _, _; split; eauto).
  destruct (serialize_reads_back (request_object method url params))
    with (v2 := request_object method' url' params') (r1 := ","%string) (r2 := ","%string)
    as [Hobj _]; try done.
  - cbn. by rewrite Hp.
  - cbn. by rewrite Hp'.
  - by rewrite Heq.
  - by injection Hobj as -> -> ->.
Qed.


(** C1, as amended.  The key is a function of the JSON text of
    [{ method, url, params }], in which the properties of [params] come in
    insertion order: two requests with the same text, the same request
    hashed twice among them, get the same key.  For parameters JSON
    represents, the text determines the method, the url and the
    parameters, values and insertion order of the keys included: two
    requests that differ in any of them have different texts, so they get
    the same key only if MD5 maps the two texts to one digest. *)
Theorem C1_cache_key_determinism method url params method' url' params' :
  (serialize (request_object method url params)
   = serialize (request_object method' url' params') ->
   generateCacheKey method url params = generateCacheKey method' url' params')
  /\ (representable params = true -> representable params' = true ->
      generateCacheKey method url params = generateCacheKey method' url' params' ->
      (method = method' /\ url = url' /\ params = params')
      \/ (serialize (request_object method url params)
          <> serialize (request_object method' url' params')
          /\ MD5.hexdigest (serialize (request_object method url params))
             = MD5.hexdigest (serialize (request_object method' url' params')))).
Proof.
  split.
  - unfold generateCacheKey. by intros ->.
  - intros Hp Hp' Hkey.
    destruct (string_dec (serialize (request_object method url params))
                (serialize (request_object method' url' params'))) as [Heq|Hne].
    + left. by apply request_text_injective.
    + right. split; [exact Hne|exact Hkey].
Qed.

(** C1, as amended, on a concrete request: the first page of the
    organisation listing, hashed twice. *)
Lemma C1_cache_key_determinism_witness :
  serialize (request_object "GET" "/orgs/{org}/repos" (repos_params 1))
  = serialize (request_object "GET" "/orgs/{org}/repos" (repos_params 1))
  /\ representable (repos_params 1) = true
  /\ generateCacheKey "GET" "/orgs/{org}/repos" (repos_params 1)
     = generateCacheKey "GET" "/orgs/{org}/repos" (repos_params 1)
  /\ (("GET" = "GET" /\ "/orgs/{org}/repos" = "/orgs/{org}/repos"
       /\ repos_params 1 = repos_params 1)
      \/ (serialize (request_object "GET" "/orgs/{org}/repos" (repos_params 1))
          <> serialize (request_object "GET" "/orgs/{org}/repos" (repos_params 1))
          /\ MD5.hexdigest
               (serialize (request_object "GET" "/orgs/{org}/repos" (repos_params 1)))
             = MD5.hexdigest
                 (serialize (request_object "GET" "/orgs/{org}/repos" (repos_params 1))))).
Proof.
  pose proof (C1_cache_key_determinism "GET" "/orgs/{org}/repos" (repos_params 1)
                "GET" "/orgs/{org}/repos" (repos_params 1)) as [Hsame Hdiffer].
  split; [reflexivity|]. split; [reflexivity|].
  split; [exact (Hsame eq_refl)|].
  exact (Hdiffer eq_refl eq_refl (Hsame eq_refl)).
Defined.

(** Two pages of one listing get two keys. *)
Example generateCacheKey_pages :
  generateCacheKey "GET" "/orgs/{org}/repos" (repos_params 1)
  <> generateCacheKey "GET" "/orgs/{org}/repos" (repos_params 2).
Proof. intros Hkeys. vm_compute in Hkeys. discriminate. Qed.

(** Quotes, backslashes and control characters in a parameter. *)
Example generateCacheKey_escapes :
  generateCacheKey "GET" "/search"
    (JObj [("q", JStr (String "a" (String dquote (String "b" (String backslash
                        (String "c" (String (ascii_of_nat 10)
                           (String (ascii_of_nat 1) EmptyString))))))));
           ("n", JNum (-42)); ("flags", JArr [JBool true; JNull; JUndefined])])
  = "65626eb92c47a30a8db935e1d74b31d7".
Proof. vm_compute. reflexivity. Qed.

(* --------------------------------------------------------------------- *)
(** ** Request client: termination, retries and cache lookup *)
(* --------------------------------------------------------------------- *)

Lemma includes_empty_l sub : sub <> EmptyString -> includes EmptyString sub = false.
Proof. destruct sub; [congruence|reflexivity]. Qed.

Section ClientFacts.

Variable JSON_parse : string -> option JsValue.
Variable JSON_stringify_indented : JsValue -> option string.
Variable octokit_request : World -> string -> JsValue -> Result JsValue.

Abbreviation getCached := (getCachedData JSON_parse).
Abbreviation request_rec :=
  (cachedRequest_rec JSON_parse JSON_stringify_indented octokit_request).
Abbreviation request :=
  (cachedRequest JSON_parse JSON_stringify_indented octokit_request).
Abbreviation route_of method url := (method ++ " " ++ url)%string.
Abbreviation miss := (cache_miss JSON_parse).

Lemma miss_after_wait w method url params ttlDays t :
  0 <= t ->
  miss w method url params ttlDays false ->
  miss (sleep (record_call w (route_of method url) params) t)
    method url params ttlDays false.
Proof.
  unfold cache_miss, getCachedData. simpl. intros Ht.
  destruct (fs w !! generateCacheKey method url params) as [f|]; [|done].
  destruct (Z.leb_spec (clock w - mtimeMs f) (ttlDays * ms_per_day)) as [Hin|Hout].
  - intros Hfalsy.
    destruct (clock w + t - mtimeMs f <=? ttlDays * ms_per_day); done.
  - intros _.
    destruct (Z.leb_spec (clock w + t - mtimeMs f) (ttlDays * ms_per_day)); [lia|done].
Qed.

(** The fuel of [cachedRequest] is never used up: the client always
    returns or throws. *)
Lemma cachedRequest_rec_returns fuel :
  forall w method url params ttlDays retryCount force,
  (3 - retryCount < fuel)%nat ->
  is_Some (request_rec fuel w method url params ttlDays retryCount force).
Proof.
  induction fuel as [|fuel IH]; intros w method url params ttlDays rc force Hfuel; [lia|].
  cbn [cachedRequest_rec].
  repeat case_match; eauto;
    match goal with H : (3 <=? _)%nat = false |- _ => apply Nat.leb_gt in H end;
    apply IH; lia.
Qed.


(** A hit: the cached value is returned, the world is untouched. *)
Lemma cachedRequest_rec_hit fuel w method url params ttlDays retryCount force v :
  getCached w (generateCacheKey method url params) ttlDays force = v ->
  truthy v = true ->
  request_rec (S fuel) w method url params ttlDays retryCount force = Some (w, Ok v).
Proof. intros <- Hv. cbn [cachedRequest_rec]. by rewrite Hv. Qed.

Lemma cachedRequest_rec_forced_miss fuel w method url params ttlDays retryCount :
  miss w method url params ttlDays true ->
  request_rec (S fuel) w method url params ttlDays retryCount true
  = Some (w, Throw (forced_miss_error method url)).
Proof. unfold cache_miss. intros Hm. cbn [cachedRequest_rec]. by rewrite Hm. Qed.

(** A miss outside forced mode: the live call is issued. *)
Lemma cachedRequest_rec_live_ok fuel w method url params ttlDays retryCount data :
  miss w method url params ttlDays false ->
  octokit_request w (route_of method url) params = Ok data ->
  request_rec (S fuel) w method url params ttlDays retryCount false
  = Some (saveCacheData JSON_stringify_indented
            (record_call w (route_of method url) params)
            (generateCacheKey method url params) data, Ok data).
Proof. unfold cache_miss. intros Hm Hok. cbn [cachedRequest_rec]. by rewrite Hm, Hok. Qed.

Lemma cachedRequest_rec_live_throw fuel w method url params ttlDays retryCount error :
  miss w method url params ttlDays false ->
  octokit_request w (route_of method url) params = Throw error ->
  request_rec (S fuel) w method url params ttlDays retryCount false
  = let w1 := record_call w (route_of method url) params in
    match classify error with
    | OtherError => Some (w1, Throw (propagated error))
    | kind =>
        if (3 <=? retryCount)%nat
        then Some (w1, Throw (retries_exhausted_error method url error))
        else request_rec fuel (sleep w1 (2 ^ Z.of_nat retryCount * base_delay kind))
               method url params ttlDays (retryCount + 1) false
    end.
Proof.
  unfold cache_miss. intros Hm Hthrow. cbn [cachedRequest_rec]. rewrite Hm, Hthrow.
  unfold classify, propagated, message_includes. cbn zeta.
  destruct (bool_decide (status error = Some 403)) eqn:H403;
    destruct (message error) as [m|] eqn:Hmsg; cbn [andb]; try reflexivity.
  - destruct (includes m "API rate limit exceeded"); [reflexivity|].
    destruct (String.eqb_spec m EmptyString) as [->|Hne]; cbn [negb andb];
      [reflexivity|].
    destruct (includes m "Request quota exhausted"); reflexivity.
  - destruct (String.eqb_spec m EmptyString) as [->|Hne]; cbn [negb andb];
      [reflexivity|].
    destruct (includes m "Request quota exhausted"); reflexivity.
Qed.


Lemma cachedRequest_rec_calls_grow fuel :
  forall w method url params ttlDays retryCount force w' r,
  request_rec fuel w method url params ttlDays retryCount force = Some (w', r) ->
  exists rest, live_calls w' = live_calls w ++ rest.
Proof.
  induction fuel as [|fuel IH]; intros w method url params ttlDays rc force w' r; [done|].
  cbn [cachedRequest_rec]. unfold saveCacheData.
  repeat case_match; intros Hrun; simplify_eq;
    try (by exists []; rewrite app_nil_r);
    try (by eexists; cbn; reflexivity);
    apply IH in Hrun as [rest Hrest]; cbn in Hrest;
    rewrite <- app_assoc in Hrest; eauto.
Qed.

(** A miss outside forced mode always reaches the network: the first
    thing the client does is the live call for this very request. *)
Lemma cachedRequest_miss_goes_live w method url params ttlDays retryCount :
  miss w method url params ttlDays false ->
  exists w' r rest,
    request w method url params ttlDays retryCount false = Some (w', r)
    /\ live_calls w' = live_calls w ++ (route_of method url, params) :: rest.
Proof.
  intros Hmiss. unfold cachedRequest.
  destruct (octokit_request w (route_of method url) params) as [data|error] eqn:Hlive.
  - rewrite (cachedRequest_rec_live_ok _ _ _ _ _ _ _ _ Hmiss Hlive).
    eexists _, _, []. split; [reflexivity|]. unfold saveCacheData. by case_match.
  - rewrite (cachedRequest_rec_live_throw _ _ _ _ _ _ _ _ Hmiss Hlive). cbn zeta.
    assert (Hretry : forall base,
      exists w' r rest,
        (if (3 <=? retryCount)%nat
         then Some (record_call w (route_of method url) params,
                    Throw (retries_exhausted_error method url error))
         else request_rec (3 - retryCount)
                (sleep (record_call w (route_of method url) params)
                   (2 ^ Z.of_nat retryCount * base))
                method url params ttlDays (retryCount + 1) false) = Some (w', r)
        /\ live_calls w' = live_calls w ++ (route_of method url, params) :: rest).
    { intros base. destruct (Nat.leb_spec 3 retryCount) as [Hcap|Hmore].
      - by eexists _, _, [].
      - destruct (cachedRequest_rec_returns (3 - retryCount)
                    (sleep (record_call w (route_of method url) params)
                       (2 ^ Z.of_nat retryCount * base))
                    method url params ttlDays (retryCount + 1) false)
          as [[w' r] Hrun]; [lia|].
        rewrite Hrun.
        apply cachedRequest_rec_calls_grow in Hrun as [rest Hrest].
        cbn in Hrest. rewrite <- app_assoc in Hrest. eauto. }
    destruct (classify error); [apply Hretry|apply Hretry|by eexists _, _, []].
Qed.

(** C5, as amended.  For an entry of the request's key whose text parses
    to a truthy value, written at [mtimeMs]: outside forced mode a request
    at a time up to and including [mtimeMs + ttlDays] days is answered
    from the cache, leaving the world untouched, and a request after that
    time issues the live call; in forced mode the entry is served whatever
    its age.  In forced mode without an entry the request throws the
    forced-cache-miss error and issues no live call. *)
Theorem C5_cache_lookup_contract w method url params ttlDays retryCount :
  (forall f v,
     fs w !! generateCacheKey method url params = Some f ->
     JSON_parse (text f) = Some v ->
     truthy v = true ->
     (clock w <= mtimeMs f + ttlDays * ms_per_day ->
      request w method url params ttlDays retryCount false = Some (w, Ok v))
     /\ (mtimeMs f + ttlDays * ms_per_day < clock w ->
         exists w' r rest,
           request w method url params ttlDays retryCount false = Some (w', r)
           /\ live_calls w' = live_calls w ++ (route_of method url, params) :: rest)
     /\ request w method url params ttlDays retryCount true = Some (w, Ok v))
  /\ (fs w !! generateCacheKey method url params = None ->
      request w method url params ttlDays retryCount true
      = Some (w, Throw (forced_miss_error method url))).
Proof.
  split.
  - intros f v Hf Hparse Hv. repeat split.
    + intros Hfresh. apply cachedRequest_rec_hit; [|done].
      unfold getCachedData, read_cache_file. rewrite Hf, Hparse.
      destruct (Z.leb_spec (clock w - mtimeMs f) (ttlDays * ms_per_day)); [done|lia].
    + intros Hstale. apply cachedRequest_miss_goes_live.
      unfold cache_miss, getCachedData. rewrite Hf.
      destruct (Z.leb_spec (clock w - mtimeMs f) (ttlDays * ms_per_day)); [lia|done].
    + apply cachedRequest_rec_hit; [|done].
      unfold getCachedData, read_cache_file. by rewrite Hf, Hparse.
  - intros Hnone. apply cachedRequest_rec_forced_miss.
    unfold cache_miss, getCachedData. by rewrite Hnone.
Qed.

(** C10. An entry whose text parses to a falsy value is never served,
    whatever its age: outside forced mode the client issues the live
    call, in forced mode it throws the forced-cache-miss error (and
    touches nothing), although the cache file exists. *)
Theorem C10_falsy_entry_never_served w method url params ttlDays retryCount f v :
  fs w !! generateCacheKey method url params = Some f ->
  JSON_parse (text f) = Some v ->
  truthy v = false ->
  (exists w' r rest,
     request w method url params ttlDays retryCount false = Some (w', r)
     /\ live_calls w' = live_calls w ++ (route_of method url, params) :: rest)
  /\ request w method url params ttlDays retryCount true
     = Some (w, Throw (forced_miss_error method url)).
Proof.
  intros Hf Hparse Hv. split.
  - apply cachedRequest_miss_goes_live.
    unfold cache_miss, getCachedData, read_cache_file. rewrite Hf, Hparse.
    by destruct (clock w - mtimeMs f <=? ttlDays * ms_per_day).
  - apply cachedRequest_rec_forced_miss.
    unfold cache_miss, getCachedData, read_cache_file. by rewrite Hf, Hparse.
Qed.

End ClientFacts.

(** The falsy values [JSON.parse] can produce are null, false, 0 and the
    empty string. *)
Lemma falsy_parsed_values v :
  v <> JUndefined -> v <> JNaN ->
  truthy v = false <->
  v = JNull \/ v = JBool false \/ v = JNum 0 \/ v = JStr EmptyString.
Proof.
  intros Hu Hn. split.
  - destruct v as [ | | b | n | | s | items | props ]; try destruct b;
      cbn; try done; auto.
    + intros H%negb_false_iff%Z.eqb_eq. subst. auto.
    + intros H%negb_false_iff%String.eqb_eq. subst. auto.
  - intros [ -> | [ -> | [ -> | -> ] ] ]; reflexivity.
Qed.


(** C5 fails for an entry whose body is not truthy.  The cache holds a
    file for the request, written at time 0 with the text [null]; one
    second later, well inside the 7 days, the client does not answer from
    the cache but calls the remote end, and in forced mode it throws the
    forced-cache-miss error although the entry exists. *)
Lemma C5_counterexample :
  let w := world_with_entry "null" 1000 in
  fs w !! repos_key = Some {| mtimeMs := 0; text := "null" |}
  /\ clock w <= 0 + 7 * ms_per_day
  /\ (exists w',
        cachedRequest sample_parse JSON_stringify always_empty_page w
          "GET" "/orgs/{org}/repos" (repos_params 1) 7 0 false
        = Some (w', Ok (JArr []))
        /\ live_calls w' = [("GET /orgs/{org}/repos", repos_params 1)])
  /\ cachedRequest sample_parse JSON_stringify always_empty_page w
       "GET" "/orgs/{org}/repos" (repos_params 1) 7 0 true
     = Some (w, Throw (forced_miss_error "GET" "/orgs/{org}/repos")).
Proof.
  cbv zeta. split; [vm_compute; reflexivity|]. split; [vm_compute; discriminate|].
  split.
  - eexists. split; [vm_compute; reflexivity|reflexivity].
  - vm_compute. reflexivity.
Qed.

(** C5, as amended, on a concrete run: the same file holding [[]]. *)
Lemma C5_cache_lookup_contract_witness :
  let w := world_with_entry "[]" (7 * ms_per_day) in
  let key := generateCacheKey "GET" "/orgs/{org}/repos" (repos_params 1) in
  fs w !! key = Some {| mtimeMs := 0; text := "[]" |}
  /\ sample_parse "[]" = Some (JArr [])
  /\ truthy (JArr []) = true
  /\ clock w <= 0 + 7 * ms_per_day
  /\ fs empty_world !! key = None
  /\ cachedRequest sample_parse JSON_stringify always_rate_limited w
       "GET" "/orgs/{org}/repos" (repos_params 1) 7 0 false
     = Some (w, Ok (JArr []))
  /\ cachedRequest sample_parse JSON_stringify always_rate_limited empty_world
       "GET" "/orgs/{org}/repos" (repos_params 1) 7 0 true
     = Some (empty_world, Throw (forced_miss_error "GET" "/orgs/{org}/repos")).
Proof.
  cbv zeta.
  assert (Hf : fs (world_with_entry "[]" (7 * ms_per_day))
                 !! generateCacheKey "GET" "/orgs/{org}/repos" (repos_params 1)
               = Some {| mtimeMs := 0; text := "[]" |}) by (vm_compute; reflexivity).
  assert (Hfresh : clock (world_with_entry "[]" (7 * ms_per_day))
                   <= mtimeMs {| mtimeMs := 0; text := "[]" |} + 7 * ms_per_day)
    by (vm_compute; discriminate).
  assert (Hnone : fs empty_world
                    !! generateCacheKey "GET" "/orgs/{org}/repos" (repos_params 1)
                  = None) by (vm_compute; reflexivity).
  split; [exact Hf|]. split; [reflexivity|]. split; [reflexivity|].
  split; [exact Hfresh|]. split; [exact Hnone|]. split.
  - pose proof (C5_cache_lookup_contract sample_parse JSON_stringify
                  always_rate_limited (world_with_entry "[]" (7 * ms_per_day))
                  "GET" "/orgs/{org}/repos" (repos_params 1) 7 0) as [Hentry _].
    destruct (Hentry {| mtimeMs := 0; text := "[]" |} (JArr []) Hf eq_refl eq_refl)
      as [Hhit _].
    exact (Hhit Hfresh).
  - pose proof (C5_cache_lookup_contract sample_parse JSON_stringify
                  always_rate_limited empty_world
                  "GET" "/orgs/{org}/repos" (repos_params 1) 7 0) as [_ Hforced].
    exact (Hforced Hnone).
Defined.

(** C10 on a concrete run: the file holds [null]. *)
Lemma C10_falsy_entry_never_served_witness :
  let w := world_with_entry "null" 1000 in
  let key := generateCacheKey "GET" "/orgs/{org}/repos" (repos_params 1) in
  fs w !! key = Some {| mtimeMs := 0; text := "null" |}
  /\ sample_parse "null" = Some JNull
  /\ truthy JNull = false
  /\ (exists w' r rest,
        cachedRequest sample_parse JSON_stringify always_empty_page w
          "GET" "/orgs/{org}/repos" (repos_params 1) 7 0 false = Some (w', r)
        /\ live_calls w'
           = live_calls w ++ ("GET /orgs/{org}/repos", repos_params 1) :: rest)
  /\ cachedRequest sample_parse JSON_stringify always_empty_page w
       "GET" "/orgs/{org}/repos" (repos_params 1) 7 0 true
     = Some (w, Throw (forced_miss_error "GET" "/orgs/{org}/repos")).
Proof.
  cbv zeta.
  assert (Hf : fs (world_with_entry "null" 1000)
                 !! generateCacheKey "GET" "/orgs/{org}/repos" (repos_params 1)
               = Some {| mtimeMs := 0; text := "null" |}) by (vm_compute; reflexivity).
  split; [exact Hf|]. split; [reflexivity|]. split; [reflexivity|].
  exact (C10_falsy_entry_never_served sample_parse JSON_stringify always_empty_page
           (world_with_entry "null" 1000) "GET" "/orgs/{org}/repos" (repos_params 1)
           7 0 {| mtimeMs := 0; text := "null" |} JNull Hf eq_refl eq_refl).
Defined.

(* --------------------------------------------------------------------- *)
(** ** Paginators *)
(* --------------------------------------------------------------------- *)

Section PaginateFacts.

Context {Raw Out : Type}.
Variable request : nat -> Result (list Raw).
Variable format : list Raw -> list Out.
Hypothesis format_app : forall a b, format (a ++ b) = format a ++ format b.
Hypothesis format_nil : format [] = [].

Lemma paginate_raw_out fuel : forall page out,
  paginate request (fun data => data) fuel page out
  = (fun raw => out ++ raw) <$> paginate request (fun data => data) fuel page [].
Proof.
  induction fuel as [|fuel IH]; intros page out; [reflexivity|].
  cbn [paginate]. destruct (request page) as [[|x data]|e]; cbn.
  - by rewrite app_nil_r.
  - rewrite (IH _ (out ++ x :: data)), (IH _ ([] ++ x :: data)).
    destruct (paginate request _ fuel (S page) []); cbn; [|done].
    by rewrite <- app_assoc.
  - by rewrite app_nil_r.
Qed.

Lemma paginate_format fuel : forall page out,
  paginate request format fuel page out
  = (fun raw => out ++ format raw) <$> paginate request (fun data => data) fuel page [].
Proof.
  induction fuel as [|fuel IH]; intros page out; [reflexivity|].
  cbn [paginate]. destruct (request page) as [[|x data]|e]; cbn.
  - by rewrite format_nil, app_nil_r.
  - rewrite IH, (paginate_raw_out _ _ ([] ++ x :: data)).
    destruct (paginate request _ fuel (S page) []); cbn; [|done].
    change (x :: data ++ l) with ((x :: data) ++ l).
    by rewrite format_app, app_assoc.
  - by rewrite format_nil, app_nil_r.
Qed.


(** The loop ends on the first page that is empty or fails: with that
    much fuel the paginator returns. *)
Lemma paginate_returns last_page : forall page out fuel,
  (page <= last_page)%nat ->
  (request last_page = Ok [] \/ exists e, request last_page = Throw e) ->
  (last_page - page < fuel)%nat ->
  is_Some (paginate request format fuel page out).
Proof.
  intros page out fuel. revert page out.
  induction fuel as [|fuel IH]; intros page out Hle Hend Hfuel; [lia|].
  cbn [paginate]. destruct (request page) as [[|x data]|e] eqn:Hpage; eauto.
  destruct (decide (page = last_page)) as [->|Hne].
  - destruct Hend as [Hend|[e Hend]]; congruence.
  - apply IH; [lia|done|lia].
Qed.

End PaginateFacts.


(* --------------------------------------------------------------------- *)
(** ** Comment reconciliation *)
(* --------------------------------------------------------------------- *)








Section CommentFacts.

Variable line_pages : nat -> Result (list RawComment.t).
Variable issue_pages : nat -> Result (list RawComment.t).
Variable review_pages : nat -> Result (list RawReview.t).



End CommentFacts.



(* --------------------------------------------------------------------- *)
(** ** Pull-request listing: the early stop *)
(* --------------------------------------------------------------------- *)

Section AllPullRequestsFacts.

Variable pulls_page : nat -> Result (list RawPullRequest.t).
Variable since : Z.

Abbreviation window := (in_window since).
Abbreviation loop := (fetchAllPullRequests_loop pulls_page since).

(** The loop walks through the pages that do not end before the cutoff and
    stops on the first one that does. *)
Lemma fetchAllPullRequests_loop_stop before hit :
  forall page pagePromises requested fuel,
  (forall i data, (before ++ [hit]) !! i = Some data ->
                  pulls_page (page + i) = Ok data) ->
  Forall (fun data => data <> [] /\ ~ ends_before_cutoff since data) before ->
  ends_before_cutoff since hit ->
  (length before < fuel)%nat ->
  loop fuel page pagePromises requested
  = Some (List.filter window hit, pagePromises ++ before,
          requested ++ seq page (S (length before))).
Proof.
  induction before as [|data before IH];
    intros page pagePromises requested fuel Hpages Hgo (lastPR & Hlast & Hold) Hfuel;
    (destruct fuel as [|fuel]; [cbn in Hfuel; lia|]); cbn [fetchAllPullRequests_loop].
  - rewrite <- (Nat.add_0_r page) at 1. rewrite (Hpages 0%nat hit eq_refl), Hlast.
    destruct (Z.ltb_spec (RawPullRequest.created_at lastPR) since); [|lia].
    by rewrite app_nil_r.
  - rewrite <- (Nat.add_0_r page) at 1. rewrite (Hpages 0%nat data eq_refl).
    apply Forall_cons in Hgo as [[Hne Hnew] Hgo].
    destruct (last data) as [l|] eqn:Hl; [|by apply last_None in Hl].
    destruct (Z.ltb_spec (RawPullRequest.created_at l) since) as [Hlt|Hge].
    { destruct Hnew. by exists l. }
    rewrite (IH (S page) (pagePromises ++ [data]) (requested ++ [page]) fuel).
    + cbn [length seq]. by rewrite <- !app_assoc.
    + intros i d Hd. rewrite Nat.add_succ_l, <- Nat.add_succ_r. by apply Hpages.
    + done.
    + by exists lastPR.
    + cbn in Hfuel. lia.
Qed.

(** Among non-empty pages one of which ends before the cutoff, there is a
    first one that does. *)
Lemma first_page_before_cutoff (pages : list (list RawPullRequest.t)) :
  Forall (fun data => data <> []) pages ->
  Exists (ends_before_cutoff since) pages ->
  exists before hit after,
    pages = before ++ hit :: after
    /\ Forall (fun data => data <> [] /\ ~ ends_before_cutoff since data) before
    /\ ends_before_cutoff since hit.
Proof.
  induction pages as [|data pages IH]; intros Hne Hex; [by inversion Hex|].
  apply Forall_cons in Hne as [Hdata Hne].
  destruct (last data) as [l|] eqn:Hl; [|by apply last_None in Hl].
  destruct (Z.ltb_spec (RawPullRequest.created_at l) since) as [Hlt|Hge].
  - exists [], data, pages. repeat split; [constructor|]. by exists l.
  - assert (Hnot : ~ ends_before_cutoff since data).
    { intros (l' & Hl' & Hold). rewrite Hl in Hl'. injection Hl' as <-. lia. }
    apply Exists_cons in Hex as [Hex|Hex]; [done|].
    destruct (IH Hne Hex) as (before & hit & after & -> & Hbefore & Hhit).
    exists (data :: before), hit, after. repeat split; [|done].
    by constructor.
Qed.

Lemma newest_first_page pages data :
  newest_first (concat pages) -> In data pages -> newest_first data.
Proof.
  intros Hsorted (p1 & p2 & ->)%in_split.
  rewrite concat_app, concat_cons in Hsorted.
  apply StronglySorted_app_1_r, StronglySorted_app_1_l in Hsorted. exact Hsorted.
Qed.

Lemma newest_first_last data lastPR x :
  newest_first data -> last data = Some lastPR -> In x data ->
  RawPullRequest.created_at lastPR <= RawPullRequest.created_at x.
Proof.
  intros Hsorted (d & ->)%last_Some [Hx|[<-|[]]]%in_app_iff; [|lia].
  apply (StronglySorted_app_1_elem_of _ _ _ x lastPR) in Hsorted;
    [done|by apply list_elem_of_In|by left].
Qed.

Lemma filter_keeps_all {A : Type} (f : A -> bool) l :
  (forall x, In x l -> f x = true) -> List.filter f l = l.
Proof.
  induction l as [|x l IH]; intros Hall; [reflexivity|]. cbn.
  rewrite (Hall x) by (by left). rewrite IH; [done|]. intros y Hy. apply Hall. by right.
Qed.

Lemma filter_keeps_none {A : Type} (f : A -> bool) l :
  (forall x, In x l -> f x = false) -> List.filter f l = [].
Proof.
  induction l as [|x l IH]; intros Hnone; [reflexivity|]. cbn.
  rewrite (Hnone x) by (by left). apply IH. intros y Hy. apply Hnone. by right.
Qed.

Lemma flat_map_filter_keeps_all {A : Type} (f : A -> bool) (pages : list (list A)) :
  (forall x, In x (concat pages) -> f x = true) ->
  flat_map (List.filter f) pages = concat pages.
Proof.
  induction pages as [|d pages IH]; intros Hall; [reflexivity|]. cbn.
  rewrite filter_keeps_all, IH; [done| |].
  - intros x Hx. apply Hall. cbn. apply in_app_iff. by right.
  - intros x Hx. apply Hall. cbn. apply in_app_iff. by left.
Qed.

(** C6. The pages [earlier ++ [stop_page]] are what the listing answers
    for pages 1, 2, ...; they are not empty, are sorted newest first, and
    the last item of [stop_page] was created before the cutoff.  Then the
    paginator stops on the first page [hit] that ends before the cutoff,
    which is [stop_page] or a page before it: it requests the pages up to
    [hit] and none after, and returns the items of [hit] created at or after
    the cutoff followed by all the items of the pages before [hit].  That
    is, up to their order, exactly the items of the given pages created at
    or after the cutoff; when the stop came before [stop_page], none of the
    items of [stop_page] is at or after the cutoff. *)
Theorem C6_pagination_early_stop fuel earlier stop_page :
  let pages := earlier ++ [stop_page] in
  (forall i data, pages !! i = Some data -> pulls_page (S i) = Ok data) ->
  Forall (fun data => data <> []) pages ->
  newest_first (concat pages) ->
  ends_before_cutoff since stop_page ->
  (length pages <= fuel)%nat ->
  exists before hit after,
    pages = before ++ hit :: after
    /\ fetchAllPullRequests pulls_page since fuel
       = Some (List.filter window hit ++ concat before,
               seq 1 (S (length before)))
    /\ ((after = [] /\ hit = stop_page)
        \/ (In stop_page after /\ List.filter window stop_page = []))
    /\ Forall (fun page => (page <= length pages)%nat) (seq 1 (S (length before)))
    /\ Permutation (List.filter window hit ++ concat before)
         (List.filter window (concat pages)).
Proof.
  intros pages Hpages Hne Hsorted Hstop Hfuel.
  destruct (first_page_before_cutoff pages Hne) as
    (before & hit & after & Hsplit & Hbefore & Hhit).
  { apply Exists_exists. exists stop_page. split; [|done].
    apply list_elem_of_In, in_app_iff. right. by left. }
  assert (Hin_before : forall x, In x (concat before) -> window x = true).
  { intros x (d & Hd & Hx)%in_concat.
    rewrite List.Forall_forall in Hbefore.
    destruct (Hbefore d Hd) as [Hd_ne Hd_new].
    destruct (last d) as [l|] eqn:Hl; [|by apply last_None in Hl].
    assert (newest_first d) as Hd_sorted.
    { apply (newest_first_page pages); [done|]. rewrite Hsplit.
      apply in_app_iff. by left. }
    pose proof (newest_first_last d l x Hd_sorted Hl Hx).
    unfold in_window. apply Z.leb_le.
    destruct (Z.lt_ge_cases (RawPullRequest.created_at l) since); [|lia].
    destruct Hd_new. by exists l. }
  assert (Hin_after : forall x, In x (concat after) -> window x = false).
  { intros x Hx. destruct Hhit as (l & Hl & Hold).
    unfold newest_first in Hsorted.
    rewrite Hsplit, concat_app, concat_cons in Hsorted.
    apply StronglySorted_app_1_r in Hsorted.
    apply (StronglySorted_app_1_elem_of _ _ _ l x) in Hsorted.
    - cbv beta in Hsorted. unfold in_window. apply Z.leb_gt. lia.
    - by apply last_Some_elem_of.
    - by apply list_elem_of_In. }
  exists before, hit, after. split; [exact Hsplit|].
  assert (Hlen : (length pages = length before + S (length after))%nat).
  { rewrite Hsplit, length_app. reflexivity. }
  split.
  { unfold fetchAllPullRequests.
    rewrite (fetchAllPullRequests_loop_stop before hit); [| |done|done|lia].
    - cbn [app]. by rewrite flat_map_filter_keeps_all.
    - intros i data Hi. apply Hpages. rewrite Hsplit.
      change (hit :: after) with ([hit] ++ after). rewrite app_assoc.
      by apply lookup_app_l_Some. }
  split.
  { destruct after as [|z after _] using rev_ind.
    - left. split; [done|]. unfold pages in Hsplit.
      by apply app_inj_tail in Hsplit as [_ ->].
    - right. unfold pages in Hsplit.
      rewrite app_comm_cons, app_assoc in Hsplit.
      apply app_inj_tail in Hsplit as [_ ->].
      split; [apply in_app_iff; right; by left|].
      apply filter_keeps_none. intros x Hx. apply Hin_after.
      rewrite concat_app. apply in_app_iff. right. cbn. by rewrite app_nil_r. }
  split.
  { apply List.Forall_forall. intros page [_ Hpage]%in_seq. lia. }
  rewrite Hsplit, concat_app, concat_cons, !List.filter_app.
  rewrite (filter_keeps_all _ (concat before)) by done.
  rewrite (filter_keeps_none _ (concat after)) by done.
  rewrite app_nil_r. apply Permutation_app_comm.
Qed.

End AllPullRequestsFacts.

(** C6 on a concrete run: two pages, the cutoff falls inside the second. *)
Lemma C6_pagination_early_stop_witness :
  let earlier := [[sample_pr 4 30; sample_pr 3 20]] in
  let stop_page := [sample_pr 2 15; sample_pr 1 5] in
  let pages := earlier ++ [stop_page] in
  (forall i data, pages !! i = Some data -> two_pages_listing (S i) = Ok data)
  /\ Forall (fun data => data <> []) pages
  /\ newest_first (concat pages)
  /\ ends_before_cutoff 10 stop_page
  /\ (length pages <= 2)%nat
  /\ exists before hit after,
       pages = before ++ hit :: after
       /\ fetchAllPullRequests two_pages_listing 10 2
          = Some (List.filter (in_window 10) hit ++ concat before,
                  seq 1 (S (length before)))
       /\ ((after = [] /\ hit = stop_page)
           \/ (In stop_page after /\ List.filter (in_window 10) stop_page = []))
       /\ Forall (fun page => (page <= length pages)%nat) (seq 1 (S (length before)))
       /\ Permutation (List.filter (in_window 10) hit ++ concat before)
            (List.filter (in_window 10) (concat pages)).
Proof.
  cbv zeta.
  assert (H1 : forall i data,
            ([[sample_pr 4 30; sample_pr 3 20]] ++ [[sample_pr 2 15; sample_pr 1 5]])
              !! i = Some data -> two_pages_listing (S i) = Ok data).
  { intros [|[|i]] data; cbn; intros [= <-]; reflexivity. }
  assert (H2 : Forall (fun data : list RawPullRequest.t => data <> [])
            ([[sample_pr 4 30; sample_pr 3 20]] ++ [[sample_pr 2 15; sample_pr 1 5]])).
  { repeat constructor; discriminate. }
  assert (H3 : newest_first
            (concat ([[sample_pr 4 30; sample_pr 3 20]]
                     ++ [[sample_pr 2 15; sample_pr 1 5]]))).
  { repeat constructor; cbn; lia. }
  assert (H4 : ends_before_cutoff 10 [sample_pr 2 15; sample_pr 1 5]).
  { exists (sample_pr 1 5). split; [reflexivity|cbn; lia]. }
  assert (H5 : (length ([[sample_pr 4 30; sample_pr 3 20]]
                        ++ [[sample_pr 2 15; sample_pr 1 5]]) <= 2)%nat).
  { cbn. lia. }
  split; [exact H1|]. split; [exact H2|]. split; [exact H3|]. split; [exact H4|].
  split; [exact H5|].
  exact (C6_pagination_early_stop two_pages_listing 10 2
           [[sample_pr 4 30; sample_pr 3 20]] [sample_pr 2 15; sample_pr 1 5]
           H1 H2 H3 H4 H5).
Defined.

(** The list of that run: the items of the page that made the loop stop
    come first. *)
Example fetchAllPullRequests_two_pages :
  fetchAllPullRequests two_pages_listing 10 2
  = Some ([sample_pr 2 15; sample_pr 4 30; sample_pr 3 20], [1; 2]%nat).
Proof. reflexivity. Qed.

(* --------------------------------------------------------------------- *)
(** ** Commits of a pull request *)
(* --------------------------------------------------------------------- *)

Section CommitFacts.

Variable commit_pages : nat -> Result (list RawCommit.t).
Variable commit_detail : string -> Result (option RawStats.t).

Lemma fetchPullRequestCommits_result fuel raw :
  fetched commit_pages fuel = Some raw ->
  fetchPullRequestCommits commit_pages commit_detail fuel
  = Some (flat_map (fetch_commit_stats commit_detail) raw).
Proof.
  unfold fetched, fetchPullRequestCommits. intros Hraw.
  rewrite (paginate_format _ (flat_map (fetch_commit_stats commit_detail))
             (@flat_map_app _ _ _) eq_refl), Hraw.
  reflexivity.
Qed.

(** Every commit returned went through a successful statistics call. *)
Lemma fetch_commit_stats_In raw c :
  In c (flat_map (fetch_commit_stats commit_detail) raw) ->
  exists apiCommit detailed_stats,
    In apiCommit raw
    /\ commit_detail (RawCommit.sha apiCommit) = Ok detailed_stats
    /\ c = format_commit apiCommit detailed_stats.
Proof.
  rewrite in_flat_map. intros (apiCommit & Hin & Hc). unfold fetch_commit_stats in Hc.
  destruct (commit_detail (RawCommit.sha apiCommit)) as [st|e] eqn:Hd; [|done].
  destruct Hc as [<-|[]]. eauto.
Qed.

(** C2, what the code does.  A commit whose statistics call throws does
    not fail the listing, but it is left out of it: no commit of the list
    returned carries its sha. *)
Theorem C2_commit_dropped_on_stats_failure fuel raw apiCommit e :
  fetched commit_pages fuel = Some raw ->
  In apiCommit raw ->
  commit_detail (RawCommit.sha apiCommit) = Throw e ->
  exists commits,
    fetchPullRequestCommits commit_pages commit_detail fuel = Some commits
    /\ forall c, In c commits -> Commit.sha c <> RawCommit.sha apiCommit.
Proof.
  intros Hraw Hin Hthrow. eexists. split; [by apply fetchPullRequestCommits_result|].
  intros c (a & st & Ha & Hok & ->)%fetch_commit_stats_In Hsha.
  cbn in Hsha. rewrite Hsha in Hok. congruence.
Qed.

End CommitFacts.

(** C2 on the failing input: a pull request of one commit whose statistics
    call throws.  The list returned is empty. *)
Lemma C2_commit_dropped_on_stats_failure_witness :
  fetched (one_page [sample_commit "9fceb02"]) 2 = Some [sample_commit "9fceb02"]
  /\ In (sample_commit "9fceb02") [sample_commit "9fceb02"]
  /\ stats_fail_for_9fceb02 "9fceb02" = Throw server_error
  /\ fetchPullRequestCommits (one_page [sample_commit "9fceb02"])
       stats_fail_for_9fceb02 2 = Some []
  /\ exists commits,
       fetchPullRequestCommits (one_page [sample_commit "9fceb02"])
         stats_fail_for_9fceb02 2 = Some commits
       /\ forall c, In c commits -> Commit.sha c <> "9fceb02".
Proof.
  split; [reflexivity|]. split; [by left|]. split; [reflexivity|].
  split; [reflexivity|].
  exact (C2_commit_dropped_on_stats_failure (one_page [sample_commit "9fceb02"])
           stats_fail_for_9fceb02 2 [sample_commit "9fceb02"]
           (sample_commit "9fceb02") server_error eq_refl (or_introl eq_refl) eq_refl).
Defined.

(** The pipelines without cache drop the commit in the same way. *)
Example fetchPullRequestCommits_direct_drops :
  fetchPullRequestCommits_direct
    (one_page [sample_commit "9fceb02"; sample_commit "1a2b3c4"])
    stats_fail_for_9fceb02 2
  = Some (Ok [format_commit (sample_commit "1a2b3c4")
                (Some {| RawStats.additions := Some 3; RawStats.deletions := None;
                         RawStats.total := Some 3 |})]).
Proof. reflexivity. Qed.

(* --------------------------------------------------------------------- *)
(** ** Batch scheduler *)
(* --------------------------------------------------------------------- *)

Section PromiseFacts.

Context {R : Type}.

Lemma settle_fulfilled (vs : list R) : forall order values,
  length values = length vs ->
  exists values',
    settle (map Ok vs) order values = Ok values'
    /\ length values' = length vs
    /\ forall j v, vs !! j = Some v ->
         values' !! j = if decide (j ∈ order) then Some (Some v) else values !! j.
Proof.
  induction order as [|i order IH]; intros values Hlen; cbn [settle].
  - exists values. split; [done|]. split; [done|]. intros j v Hj.
    destruct (decide (j ∈ [])) as [Hin|_]; [by apply not_elem_of_nil in Hin|done].
  - change (map Ok vs) with (Ok <$> vs). rewrite list_lookup_fmap.
    destruct (vs !! i) as [w|] eqn:Hi; cbn.
    + destruct (IH (<[i := Some w]> values)) as (values' & Hrun & Hlen' & Hval).
      { by rewrite length_insert. }
      exists values'. split; [done|]. split; [done|]. intros j v Hj.
      rewrite (Hval j v Hj).
      destruct (decide (j ∈ order)) as [Hin|Hnin].
      * rewrite decide_True; [done|by right].
      * destruct (decide (j = i)) as [->|Hne].
        -- rewrite decide_True by (by left).
           rewrite list_lookup_insert_eq; [congruence|].
           rewrite Hlen. by eapply lookup_lt_Some.
        -- rewrite decide_False by (intros [?|?]%elem_of_cons; done).
           by rewrite list_lookup_insert_ne.
    + destruct (IH values Hlen) as (values' & Hrun & Hlen' & Hval).
      exists values'. split; [done|]. split; [done|]. intros j v Hj.
      rewrite (Hval j v Hj).
      destruct (decide (j ∈ order)) as [Hin|Hnin].
      * rewrite decide_True; [done|by right].
      * rewrite decide_False; [done|].
        intros [->|?]%elem_of_cons; [congruence|done].
Qed.

Lemma all_fulfilled_Some (vs : list R) : all_fulfilled (map Some vs) = Some vs.
Proof. induction vs as [|v vs IH]; [reflexivity|]. cbn. by rewrite IH. Qed.

(** When every promise is fulfilled, [Promise.all] gives the values in the
    order of the promises, whatever the order in which they settled. *)
Lemma Promise_all_fulfilled (vs : list R) order :
  Permutation order (seq 0 (length vs)) ->
  Promise_all (map Ok vs) order = Some (Ok vs).
Proof.
  intros Hperm. unfold Promise_all.
  destruct (settle_fulfilled vs order (replicate (length (map Ok vs)) None))
    as (values' & -> & Hlen & Hval).
  { by rewrite length_replicate, length_map. }
  assert (values' = map Some vs) as ->; [|by rewrite all_fulfilled_Some].
  apply list_eq. intros j. change (map Some vs) with (Some <$> vs).
  rewrite list_lookup_fmap.
  destruct (vs !! j) as [v|] eqn:Hj; cbn.
  - rewrite (Hval j v Hj). rewrite decide_True; [done|].
    apply list_elem_of_In. apply (Permutation_in _ (Permutation_sym Hperm)).
    apply in_seq. apply lookup_lt_Some in Hj. lia.
  - apply lookup_ge_None. rewrite Hlen. by apply lookup_ge_None.
Qed.

Lemma settle_rejected (outcomes : list (Result R)) : forall order values,
  (exists j e, j ∈ order /\ outcomes !! j = Some (Throw e)) ->
  exists e, settle outcomes order values = Throw e /\ In (Throw e) outcomes.
Proof.
  induction order as [|i order IH]; intros values (j & e & Hj & He); cbn [settle].
  - by apply not_elem_of_nil in Hj.
  - destruct (outcomes !! i) as [[v|e']|] eqn:Hi.
    + apply IH. exists j, e. split; [|done].
      apply elem_of_cons in Hj as [->|Hj]; [congruence|done].
    + exists e'. split; [done|]. apply list_elem_of_In. by eapply list_elem_of_lookup_2.
    + apply IH. exists j, e. split; [|done].
      apply elem_of_cons in Hj as [->|Hj]; [congruence|done].
Qed.

(** When some promise is rejected, so is [Promise.all], with the error of
    one of the rejected promises. *)
Lemma Promise_all_rejected (outcomes : list (Result R)) order e0 :
  Permutation order (seq 0 (length outcomes)) ->
  In (Throw e0) outcomes ->
  exists e, Promise_all outcomes order = Some (Throw e) /\ In (Throw e) outcomes.
Proof.
  intros Hperm Hin. unfold Promise_all.
  apply list_elem_of_In, list_elem_of_lookup in Hin as [j Hj].
  destruct (settle_rejected outcomes order (replicate (length outcomes) None))
    as (e & -> & He); [|by exists e].
  exists j, e0. split; [|done].
  apply list_elem_of_In. apply (Permutation_in _ (Permutation_sym Hperm)).
  apply in_seq. apply lookup_lt_Some in Hj. lia.
Qed.

End PromiseFacts.

Lemma consecutive_chunks_nil {T : Type} (n : nat) : consecutive_chunks n (@nil T) [].
Proof. split; [done|]. split; [constructor|]. intros k batch Hk. cbn in Hk. lia. Qed.

Lemma consecutive_chunks_cons {T : Type} (n : nat) (batch rest : list T) bs :
  (0 < length batch <= n)%nat ->
  (bs <> [] -> length batch = n) ->
  consecutive_chunks n rest bs ->
  consecutive_chunks n (batch ++ rest) (batch :: bs).
Proof.
  intros Hsize Hfull (Hconcat & Hsizes & Hbut_last).
  split; [cbn; by rewrite Hconcat|]. split; [by constructor|].
  intros [|k] b Hk Hb; cbn in Hk, Hb.
  - injection Hb as <-. apply Hfull. destruct bs; [cbn in Hk; lia|done].
  - apply (Hbut_last k); [lia|done].
Qed.

Lemma In_take {A : Type} (n : nat) (l : list A) x : In x (take n l) -> In x l.
Proof.
  intros Hx. rewrite <- (take_drop n l). apply in_app_iff. by left.
Qed.

Lemma In_drop {A : Type} (n : nat) (l : list A) x : In x (drop n l) -> In x l.
Proof.
  intros Hx. rewrite <- (take_drop n l). apply in_app_iff. by right.
Qed.

Section BatchFacts.

Context {T R : Type}.
Variable items : list T.
Variable batchSize : nat.
Variable processFunction : T -> Result R.
Variable completion_order : nat -> list nat.

Hypothesis batchSize_positive : (0 < batchSize)%nat.
Hypothesis every_promise_settles : forall i,
  Permutation (completion_order i)
    (seq 0 (length (take batchSize (drop i items)))).

Abbreviation batch_loop :=
  (processInBatches_loop items batchSize processFunction completion_order).

Abbreviation fulfilled := (worker_fulfilled processFunction).
Abbreviation rejected := (worker_rejected processFunction).

Lemma fulfilled_results (l : list T) :
  (forall x, In x l -> fulfilled x) ->
  exists rs, map processFunction l = map Ok rs.
Proof.
  induction l as [|x l IH]; intros Hall; [by exists []|].
  destruct (Hall x (or_introl eq_refl)) as [r Hr].
  destruct IH as [rs Hrs]; [intros y Hy; apply Hall; by right|].
  exists (r :: rs). cbn. by rewrite Hr, Hrs.
Qed.

Lemma fulfilled_or_rejected (l : list T) :
  (forall x, In x l -> fulfilled x) \/ (exists x, In x l /\ rejected x).
Proof.
  induction l as [|x l [IH|(y & Hy & Hrej)]].
  - left. by intros x [].
  - destruct (processFunction x) as [r|e] eqn:Hx.
    + left. intros y [<-|Hy]; [by exists r|by apply IH].
    + right. exists x. split; [by left|by exists e].
  - right. exists y. split; [by right|done].
Qed.

Lemma batch_size i :
  (i < length items)%nat ->
  (0 < length (take batchSize (drop i items)) <= batchSize)%nat.
Proof. intros Hi. rewrite length_take, length_drop. lia. Qed.

Lemma batch_full i :
  drop (i + batchSize) items <> [] ->
  length (take batchSize (drop i items)) = batchSize.
Proof.
  intros Hmore. rewrite length_take, length_drop.
  assert (length (drop (i + batchSize) items) <> 0)%nat as Hlen
    by (by destruct (drop (i + batchSize) items)).
  rewrite length_drop in Hlen. lia.
Qed.

(** The loop when every worker succeeds. *)
Lemma processInBatches_loop_fulfilled fuel : forall i results batches,
  (forall x, In x (drop i items) -> fulfilled x) ->
  (length items - i < fuel)%nat ->
  exists rs bs,
    batch_loop fuel i results batches = Some (Ok (results ++ rs), batches ++ bs)
    /\ map Ok rs = map processFunction (drop i items)
    /\ consecutive_chunks batchSize (drop i items) bs.
Proof.
  induction fuel as [|fuel IH]; intros i results batches Hall Hfuel; [lia|].
  cbn [processInBatches_loop].
  destruct (Nat.ltb_spec i (length items)) as [Hi|Hi].
  - set (batch := take batchSize (drop i items)).
    destruct (fulfilled_results batch) as [brs Hbrs].
    { intros x Hx. apply Hall. by apply In_take in Hx. }
    rewrite Hbrs, Promise_all_fulfilled.
    2:{ replace (length brs) with (length batch); [apply every_promise_settles|].
        by rewrite <- (length_map processFunction), Hbrs, length_map. }
    destruct (IH (i + batchSize)%nat (results ++ brs) (batches ++ [batch]))
      as (rs & bs & Hrun & Hrs & Hchunks).
    { intros x Hx. apply Hall. rewrite <- drop_drop in Hx.
      by apply In_drop in Hx. }
    { lia. }
    exists (brs ++ rs), (batch :: bs). rewrite Hrun, <- !app_assoc.
    split; [done|]. split.
    + rewrite map_app, Hrs, <- Hbrs, <- map_app. unfold batch.
      by rewrite <- drop_drop, take_drop.
    + rewrite <- (take_drop batchSize (drop i items)). rewrite drop_drop.
      apply consecutive_chunks_cons; [by apply batch_size| |done].
      intros Hbs. apply batch_full. destruct Hchunks as (Hconcat & Hsizes & _).
      rewrite <- Hconcat. destruct bs as [|b bs]; [done|].
      apply Forall_cons in Hsizes as [Hb _]. cbn. destruct b; [cbn in Hb; lia|done].
  - exists [], []. rewrite !app_nil_r. rewrite drop_ge by lia.
    split; [done|]. split; [done|]. apply consecutive_chunks_nil.
Qed.

(** The loop when some worker fails. *)
Lemma processInBatches_loop_rejected fuel : forall i results batches,
  (exists x, In x (drop i items) /\ rejected x) ->
  (length items - i < fuel)%nat ->
  exists e bs processed rest,
    batch_loop fuel i results batches = Some (Throw e, batches ++ bs)
    /\ (exists x, In x items /\ processFunction x = Throw e)
    /\ drop i items = processed ++ rest
    /\ consecutive_chunks batchSize processed bs.
Proof.
  induction fuel as [|fuel IH]; intros i results batches Hrej Hfuel; [lia|].
  cbn [processInBatches_loop].
  destruct (Nat.ltb_spec i (length items)) as [Hi|Hi].
  2:{ destruct Hrej as (x & Hx & _). rewrite drop_ge in Hx by lia. done. }
  set (batch := take batchSize (drop i items)).
  assert (Hsub : forall x, In x batch -> In x items).
  { intros x Hx. by apply In_take, In_drop in Hx. }
  destruct (fulfilled_or_rejected batch) as [Hall|(y & Hy & e0 & He0)].
  - destruct (fulfilled_results batch Hall) as [brs Hbrs].
    rewrite Hbrs, Promise_all_fulfilled.
    2:{ replace (length brs) with (length batch); [apply every_promise_settles|].
        by rewrite <- (length_map processFunction), Hbrs, length_map. }
    assert (Hrest : exists x, In x (drop (i + batchSize) items) /\ rejected x).
    { destruct Hrej as (x & Hx & Hxrej). exists x. split; [|done].
      rewrite <- (take_drop batchSize (drop i items)) in Hx.
      apply in_app_iff in Hx as [Hx|Hx]; [|by rewrite <- drop_drop].
      destruct (Hall x Hx) as [r Hr], Hxrej as [e He]. congruence. }
    destruct (IH (i + batchSize)%nat (results ++ brs) (batches ++ [batch]) Hrest)
      as (e & bs & processed & rest & Hrun & Hwho & Hsplit & Hchunks); [lia|].
    exists e, (batch :: bs), (batch ++ processed), rest.
    rewrite Hrun, <- !app_assoc. split; [done|]. split; [done|]. split.
    + rewrite <- Hsplit, <- drop_drop. unfold batch. by rewrite take_drop.
    + apply consecutive_chunks_cons; [by apply batch_size| |done].
      intros _. apply batch_full. destruct Hrest as (x & Hx & _).
      by destruct (drop (i + batchSize) items).
  - destruct (Promise_all_rejected (map processFunction batch) (completion_order i) e0)
      as (e & -> & He).
    { rewrite length_map. apply every_promise_settles. }
    { apply in_map_iff. by exists y. }
    apply in_map_iff in He as (x & Hx & Hxin).
    exists e, [batch], batch, (drop batchSize (drop i items)).
    split; [done|]. split; [exists x; split; [by apply Hsub|done]|].
    split; [unfold batch; by rewrite take_drop|].
    rewrite <- (app_nil_r batch) at 1.
    apply consecutive_chunks_cons; [by apply batch_size|done|].
    apply consecutive_chunks_nil.
Qed.

End BatchFacts.

(** C7. For a positive concurrency limit and promises that all settle, in
    any order.  When every worker succeeds, the scheduler returns one
    result per input, the i-th being the worker's result for the i-th
    input, after cutting the inputs into consecutive chunks of the size of
    the limit (the last one may be shorter).  When some worker fails, the
    whole run fails with the error of a failed worker, after the chunks
    that precede the failure and the chunk it is in; no result is
    returned. *)
Theorem C7_batch_scheduler {T R : Type} (items : list T) (batchSize : nat)
    (processFunction : T -> Result R) (completion_order : nat -> list nat) :
  (0 < batchSize)%nat ->
  (forall i, Permutation (completion_order i)
               (seq 0 (length (take batchSize (drop i items))))) ->
  ((forall x, In x items -> worker_fulfilled processFunction x) ->
   exists results batches,
     processInBatches items batchSize processFunction completion_order
     = Some (Ok results, batches)
     /\ consecutive_chunks batchSize items batches
     /\ length results = length items
     /\ forall i x, items !! i = Some x ->
          exists r, results !! i = Some r /\ processFunction x = Ok r)
  /\ ((exists x, In x items /\ worker_rejected processFunction x) ->
      exists e batches processed rest,
        processInBatches items batchSize processFunction completion_order
        = Some (Throw e, batches)
        /\ (exists x, In x items /\ processFunction x = Throw e)
        /\ items = processed ++ rest
        /\ consecutive_chunks batchSize processed batches).
Proof.
  intros Hsize Horder. split.
  - intros Hall.
    destruct (processInBatches_loop_fulfilled items batchSize processFunction
                completion_order Hsize Horder (S (length items)) 0%nat [] [])
      as (rs & bs & Hrun & Hrs & Hchunks); [done|lia|].
    exists rs, bs. split; [exact Hrun|]. split; [exact Hchunks|].
    cbn [drop] in Hrs. split.
    + by rewrite <- (length_map Ok), Hrs, length_map.
    + intros i x Hx.
      assert (Hi : (map Ok rs) !! i = (map processFunction items) !! i) by by rewrite Hrs.
      change (map Ok rs) with (Ok <$> rs) in Hi.
      change (map processFunction items) with (processFunction <$> items) in Hi.
      rewrite !list_lookup_fmap, Hx in Hi.
      destruct (rs !! i) as [r|]; [|done]. cbn in Hi. exists r. split; congruence.
  - intros Hrej.
    destruct (processInBatches_loop_rejected items batchSize processFunction
                completion_order Hsize Horder (S (length items)) 0%nat [] [])
      as (e & bs & processed & rest & Hrun & Hwho & Hsplit & Hchunks); [done|lia|].
    exists e, bs, processed, rest. done.
Qed.

(** With a limit of 0 the index never moves: over a non-empty list the loop
    has no end. *)
Lemma processInBatches_loop_zero {T R : Type} (items : list T)
    (processFunction : T -> Result R) (completion_order : nat -> list nat) fuel :
  forall i results batches,
  (i < length items)%nat ->
  processInBatches_loop items 0 processFunction completion_order fuel i results batches
  = None.
Proof.
  assert (Hall : forall order values,
    settle (@nil (Result R)) order values = Ok values).
  { induction order as [|j order IH]; intros values; [done|]. cbn. apply IH. }
  induction fuel as [|fuel IH]; intros i results batches Hi; [done|].
  cbn [processInBatches_loop]. destruct (Nat.ltb_spec i (length items)); [|lia].
  rewrite take_0. unfold Promise_all. cbn [map length replicate].
  rewrite Hall. cbn. rewrite Nat.add_0_r. by apply IH.
Qed.

(** C7 on the inputs of the specification: five items, a limit of 2, and in
    every batch the last worker finishes first. *)
Lemma C7_batch_scheduler_witness :
  let items := ["a"; "b"; "c"; "d"; "e"] in
  let worker := fun x : string => Ok (String.append x "!") in
  (0 < 2)%nat
  /\ (forall i, Permutation (last_first items 2 i)
                  (seq 0 (length (take 2 (drop i items)))))
  /\ (forall x, In x items -> worker_fulfilled worker x)
  /\ exists results batches,
       processInBatches items 2 worker (last_first items 2) = Some (Ok results, batches)
       /\ consecutive_chunks 2 items batches
       /\ length results = length items
       /\ forall i x, items !! i = Some x ->
            exists r, results !! i = Some r /\ worker x = Ok r.
Proof.
  cbv zeta.
  assert (Horder : forall i,
    Permutation (last_first ["a"; "b"; "c"; "d"; "e"] 2 i)
      (seq 0 (length (take 2 (drop i ["a"; "b"; "c"; "d"; "e"]))))).
  { intros i. unfold last_first. symmetry. apply Permutation_rev. }
  assert (Hall : forall x, In x ["a"; "b"; "c"; "d"; "e"] ->
            worker_fulfilled (fun x : string => Ok (String.append x "!")) x).
  { intros x _. by eexists. }
  split; [lia|]. split; [exact Horder|]. split; [exact Hall|].
  exact (proj1 (C7_batch_scheduler ["a"; "b"; "c"; "d"; "e"] 2
                  (fun x : string => Ok (String.append x "!"))
                  (last_first ["a"; "b"; "c"; "d"; "e"] 2)
                  (Nat.lt_0_succ 1) Horder) Hall).
Defined.

Example processInBatches_five_by_two :
  processInBatches ["a"; "b"; "c"; "d"; "e"] 2
    (fun x : string => Ok (String.append x "!"))
    (last_first ["a"; "b"; "c"; "d"; "e"] 2)
  = Some (Ok ["a!"; "b!"; "c!"; "d!"; "e!"], [["a"; "b"]; ["c"; "d"]; ["e"]]).
Proof. reflexivity. Qed.

(** One failing worker: the results of the first batch are lost with the
    rest and the third batch is never started. *)
Example processInBatches_one_failure :
  processInBatches ["a"; "b"; "c"; "d"; "e"] 2
    (fun x : string =>
       if String.eqb x "d" then Throw server_error else Ok (String.append x "!"))
    (last_first ["a"; "b"; "c"; "d"; "e"] 2)
  = Some (Throw server_error, [["a"; "b"]; ["c"; "d"]]).
Proof. reflexivity. Qed.

(* --------------------------------------------------------------------- *)
(** ** Snapshot assembler *)
(* --------------------------------------------------------------------- *)

Section MainFacts.

Variable pull_requests_since : Repository.t -> list RawPullRequest.t.
Variable processPR : Repository.t -> RawPullRequest.t -> Result PullRequest.t.
Variable completion_order : Repository.t -> nat -> list nat.

Abbreviation process :=
  (process_repositories pull_requests_since processPR completion_order).
Abbreviation run_main := (main pull_requests_since processPR completion_order).

(** The loop never reads the repository tally. *)
Lemma process_repositories_tally n repositories : forall data,
  process repositories (with_total_repositories n data)
  = on_snapshot (with_total_repositories n) (process repositories data).
Proof.
  induction repositories as [|repo rest IH]; intros data; [reflexivity|].
  cbn [process_repositories].
  destruct (length (pull_requests_since repo) =? 0)%nat; [apply IH|].
  destruct (processInBatches _ _ _ _) as [[[detailedPRs|e] batches]|];
    [|reflexivity..].
  rewrite <- IH. reflexivity.
Qed.

Lemma process_repositories_keeps_tally repositories : forall data data',
  process repositories data = Some (Ok data') ->
  Summary.total_repositories (GitHubData.summary data')
  = Summary.total_repositories (GitHubData.summary data).
Proof.
  induction repositories as [|repo rest IH]; intros data data'; cbn [process_repositories].
  - by intros [= <-].
  - destruct (length (pull_requests_since repo) =? 0)%nat; [apply IH|].
    destruct (processInBatches _ _ _ _) as [[[detailedPRs|e] batches]|]; try done.
    intros Hrun. by rewrite (IH _ _ Hrun).
Qed.

(** A repository without pull requests in the window leaves no trace in
    the loop. *)
Lemma process_repositories_skip before repo after : forall data,
  pull_requests_since repo = [] ->
  process (before ++ repo :: after) data = process (before ++ after) data.
Proof.
  intros data Hempty. revert data.
  induction before as [|r before IH]; intros data; cbn [app process_repositories].
  - by rewrite Hempty.
  - destruct (length (pull_requests_since r) =? 0)%nat; [apply IH|].
    destruct (processInBatches _ _ _ _) as [[[detailedPRs|e] batches]|]; try done.
Qed.

(** An entry of the mapping was there before the loop or carries the name
    of a repository that has pull requests. *)
Lemma process_repositories_entries repositories : forall data data' name entry,
  process repositories data = Some (Ok data') ->
  GitHubData.repositories data' !! name = Some entry ->
  GitHubData.repositories data !! name = Some entry
  \/ exists repo, In repo repositories /\ Repository.name repo = name
                  /\ pull_requests_since repo <> [].
Proof.
  induction repositories as [|repo rest IH]; intros data data' name entry;
    cbn [process_repositories].
  - intros [= <-]. by left.
  - destruct (pull_requests_since repo) as [|pr prs] eqn:Hprs; cbn [length Nat.eqb].
    + intros Hrun Hentry.
      destruct (IH _ _ _ _ Hrun Hentry) as [?|(r & Hr & Hname & Hne)]; [by left|].
      right. exists r. split; [by right|done].
    + destruct (processInBatches _ _ _ _) as [[[detailedPRs|e] batches]|]; try done.
      intros Hrun Hentry.
      destruct (IH _ _ _ _ Hrun Hentry) as [Hold|(r & Hr & Hname & Hne)].
      * cbn in Hold. destruct (decide (Repository.name repo = name)) as [Heq|Hneq].
        -- right. exists repo. split; [by left|]. split; [done|]. by rewrite Hprs.
        -- left. by rewrite lookup_insert_ne in Hold.
      * right. exists r. split; [by right|done].
Qed.

(** C3, as amended.  A repository whose list of pull requests in the
    window is empty is skipped: the snapshot is the one the run would have
    produced without that repository, except for the repository tally,
    which counts it.  In particular the mapping holds no entry under its
    name unless another repository of that name has pull requests. *)
Theorem C3_empty_repository_skipped org generated_at before repo after data :
  pull_requests_since repo = [] ->
  run_main org generated_at (before ++ repo :: after) = Some (Ok data) ->
  exists data0,
    run_main org generated_at (before ++ after) = Some (Ok data0)
    /\ data = with_total_repositories
                (Summary.total_repositories (GitHubData.summary data0) + 1) data0
    /\ Summary.total_repositories (GitHubData.summary data)
       = array_length (before ++ repo :: after)
    /\ ((forall r, In r (before ++ after) -> Repository.name r <> Repository.name repo) ->
        GitHubData.repositories data !! Repository.name repo = None).
Proof.
  intros Hempty Hrun. unfold main in *.
  pose proof (process_repositories_keeps_tally _ _ _ Hrun) as Htally.
  rewrite process_repositories_skip in Hrun by done.
  change (initial_data org generated_at (before ++ repo :: after))
    with (with_total_repositories (array_length (before ++ repo :: after))
            (initial_data org generated_at (before ++ after))) in Hrun.
  rewrite process_repositories_tally in Hrun.
  destruct (process (before ++ after) (initial_data org generated_at (before ++ after)))
    as [[data0|e]|] eqn:Hrun0; cbn in Hrun; try done.
  injection Hrun as <-. exists data0. split; [done|].
  pose proof (process_repositories_keeps_tally _ _ _ Hrun0) as Htally0.
  cbn in Htally0. split.
  { f_equal. rewrite Htally0. unfold array_length. rewrite !length_app. cbn. lia. }
  split; [done|].
  intros Hnames. cbn.
  destruct (GitHubData.repositories data0 !! Repository.name repo) as [entry|] eqn:Hentry;
    [|done].
  destruct (process_repositories_entries _ _ _ _ _ Hrun0 Hentry)
    as [Hinit|(r & Hr & Hname & _)]; [done|].
  by destruct (Hnames r Hr).
Qed.

End MainFacts.

(** C3 fails on the mapping: in a run over the single repository
    [widgets], with no pull request in the window, the snapshot counts one
    repository and its mapping is empty. *)
Lemma C3_counterexample :
  exists data,
    main (fun _ => []) scenario_processPR scenario_order "acme" "2024-05-08T00:00:00Z"
      [widgets] = Some (Ok data)
    /\ Summary.total_repositories (GitHubData.summary data) = 1
    /\ GitHubData.repositories data !! "widgets" = None.
Proof. eexists. split; [reflexivity|]. split; reflexivity. Qed.

(** C3, as amended, on a concrete run: [gadgets] has no pull request. *)
Lemma C3_empty_repository_skipped_witness :
  scenario_pull_requests gadgets = []
  /\ exists data,
       main scenario_pull_requests scenario_processPR scenario_order
         "acme" "2024-05-08T00:00:00Z" ([widgets] ++ gadgets :: []) = Some (Ok data)
       /\ exists data0,
            main scenario_pull_requests scenario_processPR scenario_order
              "acme" "2024-05-08T00:00:00Z" ([widgets] ++ []) = Some (Ok data0)
            /\ data = with_total_repositories
                        (Summary.total_repositories (GitHubData.summary data0) + 1) data0
            /\ Summary.total_repositories (GitHubData.summary data)
               = array_length ([widgets] ++ gadgets :: [])
            /\ ((forall r, In r ([widgets] ++ []) ->
                   Repository.name r <> Repository.name gadgets) ->
                GitHubData.repositories data !! Repository.name gadgets = None).
Proof.
  split; [reflexivity|]. eexists. split; [reflexivity|].
  exact (C3_empty_repository_skipped scenario_pull_requests scenario_processPR
           scenario_order "acme" "2024-05-08T00:00:00Z" [widgets] gadgets [] _
           eq_refl eq_refl).
Defined.


Section SummaryFacts.

Variable pull_requests_since : Repository.t -> list RawPullRequest.t.
Variable processPR : Repository.t -> RawPullRequest.t -> Result PullRequest.t.
Variable completion_order : Repository.t -> nat -> list nat.

Abbreviation all_aggregated :=
  (aggregated pull_requests_since processPR completion_order).

(** The four pull-request counters after the loop: what they were before,
    plus the counts over the aggregated pull requests. *)
Lemma process_repositories_counters repositories : forall data data',
  process_repositories pull_requests_since processPR completion_order repositories data
  = Some (Ok data') ->
  let s := GitHubData.summary data in
  let s' := GitHubData.summary data' in
  let prs := all_aggregated repositories in
  Summary.total_pull_requests s' = Summary.total_pull_requests s + array_length prs
  /\ Summary.open_pull_requests s'
     = Summary.open_pull_requests s + array_length (List.filter state_is_open prs)
  /\ Summary.closed_pull_requests s'
     = Summary.closed_pull_requests s
       + array_length (List.filter state_is_closed_and_not_merged prs)
  /\ Summary.merged_pull_requests s'
     = Summary.merged_pull_requests s
       + array_length (List.filter merged_at_is_not_null prs).
Proof.
  unfold array_length.
  induction repositories as [|repo rest IH]; intros data data'; cbn [process_repositories].
  - intros [= <-]. cbn. lia.
  - unfold aggregated. cbn [flat_map]. fold (all_aggregated rest).
    destruct (pull_requests_since repo) as [|pr prs] eqn:Hprs; cbn [length Nat.eqb].
    + intros Hrun. cbn. by apply IH.
    + destruct (processInBatches _ _ _ _) as [[[detailedPRs|e] batches]|]; try done.
      intros Hrun. apply IH in Hrun. cbn in Hrun. cbn zeta.
      rewrite !List.filter_app, !length_app. unfold array_length in Hrun. lia.
Qed.


End SummaryFacts.


(** The summary of the scenario. *)
Example scenario_summary :
  GitHubData.summary <$>
    (main scenario_pull_requests scenario_processPR scenario_order
       "acme" "2024-05-08T00:00:00Z" [widgets] ≫= fun r =>
         match r with Ok data => Some data | Throw _ => None end)
  = Some {| Summary.total_repositories := 1;
            Summary.total_pull_requests := 2;
            Summary.open_pull_requests := 1;
            Summary.closed_pull_requests := 0;
            Summary.merged_pull_requests := 1;
            Summary.total_commits := 2;
            Summary.total_comments := 0;
            Summary.total_reviews := 2;
            Summary.total_review_requests := 0;
            Summary.total_additions := 20;
            Summary.total_deletions := 4;
            Summary.total_changed_files := 2 |}.
Proof. reflexivity. Qed.

(** The pipeline without cache merges the sources in the same way, takes a
    review whose body is white space for empty, and has no review comment
    at all when a page of the reviews fails. *)
Example fetchPullRequestComments_direct_sample :
  Comment.id <$>
    default []
      (fetchPullRequestComments_direct
         (one_page [sample_comment 7 "nit"]) (one_page [sample_comment 8 "thanks"])
         (one_page [sample_review 7 (Some "LGTM"); sample_review 9 (Some "  ")]) 2)
  = [7; 8; 7].
Proof. reflexivity. Qed.

Example fetchPullRequestComments_cached_sample :
  Comment.id <$>
    default []
      (fetchPullRequestComments
         (one_page [sample_comment 7 "nit"]) (one_page [sample_comment 8 "thanks"])
         (one_page [sample_review 7 (Some "LGTM"); sample_review 9 (Some "  ")]) 2)
  = [7; 8; 7; 9].
Proof. reflexivity. Qed.

Example fetchPullRequestComments_direct_reviews_fail :
  Comment.id <$>
    default []
      (fetchPullRequestComments_direct
         (one_page [sample_comment 7 "nit"]) (one_page [sample_comment 8 "thanks"])
         (fun _ => Throw server_error) 2)
  = [7; 8].
Proof. reflexivity. Qed.

(* --------------------------------------------------------------------- *)
(** ** Request client: footprint, bounds and recovery *)
(* --------------------------------------------------------------------- *)

Section ClientFootprint.

Variable JSON_parse : string -> option JsValue.
Variable JSON_stringify_indented : JsValue -> option string.
Variable octokit_request : World -> string -> JsValue -> Result JsValue.

Abbreviation request_rec :=
  (cachedRequest_rec JSON_parse JSON_stringify_indented octokit_request).
Abbreviation request :=
  (cachedRequest JSON_parse JSON_stringify_indented octokit_request).
Abbreviation route_of method url := (method ++ " " ++ url)%string.
Abbreviation miss := (cache_miss JSON_parse).
Abbreviation save := (saveCacheData JSON_stringify_indented).

Abbreviation live_footprint := (network_footprint JSON_stringify_indented).

Lemma cachedRequest_rec_live_footprint fuel :
  forall w method url params ttlDays retryCount w' r,
  miss w method url params ttlDays false ->
  request_rec fuel w method url params ttlDays retryCount false = Some (w', r) ->
  live_footprint w w' method url params retryCount r.
Proof.
  induction fuel as [|fuel IH]; intros w method url params ttlDays rc w' r Hmiss; [done|].
  destruct (octokit_request w (route_of method url) params) as [data|error] eqn:Hlive.
  { rewrite (cachedRequest_rec_live_ok _ _ _ _ _ _ _ _ _ _ _ Hmiss Hlive).
    intros [= <- <-]. exists []. unfold saveCacheData.
    destruct (JSON_stringify_indented data) as [txt|] eqn:Htxt; cbn;
      rewrite ?app_nil_r; repeat split; try done; lia. }
  rewrite (cachedRequest_rec_live_throw _ _ _ _ _ _ _ _ _ _ _ Hmiss Hlive). cbv zeta.
  set (w1 := record_call w (route_of method url) params).
  assert (Hstop : forall e, live_footprint w w1 method url params rc (Throw e)).
  { intros e. exists []. cbn. rewrite !app_nil_r. repeat split; try done; lia. }
  assert (Hretry : forall base, base = 30000 \/ base = 60000 ->
    (if (3 <=? rc)%nat
     then Some (w1, Throw (retries_exhausted_error method url error))
     else request_rec fuel (sleep w1 (2 ^ Z.of_nat rc * base)) method url params
            ttlDays (rc + 1) false) = Some (w', r) ->
    live_footprint w w' method url params rc r).
  { intros base Hbase. destruct (Nat.leb_spec 3 rc) as [Hrc|Hrc].
    - intros [= <- <-]. apply Hstop.
    - intros Hrun. apply IH in Hrun as (delays & Hcalls & Hwaits & Hclock & Hlen & Hdelays & Hfs).
      2:{ apply miss_after_wait; [|done]. assert (0 < 2 ^ Z.of_nat rc) by lia. lia. }
      cbn in Hcalls, Hwaits, Hclock, Hfs.
      exists (2 ^ Z.of_nat rc * base :: delays).
      rewrite <- app_assoc in Hcalls, Hwaits. cbn in Hcalls, Hwaits.
      rewrite Hcalls, Hwaits, Hfs. cbn. repeat split; try done; try lia.
      { rewrite Hclock. unfold total_delay. lia. }
      intros [|i] d; cbn.
      + intros [= <-]. rewrite Nat.add_0_r. lia.
      + intros Hd. apply Hdelays in Hd.
        by replace (rc + S i)%nat with (rc + 1 + i)%nat by lia. }
  destruct (classify error); [by apply Hretry; left|by apply Hretry; right|].
  intros [= <- <-]. apply Hstop.
Qed.

(** Either the call is settled by the cache alone and the world is left as
    it was, or it goes to the network. *)
Lemma cachedRequest_footprint w method url params ttlDays retryCount force w' r :
  request w method url params ttlDays retryCount force = Some (w', r) ->
  w' = w \/ force = false /\ live_footprint w w' method url params retryCount r.
Proof.
  unfold cachedRequest.
  destruct (truthy (getCachedData JSON_parse w (generateCacheKey method url params)
                      ttlDays force)) eqn:Hlookup.
  { rewrite (cachedRequest_rec_hit _ _ _ _ _ _ _ _ _ _ _ _ eq_refl Hlookup).
    intros [= <- <-]. by left. }
  destruct force.
  { rewrite cachedRequest_rec_forced_miss by done. intros [= <- <-]. by left. }
  intros Hrun. right. split; [done|].
  by apply cachedRequest_rec_live_footprint in Hrun.
Qed.



(** X2. A call of the request client writes no cache file but the one of
    its own key and deletes none; when it throws, and always in forced
    mode, it leaves the cache directory as it found it, and in forced mode
    it neither calls the remote end nor waits. *)
Theorem cachedRequest_cache_footprint w method url params ttlDays retryCount force w' r :
  request w method url params ttlDays retryCount force = Some (w', r) ->
  (forall k, k <> generateCacheKey method url params -> fs w' !! k = fs w !! k)
  /\ (forall k, is_Some (fs w !! k) -> is_Some (fs w' !! k))
  /\ (forall e, r = Throw e -> fs w' = fs w)
  /\ (force = true -> w' = w).
Proof.
  intros Hrun.
  destruct (cachedRequest_footprint _ _ _ _ _ _ _ _ _ Hrun)
    as [->|(-> & delays & _ & _ & _ & _ & _ & Hfs)]; [done|].
  assert (Hcases : fs w' = fs w
                   \/ exists f, fs w' = <[generateCacheKey method url params := f]> (fs w)).
  { destruct r as [data|e]; [|by left].
    destruct (JSON_stringify_indented data); [right; eauto|by left]. }
  split; [|split; [|split]].
  - intros k Hk. destruct Hcases as [->|[f ->]]; [done|]. by rewrite lookup_insert_ne.
  - intros k Hsome. destruct Hcases as [->|[f ->]]; [done|].
    destruct (decide (generateCacheKey method url params = k)) as [<-|Hne].
    + rewrite lookup_insert_eq. eauto.
    + by rewrite lookup_insert_ne.
  - by intros e ->.
  - done.
Qed.

(** X3. What the client caches it serves.  After a miss and a live call
    that answered [data], a truthy value that the cache file reads back,
    the same request is served from the file as long as the file is
    there, whatever the remote end would answer, with no live call and
    nothing changed: in forced mode always, and outside it whenever no more
    than the time to live has passed since the write. *)
Theorem cachedRequest_serves_what_it_saved
    w method url params ttlDays retryCount data txt :
  miss w method url params ttlDays false ->
  octokit_request w (route_of method url) params = Ok data ->
  JSON_stringify_indented data = Some txt ->
  JSON_parse txt = Some data ->
  truthy data = true ->
  exists w1,
    request w method url params ttlDays retryCount false = Some (w1, Ok data)
    /\ fs w1 !! generateCacheKey method url params
       = Some {| mtimeMs := clock w; text := txt |}
    /\ forall remote w2 ttl retries force,
         fs w2 !! generateCacheKey method url params
         = fs w1 !! generateCacheKey method url params ->
         force = true \/ clock w2 <= clock w + ttl * ms_per_day ->
         cachedRequest JSON_parse JSON_stringify_indented remote
           w2 method url params ttl retries force = Some (w2, Ok data).
Proof.
  intros Hmiss Hlive Htxt Hparse Htruthy.
  eexists. split; [|split].
  - unfold cachedRequest. by rewrite (cachedRequest_rec_live_ok _ _ _ _ _ _ _ _ _ _ _ Hmiss Hlive).
  - unfold saveCacheData. rewrite Htxt. cbn. by rewrite lookup_insert_eq.
  - intros remote w2 ttl retries force Hentry Hfresh. unfold cachedRequest.
    apply cachedRequest_rec_hit; [|done].
    unfold getCachedData. rewrite Hentry. unfold saveCacheData. rewrite Htxt. cbn.
    rewrite lookup_insert_eq. unfold read_cache_file. cbn. rewrite Hparse.
    destruct force; [done|]. destruct Hfresh as [|Hfresh]; [done|].
    destruct (Z.leb_spec (clock w2 - clock w) (ttl * ms_per_day)); [done|lia].
Qed.

Lemma retry_delays_cons rc e failures :
  retry_delays rc (e :: failures)
  = 2 ^ Z.of_nat rc * base_delay (classify e) :: retry_delays (rc + 1) failures.
Proof.
  unfold retry_delays. rewrite imap_cons, Nat.add_0_r. f_equal.
  apply imap_ext. intros i x _. cbn. by replace (rc + S i)%nat with (rc + 1 + i)%nat by lia.
Qed.

Lemma base_delay_nonneg k : 0 <= base_delay k.
Proof. destruct k; cbn; lia. Qed.

(** The attempts fail with the errors of [failures], one after the other,
    and the next one is answered. *)
Lemma cachedRequest_rec_recovers failures data : forall fuel w method url params ttlDays rc,
  miss w method url params ttlDays false ->
  Forall (fun e => classify e <> OtherError) failures ->
  (length failures + rc <= 3)%nat ->
  (length failures < fuel)%nat ->
  (forall w' waited, waits w' = waits w ++ waited ->
     octokit_request w' (route_of method url) params
     = match failures !! length waited with
       | Some e => Throw e
       | None => Ok data
       end) ->
  exists w',
    request_rec fuel w method url params ttlDays rc false = Some (w', Ok data)
    /\ waits w' = waits w ++ retry_delays rc failures
    /\ live_calls w'
       = live_calls w ++ replicate (S (length failures)) (route_of method url, params)
    /\ clock w' = clock w + total_delay (retry_delays rc failures)
    /\ fs w' = match JSON_stringify_indented data with
               | Some txt =>
                   <[generateCacheKey method url params :=
                       {| mtimeMs := clock w'; text := txt |}]> (fs w)
               | None => fs w
               end.
Proof.
  induction failures as [|e failures IH];
    intros fuel w method url params ttlDays rc Hmiss Hkinds Hlen Hfuel Hremote;
    (destruct fuel as [|fuel]; [cbn in Hfuel; lia|]).
  - pose proof (Hremote w [] (eq_sym (app_nil_r _))) as Hlive. cbn in Hlive.
    rewrite (cachedRequest_rec_live_ok _ _ _ _ _ _ _ _ _ _ _ Hmiss Hlive).
    eexists. split; [done|]. unfold saveCacheData.
    destruct (JSON_stringify_indented data); cbn; rewrite ?app_nil_r;
      repeat split; try done; unfold total_delay; cbn; lia.
  - pose proof (Hremote w [] (eq_sym (app_nil_r _))) as Hlive. cbn in Hlive.
    rewrite (cachedRequest_rec_live_throw _ _ _ _ _ _ _ _ _ _ _ Hmiss Hlive). cbv zeta.
    apply Forall_cons in Hkinds as [Hkind Hkinds]. cbn in Hlen, Hfuel.
    set (w1 := sleep (record_call w (route_of method url) params)
                 (2 ^ Z.of_nat rc * base_delay (classify e))).
    destruct (IH fuel w1 method url params ttlDays (rc + 1)%nat)
      as (w' & Hrun & Hwaits & Hcalls & Hclock & Hfs); [|done|lia|lia| |].
    { apply miss_after_wait; [|done].
      pose proof (base_delay_nonneg (classify e)). assert (0 < 2 ^ Z.of_nat rc) by lia. lia. }
    { intros w2 waited Hw2. cbn in Hw2. rewrite <- app_assoc in Hw2.
      by rewrite (Hremote w2 _ Hw2). }
    exists w'. rewrite retry_delays_cons.
    cbn in Hwaits, Hcalls, Hclock, Hfs.
    rewrite <- app_assoc in Hwaits, Hcalls.
    assert (Hgo : (3 <=? rc)%nat = false) by (apply Nat.leb_gt; lia).
    destruct (classify e) eqn:Hclass; [| |done]; rewrite Hgo; fold w1; rewrite Hrun;
      (split; [done|]); (split; [by rewrite Hwaits|]); (split; [by rewrite Hcalls|]);
      (split; [|exact Hfs]); rewrite Hclock; unfold total_delay; cbn; lia.
Qed.

(** X4. Recovery from failures that pass.  The cache has no usable entry;
    the first attempts, at most three, fail with errors of [failures], each
    a primary rate limit or a quota exhaustion, in any mix, and the attempt
    after them is answered with [data].  Then the client returns [data] and
    caches it, after one live call per attempt and one wait per failure:
    retry number [i] waits [2 ^ i] times the base delay of the kind of the
    failure before it, the counter being shared by the two kinds. *)
Theorem cachedRequest_recovers w method url params ttlDays failures data :
  miss w method url params ttlDays false ->
  Forall (fun e => classify e <> OtherError) failures ->
  (length failures <= 3)%nat ->
  (forall w' waited, waits w' = waits w ++ waited ->
     octokit_request w' (route_of method url) params
     = match failures !! length waited with
       | Some e => Throw e
       | None => Ok data
       end) ->
  exists w',
    request w method url params ttlDays 0 false = Some (w', Ok data)
    /\ waits w' = waits w ++ retry_delays 0 failures
    /\ live_calls w'
       = live_calls w ++ replicate (S (length failures)) (route_of method url, params)
    /\ clock w' = clock w + total_delay (retry_delays 0 failures)
    /\ fs w' = match JSON_stringify_indented data with
               | Some txt =>
                   <[generateCacheKey method url params :=
                       {| mtimeMs := clock w'; text := txt |}]> (fs w)
               | None => fs w
               end.
Proof.
  intros Hmiss Hkinds Hlen Hremote. unfold cachedRequest.
  apply cachedRequest_rec_recovers; try done; cbn; lia.
Qed.

End ClientFootprint.

(** X2 on a concrete run: the first request of the listing on an empty
    cache. *)
Lemma cachedRequest_cache_footprint_witness :
  cachedRequest sample_parse JSON_stringify always_empty_page empty_world
    "GET" "/orgs/{org}/repos" (repos_params 1) 7 0 false
  = Some (world_after_listing, Ok (JArr []))
  /\ (forall k, k <> generateCacheKey "GET" "/orgs/{org}/repos" (repos_params 1) ->
        fs world_after_listing !! k = fs empty_world !! k)
  /\ (forall k, is_Some (fs empty_world !! k) -> is_Some (fs world_after_listing !! k)).
Proof.
  assert (Hrun : cachedRequest sample_parse JSON_stringify always_empty_page empty_world
                   "GET" "/orgs/{org}/repos" (repos_params 1) 7 0 false
                 = Some (world_after_listing, Ok (JArr [])))
    by (vm_compute; reflexivity).
  split; [exact Hrun|].
  destruct (cachedRequest_cache_footprint sample_parse JSON_stringify always_empty_page
              empty_world "GET" "/orgs/{org}/repos" (repos_params 1) 7 0 false
              world_after_listing (Ok (JArr [])) Hrun) as (Hothers & Hkept & _).
  split; [exact Hothers|exact Hkept].
Defined.

(** X3 on a concrete run: the empty page the listing was answered with is
    served from the cache afterwards. *)
Lemma cachedRequest_serves_what_it_saved_witness :
  cache_miss sample_parse empty_world "GET" "/orgs/{org}/repos" (repos_params 1) 7 false
  /\ always_empty_page empty_world "GET /orgs/{org}/repos" (repos_params 1) = Ok (JArr [])
  /\ JSON_stringify (JArr []) = Some "[]"
  /\ sample_parse "[]" = Some (JArr [])
  /\ truthy (JArr []) = true
  /\ exists w1,
       cachedRequest sample_parse JSON_stringify always_empty_page empty_world
         "GET" "/orgs/{org}/repos" (repos_params 1) 7 0 false = Some (w1, Ok (JArr []))
       /\ cachedRequest sample_parse JSON_stringify always_rate_limited w1
            "GET" "/orgs/{org}/repos" (repos_params 1) 7 0 true = Some (w1, Ok (JArr [])).
Proof.
  assert (Hmiss : cache_miss sample_parse empty_world "GET" "/orgs/{org}/repos"
                    (repos_params 1) 7 false) by (vm_compute; reflexivity).
  split; [exact Hmiss|]. split; [reflexivity|]. split; [reflexivity|].
  split; [reflexivity|]. split; [reflexivity|].
  destruct (cachedRequest_serves_what_it_saved sample_parse JSON_stringify
              always_empty_page empty_world "GET" "/orgs/{org}/repos" (repos_params 1)
              7 0 (JArr []) "[]" Hmiss eq_refl eq_refl eq_refl eq_refl)
    as (w1 & Hrun & _ & Hserved).
  exists w1. split; [exact Hrun|].
  exact (Hserved always_rate_limited w1 7 0%nat true eq_refl (or_introl eq_refl)).
Defined.

(** X4 on a concrete run: a primary rate limit, then an exhausted quota,
    then the answer.  The second wait is twice the base delay of the
    quota scheme. *)
Lemma cachedRequest_recovers_witness :
  cache_miss sample_parse empty_world "GET" "/orgs/{org}/repos" (repos_params 1) 7 false
  /\ Forall (fun e => classify e <> OtherError) [rate_limited; quota_exhausted]
  /\ (length [rate_limited; quota_exhausted] <= 3)%nat
  /\ (forall w' waited, waits w' = waits empty_world ++ waited ->
        fails_twice w' "GET /orgs/{org}/repos" (repos_params 1)
        = match [rate_limited; quota_exhausted] !! length waited with
          | Some e => Throw e
          | None => Ok (JArr [])
          end)
  /\ exists w',
       cachedRequest sample_parse JSON_stringify fails_twice empty_world
         "GET" "/orgs/{org}/repos" (repos_params 1) 7 0 false = Some (w', Ok (JArr []))
       /\ waits w' = [30000; 120000]
       /\ length (live_calls w') = 3%nat
       /\ clock w' = 150000.
Proof.
  assert (Hmiss : cache_miss sample_parse empty_world "GET" "/orgs/{org}/repos"
                    (repos_params 1) 7 false) by (vm_compute; reflexivity).
  assert (Hkinds : Forall (fun e => classify e <> OtherError)
                     [rate_limited; quota_exhausted])
    by (repeat constructor; vm_compute; discriminate).
  assert (Hlen : (length [rate_limited; quota_exhausted] <= 3)%nat) by (cbn; lia).
  assert (Hremote : forall w' waited, waits w' = waits empty_world ++ waited ->
            fails_twice w' "GET /orgs/{org}/repos" (repos_params 1)
            = match [rate_limited; quota_exhausted] !! length waited with
              | Some e => Throw e
              | None => Ok (JArr [])
              end)
    by (intros w' waited Hw'; unfold fails_twice; rewrite Hw'; reflexivity).
  split; [exact Hmiss|]. split; [exact Hkinds|]. split; [exact Hlen|].
  split; [exact Hremote|].
  destruct (cachedRequest_recovers sample_parse JSON_stringify fails_twice empty_world
              "GET" "/orgs/{org}/repos" (repos_params 1) 7
              [rate_limited; quota_exhausted] (JArr []) Hmiss Hkinds Hlen Hremote)
    as (w' & Hrun & Hwaits & Hcalls & Hclock & _).
  exists w'. split; [exact Hrun|]. split; [exact Hwaits|].
  split; [rewrite Hcalls; reflexivity|exact Hclock].
Defined.

(* --------------------------------------------------------------------- *)
(** ** Cache file names *)
(* --------------------------------------------------------------------- *)

Lemma le_bytes_range n : forall x, Forall (fun b => 0 <= b < 256) (MD5.le_bytes n x).
Proof.
  induction n as [|n IH]; intros x; cbn; constructor; [|apply IH].
  apply Z.mod_pos_bound. lia.
Qed.

Lemma le_bytes_length n : forall x, length (MD5.le_bytes n x) = n.
Proof. induction n as [|n IH]; intros x; cbn; [done|]. by rewrite IH. Qed.

Lemma digest_bytes msg :
  length (MD5.digest msg) = 16%nat /\ Forall (fun b => 0 <= b < 256) (MD5.digest msg).
Proof.
  unfold MD5.digest. cbv zeta.
  destruct (fold_left MD5.compress _ MD5.init) as [[[a b] c] d].
  split.
  - by rewrite !length_app, !le_bytes_length.
  - rewrite !Forall_app. repeat split; apply le_bytes_range.
Qed.

(** A hexadecimal digit reads back as its value. *)
Lemma unhex_hex_digit n : 0 <= n < 16 -> unhex (hex_digit n) = Some n.
Proof.
  intros Hn.
  assert (Hcases : In n (map Z.of_nat (seq 0 16))).
  { apply in_map_iff. exists (Z.to_nat n). split; [lia|]. apply in_seq. lia. }
  cbn in Hcases. decompose [or] Hcases; subst; try reflexivity. done.
Qed.

Lemma hex_byte_digits b :
  0 <= b < 256 -> Forall (fun c => is_Some (unhex c)) (hex_byte b).
Proof.
  intros Hb. unfold hex_byte. repeat constructor.
  - rewrite unhex_hex_digit; [eauto|].
    split; [apply Z.div_pos; lia|apply Z.div_lt_upper_bound; lia].
  - rewrite unhex_hex_digit; [eauto|]. apply Z.mod_pos_bound. lia.
Qed.

Lemma string_of_list_ascii_length l :
  String.length (string_of_list_ascii l) = length l.
Proof. induction l as [|c l IH]; cbn; [done|]. by rewrite IH. Qed.

(** X5. The key of a request is always 32 characters long and made of the
    digits [0-9a-f] only: the name of a cache file holds no path separator
    and no dot of its own, whatever the method, the url and the parameters
    are. *)
Theorem generateCacheKey_is_hex method url params :
  String.length (generateCacheKey method url params) = 32%nat
  /\ Forall (fun c => is_Some (unhex c))
       (list_ascii_of_string (generateCacheKey method url params)).
Proof.
  unfold generateCacheKey, MD5.hexdigest.
  destruct (digest_bytes (bytes_of_string (serialize (request_object method url params))))
    as [Hlen Hbytes].
  set (bytes := MD5.digest _) in *. clearbody bytes.
  rewrite string_of_list_ascii_length, list_ascii_of_string_of_list_ascii. split.
  - clear Hbytes. do 17 (destruct bytes as [|? bytes]; try (cbn in Hlen; lia)). reflexivity.
  - clear Hlen. induction Hbytes as [|b bs Hb Hbs IH]; cbn [flat_map]; [constructor|].
    apply Forall_app. split; [by apply hex_byte_digits|done].
Qed.

(* --------------------------------------------------------------------- *)
(** ** Paginators: the page that fails *)
(* --------------------------------------------------------------------- *)

Section PaginatePages.

Context {Raw Out : Type}.
Variable request : nat -> Result (list Raw).
Variable format : list Raw -> list Out.

(** The loop goes through the non-empty pages and ends on the page after
    them when that page is empty or fails. *)
Lemma paginate_pages pages : forall fuel page out,
  Forall (fun data => data <> []) pages ->
  (forall i data, pages !! i = Some data -> request (page + i) = Ok data) ->
  (request (page + length pages) = Ok []
   \/ exists e, request (page + length pages) = Throw e) ->
  (length pages < fuel)%nat ->
  paginate request format fuel page out = Some (out ++ flat_map format pages).
Proof.
  induction pages as [|data pages IH]; intros fuel page out Hne Hpages Hend Hfuel;
    (destruct fuel as [|fuel]; [cbn in Hfuel; lia|]); cbn [paginate length flat_map].
  - rewrite Nat.add_0_r in Hend. rewrite app_nil_r.
    by destruct Hend as [->|[e ->]].
  - pose proof (Hpages 0%nat data eq_refl) as Hhead. rewrite Nat.add_0_r in Hhead.
    rewrite Hhead. apply Forall_cons in Hne as [Hdata Hne].
    destruct data as [|x data]; [done|].
    rewrite (IH fuel (S page) (out ++ format (x :: data))); [by rewrite app_assoc|done| | |].
    + intros i d Hd. rewrite Nat.add_succ_l, <- Nat.add_succ_r. by apply Hpages.
    + by rewrite Nat.add_succ_l, <- Nat.add_succ_r.
    + cbn in Hfuel. lia.
Qed.

(** Without the [try], the failure of the page after them is thrown. *)
Lemma paginate_throwing_fails pages e : forall fuel page out,
  Forall (fun data => data <> []) pages ->
  (forall i data, pages !! i = Some data -> request (page + i) = Ok data) ->
  request (page + length pages) = Throw e ->
  (length pages < fuel)%nat ->
  paginate_throwing request format fuel page out = Some (Throw e).
Proof.
  induction pages as [|data pages IH]; intros fuel page out Hne Hpages Hend Hfuel;
    (destruct fuel as [|fuel]; [cbn in Hfuel; lia|]);
    cbn [paginate_throwing length flat_map].
  - rewrite Nat.add_0_r in Hend. by rewrite Hend.
  - pose proof (Hpages 0%nat data eq_refl) as Hhead. rewrite Nat.add_0_r in Hhead.
    rewrite Hhead. apply Forall_cons in Hne as [Hdata Hne].
    destruct data as [|x data]; [done|].
    apply IH; [done| | |].
    + intros i d Hd. rewrite Nat.add_succ_l, <- Nat.add_succ_r. by apply Hpages.
    + by rewrite Nat.add_succ_l, <- Nat.add_succ_r.
    + cbn in Hfuel. lia.
Qed.

End PaginatePages.

Lemma flat_map_omap {A B : Type} (f : A -> option B) (pages : list (list A)) :
  flat_map (omap f) pages = omap f (concat pages).
Proof.
  induction pages as [|data pages IH]; [done|]. cbn. by rewrite omap_app, IH.
Qed.

(** X6. A page of the reviews that fails.  The listing answers the
    non-empty [pages] and fails on the page after them.  The cached
    pipeline takes the failure for the end of the list: it returns the
    reviews of the pages read so far, those that have a user, in order, and
    no error.  The pipeline without cache throws the error and returns
    nothing. *)
Theorem fetchPullRequestReviews_failed_page review_pages pages e fuel :
  Forall (fun data => data <> []) pages ->
  (forall i data, pages !! i = Some data -> review_pages (S i) = Ok data) ->
  review_pages (S (length pages)) = Throw e ->
  (length pages < fuel)%nat ->
  fetchPullRequestReviews review_pages fuel = Some (format_reviews (concat pages))
  /\ fetchPullRequestReviews_direct review_pages fuel = Some (Throw e).
Proof.
  intros Hne Hpages Hfail Hfuel. split.
  - unfold fetchPullRequestReviews.
    rewrite (paginate_pages review_pages format_reviews pages); try done.
    + cbn. f_equal. apply flat_map_omap.
    + right. by exists e.
  - unfold fetchPullRequestReviews_direct.
    by apply (paginate_throwing_fails review_pages format_reviews pages e).
Qed.

(** X6 on a concrete run: one page of two reviews, then a server error. *)
Lemma fetchPullRequestReviews_failed_page_witness :
  let pages := [[sample_review 1 None; sample_review 2 (Some "Looks good")]] in
  let review_pages := fun page : nat => if (page =? 1)%nat then Ok (concat pages)
                                        else Throw server_error in
  Forall (fun data => data <> []) pages
  /\ (forall i data, pages !! i = Some data -> review_pages (S i) = Ok data)
  /\ review_pages (S (length pages)) = Throw server_error
  /\ (length pages < 3)%nat
  /\ fetchPullRequestReviews review_pages 3 = Some (format_reviews (concat pages))
  /\ fetchPullRequestReviews_direct review_pages 3 = Some (Throw server_error).
Proof.
  cbv zeta.
  set (pages := [[sample_review 1 None; sample_review 2 (Some "Looks good")]]).
  set (review_pages := fun page : nat => if (page =? 1)%nat then Ok (concat pages)
                                         else Throw server_error).
  assert (Hne : Forall (fun data : list RawReview.t => data <> []) pages)
    by (repeat constructor; discriminate).
  assert (Hpages : forall i data, pages !! i = Some data -> review_pages (S i) = Ok data).
  { intros [|[|i]] data; cbn; [|done..]. by intros [= <-]. }
  assert (Hfail : review_pages (S (length pages)) = Throw server_error) by reflexivity.
  assert (Hfuel : (length pages < 3)%nat) by (cbn; lia).
  split; [exact Hne|]. split; [exact Hpages|]. split; [exact Hfail|].
  split; [exact Hfuel|].
  exact (fetchPullRequestReviews_failed_page review_pages pages server_error 3
           Hne Hpages Hfail Hfuel).
Defined.

(* --------------------------------------------------------------------- *)
(** ** Pull-request listing: any listing *)
(* --------------------------------------------------------------------- *)

Section AllPullRequestsSound.

Variable pulls_page : nat -> Result (list RawPullRequest.t).
Variable since : Z.

(** The loop requests consecutive pages, keeps the pages it walks through
    and filters the one it stops on. *)
Lemma fetchAllPullRequests_loop_walk fuel :
  forall page pagePromises requested stop promises requested',
  fetchAllPullRequests_loop pulls_page since fuel page pagePromises requested
  = Some (stop, promises, requested') ->
  exists kept,
    promises = pagePromises ++ kept
    /\ requested' = requested ++ seq page (S (length kept))
    /\ (forall i data, kept !! i = Some data -> pulls_page (page + i) = Ok data)
    /\ (stop = []
        \/ exists data, pulls_page (page + length kept) = Ok data
                        /\ stop = List.filter (in_window since) data).
Proof.
  induction fuel as [|fuel IH];
    intros page pagePromises requested stop promises requested'; [done|].
  cbn [fetchAllPullRequests_loop].
  destruct (pulls_page page) as [data|e] eqn:Hpage.
  2:{ intros [= <- <- <-]. exists []. rewrite app_nil_r. repeat split; [done|by left]. }
  destruct (last data) as [lastPR|] eqn:Hlast.
  2:{ intros [= <- <- <-]. exists []. rewrite app_nil_r. repeat split; [done|by left]. }
  destruct (RawPullRequest.created_at lastPR <? since).
  { intros [= <- <- <-]. exists []. rewrite app_nil_r, Nat.add_0_r.
    repeat split; [done|]. right. by exists data. }
  intros Hrun. apply IH in Hrun as (kept & -> & -> & Hkept & Hstop).
  exists (data :: kept). rewrite <- !app_assoc. cbn [length]. repeat split.
  - intros [|i] d; cbn.
    + intros [= <-]. by rewrite Nat.add_0_r.
    + intros Hd. rewrite <- Nat.add_succ_comm. by apply Hkept.
  - by rewrite <- Nat.add_succ_comm.
Qed.

(** X7. Whatever the listing answers, sorted or not, failing or not: when
    the paginator returns, it has requested the pages 1, 2, ... up to some
    page, each once and in this order; every pull request it returns was
    created at or after the cutoff and is an item of a page that was
    requested and answered. *)
Theorem fetchAllPullRequests_sound fuel prs requested :
  fetchAllPullRequests pulls_page since fuel = Some (prs, requested) ->
  requested = seq 1 (length requested)
  /\ requested <> []
  /\ Forall (fun pr => since <= RawPullRequest.created_at pr) prs
  /\ forall pr, In pr prs ->
       exists page data, In page requested /\ pulls_page page = Ok data /\ In pr data.
Proof.
  unfold fetchAllPullRequests.
  destruct (fetchAllPullRequests_loop pulls_page since fuel 1 [] [])
    as [[[stop promises] requested']|] eqn:Hloop; [|done].
  intros [= <- <-].
  apply fetchAllPullRequests_loop_walk in Hloop as (kept & -> & -> & Hkept & Hstop).
  cbn [app]. rewrite length_seq.
  assert (Hin : forall pr, In pr (stop ++ flat_map (List.filter (in_window since)) kept) ->
            in_window since pr = true
            /\ exists page data, In page (seq 1 (S (length kept)))
                                 /\ pulls_page page = Ok data /\ In pr data).
  { intros pr [Hpr|Hpr]%in_app_iff.
    - destruct Hstop as [->|(data & Hdata & ->)]; [done|].
      apply filter_In in Hpr as [Hpr Hwin]. split; [done|].
      exists (1 + length kept)%nat, data. split; [apply in_seq; lia|done].
    - apply in_flat_map in Hpr as (data & Hdata & Hpr).
      apply filter_In in Hpr as [Hpr Hwin]. split; [done|].
      apply list_elem_of_In, list_elem_of_lookup in Hdata as [i Hi].
      exists (1 + i)%nat, data. split; [|by split; [apply Hkept|]].
      apply in_seq. apply lookup_lt_Some in Hi. lia. }
  split; [done|]. split; [done|]. split.
  - apply List.Forall_forall. intros pr Hpr. apply Hin in Hpr as [Hwin _].
    unfold in_window in Hwin. lia.
  - intros pr Hpr. by apply Hin in Hpr as [_ Hfrom].
Qed.

End AllPullRequestsSound.

(** X7 on a concrete run: the two pages of the listing and a cutoff that
    falls inside the second. *)
Lemma fetchAllPullRequests_sound_witness :
  fetchAllPullRequests two_pages_listing 10 5
  = Some ([sample_pr 2 15; sample_pr 4 30; sample_pr 3 20], [1%nat; 2%nat])
  /\ Forall (fun pr => 10 <= RawPullRequest.created_at pr)
       [sample_pr 2 15; sample_pr 4 30; sample_pr 3 20].
Proof.
  assert (Hrun : fetchAllPullRequests two_pages_listing 10 5
                 = Some ([sample_pr 2 15; sample_pr 4 30; sample_pr 3 20],
                         [1%nat; 2%nat])) by reflexivity.
  split; [exact Hrun|].
  exact (proj1 (proj2 (proj2 (fetchAllPullRequests_sound two_pages_listing 10 5 _ _ Hrun)))).
Defined.

(* --------------------------------------------------------------------- *)
(** ** Snapshot assembler: the other counters, and the run that fails *)
(* --------------------------------------------------------------------- *)

Lemma reduce_sum_acc f prs : forall acc,
  fold_left (fun total pr => total + f pr) prs acc = acc + reduce_sum f prs.
Proof.
  unfold reduce_sum. induction prs as [|pr prs IH]; intros acc; cbn; [lia|].
  rewrite (IH (acc + f pr)), (IH (0 + f pr)). lia.
Qed.

Lemma reduce_sum_app f a b : reduce_sum f (a ++ b) = reduce_sum f a + reduce_sum f b.
Proof.
  unfold reduce_sum at 1. rewrite fold_left_app, reduce_sum_acc.
  fold (reduce_sum f a). lia.
Qed.

Section SummaryTotals.

Variable pull_requests_since : Repository.t -> list RawPullRequest.t.
Variable processPR : Repository.t -> RawPullRequest.t -> Result PullRequest.t.
Variable completion_order : Repository.t -> nat -> list nat.

Abbreviation all_aggregated :=
  (aggregated pull_requests_since processPR completion_order).
Abbreviation run_main := (main pull_requests_since processPR completion_order).

Lemma process_repositories_totals repositories : forall data data',
  process_repositories pull_requests_since processPR completion_order repositories data
  = Some (Ok data') ->
  let s := GitHubData.summary data in
  let s' := GitHubData.summary data' in
  let prs := all_aggregated repositories in
  Summary.total_commits s'
  = Summary.total_commits s
    + reduce_sum (fun pr => array_length (PullRequest.commits pr)) prs
  /\ Summary.total_comments s'
     = Summary.total_comments s
       + reduce_sum (fun pr => array_length (PullRequest.comments pr)) prs
  /\ Summary.total_reviews s'
     = Summary.total_reviews s
       + reduce_sum (fun pr => array_length (PullRequest.reviews pr)) prs
  /\ Summary.total_review_requests s'
     = Summary.total_review_requests s
       + reduce_sum (fun pr => array_length (PullRequest.review_requests pr)) prs
  /\ Summary.total_additions s'
     = Summary.total_additions s + reduce_sum PullRequest.additions prs
  /\ Summary.total_deletions s'
     = Summary.total_deletions s + reduce_sum PullRequest.deletions prs
  /\ Summary.total_changed_files s'
     = Summary.total_changed_files s + reduce_sum PullRequest.changed_files prs.
Proof.
  induction repositories as [|repo rest IH]; intros data data'; cbn [process_repositories].
  - intros [= <-]. cbn. unfold reduce_sum. cbn. lia.
  - unfold aggregated. cbn [flat_map]. fold (all_aggregated rest).
    destruct (pull_requests_since repo) as [|pr prs] eqn:Hprs; cbn [length Nat.eqb].
    + intros Hrun. cbn. by apply IH.
    + destruct (processInBatches _ _ _ _) as [[[detailedPRs|e] batches]|]; try done.
      intros Hrun. apply IH in Hrun. cbn in Hrun. cbn zeta.
      rewrite !reduce_sum_app. lia.
Qed.

(** X8. After a run that produced a snapshot, each of the seven volume
    counters of the summary is the sum, over the aggregated pull requests
    of all the repositories taken together, of what the counter measures:
    the numbers of commits, comments, reviews and review requests attached
    to a pull request, and its added lines, deleted lines and changed
    files. *)
Theorem main_volume_counters org generated_at repositories data :
  run_main org generated_at repositories = Some (Ok data) ->
  let s := GitHubData.summary data in
  let prs := all_aggregated repositories in
  Summary.total_commits s
  = reduce_sum (fun pr => array_length (PullRequest.commits pr)) prs
  /\ Summary.total_comments s
     = reduce_sum (fun pr => array_length (PullRequest.comments pr)) prs
  /\ Summary.total_reviews s
     = reduce_sum (fun pr => array_length (PullRequest.reviews pr)) prs
  /\ Summary.total_review_requests s
     = reduce_sum (fun pr => array_length (PullRequest.review_requests pr)) prs
  /\ Summary.total_additions s = reduce_sum PullRequest.additions prs
  /\ Summary.total_deletions s = reduce_sum PullRequest.deletions prs
  /\ Summary.total_changed_files s = reduce_sum PullRequest.changed_files prs.
Proof.
  intros Hrun. apply process_repositories_totals in Hrun. cbn in Hrun. cbv zeta.
  rewrite !Z.add_0_l in Hrun. exact Hrun.
Qed.

Lemma counters_partition (prs : list PullRequest.t) :
  Forall (fun pr =>
            (PullRequest.state pr = "open" /\ PullRequest.merged_at pr = None)
            \/ (PullRequest.state pr = "closed"
                /\ PullRequest.merged_at pr <> Some EmptyString)) prs ->
  array_length prs
  = array_length (List.filter state_is_open prs)
    + array_length (List.filter state_is_closed_and_not_merged prs)
    + array_length (List.filter merged_at_is_not_null prs).
Proof.
  unfold array_length. induction 1 as [|pr prs Hpr _ IH]; [done|].
  cbn [List.filter length].
  assert (Hone :
    (state_is_open pr, state_is_closed_and_not_merged pr, merged_at_is_not_null pr)
    = (true, false, false)
    \/ (state_is_open pr, state_is_closed_and_not_merged pr, merged_at_is_not_null pr)
       = (false, true, false)
    \/ (state_is_open pr, state_is_closed_and_not_merged pr, merged_at_is_not_null pr)
       = (false, false, true)).
  { unfold state_is_open, state_is_closed_and_not_merged, merged_at_is_not_null.
    destruct Hpr as [[-> ->]|[-> Hmerged]]; [by left|]. right.
    destruct (PullRequest.merged_at pr) as [t|]; [|by left]. right.
    destruct (String.eqb_spec t EmptyString) as [->|Hne]; [done|reflexivity]. }
  destruct Hone as [[= -> -> ->]|[[= -> -> ->]|[= -> -> ->]]]; cbn [length]; lia.
Qed.

(** X9. The three state counters divide the total.  After a run that
    produced a snapshot in which every aggregated pull request is either
    open and not merged, or closed with a merge timestamp that is null or a
    non-empty string, the total of pull requests is the sum of the open,
    the closed and the merged counters: each pull request is counted in
    exactly one of them. *)
Theorem main_state_counters_partition org generated_at repositories data :
  run_main org generated_at repositories = Some (Ok data) ->
  Forall (fun pr =>
            (PullRequest.state pr = "open" /\ PullRequest.merged_at pr = None)
            \/ (PullRequest.state pr = "closed"
                /\ PullRequest.merged_at pr <> Some EmptyString))
    (all_aggregated repositories) ->
  let s := GitHubData.summary data in
  Summary.total_pull_requests s
  = Summary.open_pull_requests s + Summary.closed_pull_requests s
    + Summary.merged_pull_requests s.
Proof.
  intros Hrun Hstates. cbv zeta.
  apply process_repositories_counters in Hrun as (Htotal & Hopen & Hclosed & Hmerged).
  cbn in Htotal, Hopen, Hclosed, Hmerged.
  rewrite Htotal, Hopen, Hclosed, Hmerged, (counters_partition _ Hstates). lia.
Qed.

(** The loop over the repositories when some worker fails. *)
Lemma process_repositories_rejected repositories : forall data,
  (forall repo i, Permutation (completion_order repo i)
     (seq 0 (length (take 5 (drop i (pull_requests_since repo)))))) ->
  (exists repo pr, In repo repositories /\ In pr (pull_requests_since repo)
                   /\ worker_rejected (processPR repo) pr) ->
  exists e repo pr,
    process_repositories pull_requests_since processPR completion_order repositories data
    = Some (Throw e)
    /\ In repo repositories /\ In pr (pull_requests_since repo)
    /\ processPR repo pr = Throw e.
Proof.
  intros data Hsettle. revert data.
  induction repositories as [|repo rest IH]; intros data (bad & pr & Hbad & Hpr & Hrej);
    [done|].
  cbn [process_repositories].
  assert (Hfive : (0 < 5)%nat) by lia.
  destruct (pull_requests_since repo) as [|pr0 prs0] eqn:Hprs; cbn [length Nat.eqb].
  - destruct Hbad as [<-|Hbad]; [by rewrite Hprs in Hpr|].
    destruct (IH data) as (e & repo' & pr' & Hrun & Hin & Hpr' & He); [by eauto|].
    exists e, repo', pr'. by repeat split; [|right|..].
  - rewrite <- Hprs. unfold processInBatches.
    destruct (fulfilled_or_rejected (processPR repo) (pull_requests_since repo))
      as [Hall|(x & Hx & Hxrej)].
    + destruct (processInBatches_loop_fulfilled (pull_requests_since repo) 5
                  (processPR repo) (completion_order repo) Hfive (Hsettle repo)
                  (S (length (pull_requests_since repo))) 0 [] [])
        as (rs & bs & Hloop & _); [done|lia|].
      rewrite Hloop. cbn [app].
      destruct Hbad as [<-|Hbad].
      { destruct (Hall pr Hpr) as [r Hr], Hrej as [e He]. congruence. }
      destruct (IH (record_repository data repo rs))
        as (e & repo' & pr' & Hrun & Hin & Hpr' & He); [by eauto|].
      exists e, repo', pr'. by repeat split; [|right|..].
    + destruct (processInBatches_loop_rejected (pull_requests_since repo) 5
                  (processPR repo) (completion_order repo) Hfive (Hsettle repo)
                  (S (length (pull_requests_since repo))) 0 [] [])
        as (e & bs & _ & _ & Hloop & (y & Hy & He) & _); [by exists x|lia|].
      rewrite Hloop. exists e, repo, y. by repeat split; [left|..].
Qed.

(** The loop over the repositories when every worker succeeds. *)
Lemma process_repositories_fulfilled repositories : forall data,
  (forall repo i, Permutation (completion_order repo i)
     (seq 0 (length (take 5 (drop i (pull_requests_since repo)))))) ->
  (forall repo pr, In repo repositories -> In pr (pull_requests_since repo) ->
                   worker_fulfilled (processPR repo) pr) ->
  exists data',
    process_repositories pull_requests_since processPR completion_order repositories data
    = Some (Ok data').
Proof.
  intros data Hsettle. revert data.
  induction repositories as [|repo rest IH]; intros data Hall; [by exists data|].
  cbn [process_repositories].
  assert (Hfive : (0 < 5)%nat) by lia.
  destruct (length (pull_requests_since repo) =? 0)%nat.
  - apply IH. intros r pr Hr. apply Hall. by right.
  - unfold processInBatches.
    destruct (processInBatches_loop_fulfilled (pull_requests_since repo) 5
                (processPR repo) (completion_order repo) Hfive (Hsettle repo)
                (S (length (pull_requests_since repo))) 0 [] [])
      as (rs & bs & Hloop & _); [|lia|].
    { intros x Hx. apply Hall; [by left|done]. }
    rewrite Hloop. cbn [app]. apply IH. intros r pr Hr. apply Hall. by right.
Qed.

(** X10. All or nothing.  The promises of every batch settle, in any
    order.  If every pull request of every repository is aggregated, the
    run produces a snapshot.  If the aggregation of a single pull request
    fails, in whatever repository, the run produces no snapshot at all,
    not even for the repositories it had finished: it fails with the error
    of a pull request whose aggregation failed. *)
Theorem main_all_or_nothing org generated_at repositories :
  (forall repo i, Permutation (completion_order repo i)
     (seq 0 (length (take 5 (drop i (pull_requests_since repo)))))) ->
  ((forall repo pr, In repo repositories -> In pr (pull_requests_since repo) ->
                    worker_fulfilled (processPR repo) pr) ->
   exists data, run_main org generated_at repositories = Some (Ok data))
  /\ ((exists repo pr, In repo repositories /\ In pr (pull_requests_since repo)
                       /\ worker_rejected (processPR repo) pr) ->
      exists e repo pr,
        run_main org generated_at repositories = Some (Throw e)
        /\ In repo repositories /\ In pr (pull_requests_since repo)
        /\ processPR repo pr = Throw e).
Proof.
  intros Hsettle. split.
  - intros Hall. by apply process_repositories_fulfilled.
  - intros Hbad. by apply process_repositories_rejected.
Qed.

End SummaryTotals.

Lemma scenario_order_settles repo i :
  Permutation (scenario_order repo i)
    (seq 0 (length (take 5 (drop i (scenario_pull_requests repo))))).
Proof. unfold scenario_order, last_first. symmetry. apply Permutation_rev. Qed.

(** X8 on the scenario: two pull requests of one commit and one review
    each. *)
Lemma main_volume_counters_witness :
  exists data,
    main scenario_pull_requests scenario_processPR scenario_order
      "acme" "2024-05-08T00:00:00Z" [widgets; gadgets] = Some (Ok data)
    /\ Summary.total_commits (GitHubData.summary data) = 2
    /\ Summary.total_reviews (GitHubData.summary data) = 2
    /\ Summary.total_additions (GitHubData.summary data) = 20.
Proof.
  eexists. split; [reflexivity|].
  destruct (main_volume_counters scenario_pull_requests scenario_processPR scenario_order
              "acme" "2024-05-08T00:00:00Z" [widgets; gadgets] _ eq_refl)
    as (Hcommits & _ & Hreviews & _ & Hadditions & _).
  split; [exact Hcommits|]. split; [exact Hreviews|exact Hadditions].
Defined.

(** X9 on the scenario: one open and one merged pull request. *)
Lemma main_state_counters_partition_witness :
  Forall (fun pr =>
            (PullRequest.state pr = "open" /\ PullRequest.merged_at pr = None)
            \/ (PullRequest.state pr = "closed"
                /\ PullRequest.merged_at pr <> Some EmptyString))
    (aggregated scenario_pull_requests scenario_processPR scenario_order [widgets; gadgets])
  /\ exists data,
       main scenario_pull_requests scenario_processPR scenario_order
         "acme" "2024-05-08T00:00:00Z" [widgets; gadgets] = Some (Ok data)
       /\ Summary.total_pull_requests (GitHubData.summary data)
          = Summary.open_pull_requests (GitHubData.summary data)
            + Summary.closed_pull_requests (GitHubData.summary data)
            + Summary.merged_pull_requests (GitHubData.summary data).
Proof.
  assert (Hstates :
    Forall (fun pr =>
              (PullRequest.state pr = "open" /\ PullRequest.merged_at pr = None)
              \/ (PullRequest.state pr = "closed"
                  /\ PullRequest.merged_at pr <> Some EmptyString))
      (aggregated scenario_pull_requests scenario_processPR scenario_order
         [widgets; gadgets])).
  { set (prs := aggregated _ _ _ _). vm_compute in prs. subst prs.
    constructor; [left; by split|]. constructor; [right; by split|]. constructor. }
  split; [exact Hstates|].
  eexists. split; [reflexivity|].
  exact (main_state_counters_partition scenario_pull_requests scenario_processPR
           scenario_order "acme" "2024-05-08T00:00:00Z" [widgets; gadgets] _
           eq_refl Hstates).
Defined.

(** X10 on the scenario: with every pull request aggregated the run
    produces a snapshot; when number 1 of [widgets] fails it produces
    none. *)
Lemma main_all_or_nothing_witness :
  (forall repo i, Permutation (scenario_order repo i)
     (seq 0 (length (take 5 (drop i (scenario_pull_requests repo))))))
  /\ (forall repo pr, In repo [gadgets; widgets] -> In pr (scenario_pull_requests repo) ->
        worker_fulfilled (scenario_processPR repo) pr)
  /\ (exists data,
        main scenario_pull_requests scenario_processPR scenario_order
          "acme" "2024-05-08T00:00:00Z" [gadgets; widgets] = Some (Ok data))
  /\ (exists repo pr, In repo [gadgets; widgets] /\ In pr (scenario_pull_requests repo)
                      /\ worker_rejected (scenario_processPR_failing repo) pr)
  /\ (exists e,
        main scenario_pull_requests scenario_processPR_failing scenario_order
          "acme" "2024-05-08T00:00:00Z" [gadgets; widgets] = Some (Throw e)).
Proof.
  assert (Hall : forall repo pr, In repo [gadgets; widgets] ->
            In pr (scenario_pull_requests repo) ->
            worker_fulfilled (scenario_processPR repo) pr).
  { intros repo pr _ _. unfold worker_fulfilled, scenario_processPR. eauto. }
  assert (Hbad : exists repo pr, In repo [gadgets; widgets]
            /\ In pr (scenario_pull_requests repo)
            /\ worker_rejected (scenario_processPR_failing repo) pr).
  { exists widgets, (sample_pr 1 20). split; [right; by left|].
    split; [right; by left|]. by exists server_error. }
  split; [exact scenario_order_settles|]. split; [exact Hall|]. split.
  - exact (proj1 (main_all_or_nothing scenario_pull_requests scenario_processPR
                    scenario_order "acme" "2024-05-08T00:00:00Z" [gadgets; widgets]
                    scenario_order_settles) Hall).
  - split; [exact Hbad|].
    destruct (proj2 (main_all_or_nothing scenario_pull_requests
                       scenario_processPR_failing scenario_order "acme"
                       "2024-05-08T00:00:00Z" [gadgets; widgets]
                       scenario_order_settles) Hbad) as (e & _ & _ & Hrun & _).
    by exists e.
Defined.

(* --------------------------------------------------------------------- *)
(** ** The aggregation of one pull request *)
(* --------------------------------------------------------------------- *)

Section ProcessPRFacts.

Variable details : Result PullRequest.t.
Variable order : list nat.
Hypothesis every_promise_settles : Permutation order [0; 1; 2; 3]%nat.

Lemma processPR_fulfilled commits reviews comments reviewRequests :
  processPR details (Ok commits) (Ok reviews) (Ok comments) (Ok reviewRequests) order
  = Some (match details with
          | Ok detailedPR =>
              Ok (assign_parts detailedPR commits reviews comments reviewRequests)
          | Throw e => Throw e
          end).
Proof.
  unfold processPR. destruct details as [detailedPR|e]; [|done]. cbn [as_part].
  change [Ok (PartCommits commits); Ok (PartReviews reviews);
          Ok (PartComments comments); Ok (PartReviewRequests reviewRequests)]
    with (map (@Ok Part) [PartCommits commits; PartReviews reviews;
                          PartComments comments; PartReviewRequests reviewRequests]).
  by rewrite Promise_all_fulfilled.
Qed.

Lemma processPR_rejected commits reviews comments reviewRequests detailedPR :
  details = Ok detailedPR ->
  (exists e, In (Throw e) [as_part PartCommits commits; as_part PartReviews reviews;
                           as_part PartComments comments;
                           as_part PartReviewRequests reviewRequests]) ->
  exists e,
    processPR details commits reviews comments reviewRequests order = Some (Throw e)
    /\ In (Throw e) [as_part PartCommits commits; as_part PartReviews reviews;
                     as_part PartComments comments;
                     as_part PartReviewRequests reviewRequests].
Proof.
  intros -> [e0 He0]. unfold processPR.
  destruct (Promise_all_rejected
              [as_part PartCommits commits; as_part PartReviews reviews;
               as_part PartComments comments;
               as_part PartReviewRequests reviewRequests]
              order e0 every_promise_settles He0) as (e & -> & He).
  by exists e.
Qed.

End ProcessPRFacts.




Section ProcessPRFetcherFacts.

Variable details : Result PullRequest.t.
Variable commit_pages : nat -> Result (list RawCommit.t).
Variable commit_detail : string -> Result (option RawStats.t).
Variable line_pages : nat -> Result (list RawComment.t).
Variable issue_pages : nat -> Result (list RawComment.t).
Variable review_pages : nat -> Result (list RawReview.t).
Variable reviewRequests : list ReviewRequest.t.
Variable order : list nat.


(** X12. Without the cache, a pull request is lost with its details, its
    commits or its reviews.  The four promises settle, in any order, and
    the listings end or fail.  Then [processPR] returns the same record as
    the loop body of the sequential pipeline, and fails exactly when that
    one fails; the error it throws is the one of the details request, of
    the commits listing or of the reviews listing. *)
Theorem processPR_direct_result fuel commits reviews comments :
  Permutation order [0; 1; 2; 3]%nat ->
  fetchPullRequestCommits_direct commit_pages commit_detail fuel = Some commits ->
  fetchPullRequestReviews_direct review_pages fuel = Some reviews ->
  fetchPullRequestComments_direct line_pages issue_pages review_pages fuel
  = Some comments ->
  exists r,
    processPR_direct details commit_pages commit_detail line_pages issue_pages
      review_pages reviewRequests order fuel = Some r
    /\ (forall pr, r = Ok pr <->
          processPR_sequential details commits reviews (Ok comments)
            (Ok reviewRequests) = Ok pr)
    /\ (forall e, r = Throw e ->
          details = Throw e \/ commits = Throw e \/ reviews = Throw e)
    /\ ((exists e, r = Throw e) <->
        (exists e, details = Throw e \/ commits = Throw e \/ reviews = Throw e)).
Proof.
  intros Hsettle Hcommits Hreviews Hcomments. unfold processPR_direct.
  destruct details as [detailedPR|e0].
  2:{ exists (Throw e0). repeat split; try done; eauto. }
  rewrite Hcommits, Hreviews, Hcomments. cbn [mbind option_bind].
  clear Hcommits Hreviews Hcomments.
  destruct commits as [cs|e1], reviews as [rs|e2].
  - eexists. split; [by apply processPR_fulfilled|].
    cbn. repeat split; try done.
    + by intros [e He].
    + by intros [e [He|[He|He]]].
  - destruct (processPR_rejected (Ok detailedPR) order Hsettle (Ok cs) (Throw e2)
                (Ok comments) (Ok reviewRequests) detailedPR eq_refl)
      as (e & Hrun & He); [exists e2; cbn; auto|].
    exists (Throw e). split; [done|]. cbn in He |- *.
    decompose [or] He; try done. repeat split; try done; eauto.
    intros e' [= <-]. right. right. congruence.
  - destruct (processPR_rejected (Ok detailedPR) order Hsettle (Throw e1) (Ok rs)
                (Ok comments) (Ok reviewRequests) detailedPR eq_refl)
      as (e & Hrun & He); [exists e1; cbn; auto|].
    exists (Throw e). split; [done|]. cbn in He |- *.
    decompose [or] He; try done. repeat split; try done; eauto.
    intros e' [= <-]. right. left. congruence.
  - destruct (processPR_rejected (Ok detailedPR) order Hsettle (Throw e1) (Throw e2)
                (Ok comments) (Ok reviewRequests) detailedPR eq_refl)
      as (e & Hrun & He); [exists e1; cbn; auto|].
    exists (Throw e). split; [done|]. cbn in He |- *.
    decompose [or] He; try done; repeat split; try done; eauto.
    + intros e' [= <-]. right. left. congruence.
    + intros e' [= <-]. right. right. congruence.
Qed.

End ProcessPRFetcherFacts.


(** X12 on the same pull request when the listing of its reviews fails:
    the comments are returned without the review comments, and the pull
    request is lost all the same. *)
Lemma processPR_direct_result_witness :
  let commit_pages := one_page [sample_commit "abc1234"] in
  let line_pages := one_page [sample_comment 7 "nit"] in
  let issue_pages := one_page [sample_comment 8 "thanks"] in
  let review_pages := fun _ : nat => @Throw (list RawReview.t) server_error in
  Permutation [3; 2; 1; 0]%nat [0; 1; 2; 3]%nat
  /\ (exists commits,
        fetchPullRequestCommits_direct commit_pages stats_fail_for_9fceb02 2
        = Some (Ok commits))
  /\ fetchPullRequestReviews_direct review_pages 2 = Some (Throw server_error)
  /\ (exists comments,
        fetchPullRequestComments_direct line_pages issue_pages review_pages 2
        = Some comments /\ Comment.id <$> comments = [7; 8])
  /\ processPR_direct (scenario_processPR widgets (sample_pr 2 30)) commit_pages
       stats_fail_for_9fceb02 line_pages issue_pages review_pages [] [3; 2; 1; 0]%nat 2
     = Some (Throw server_error).
Proof.
  cbv zeta.
  assert (Hsettle : Permutation [3; 2; 1; 0]%nat [0; 1; 2; 3]%nat)
    by exact (Permutation_rev [3; 2; 1; 0]%nat).
  split; [exact Hsettle|]. split; [eexists; reflexivity|]. split; [reflexivity|].
  split; [eexists; split; reflexivity|].
  destruct (processPR_direct_result (scenario_processPR widgets (sample_pr 2 30))
              (one_page [sample_commit "abc1234"]) stats_fail_for_9fceb02
              (one_page [sample_comment 7 "nit"]) (one_page [sample_comment 8 "thanks"])
              (fun _ : nat => @Throw (list RawReview.t) server_error)
              [] [3; 2; 1; 0]%nat 2 _ _ _ Hsettle eq_refl eq_refl eq_refl)
    as (r & Hrun & _ & Hwhich & Hfails).
  destruct (proj2 Hfails) as [e ->]; [exists server_error; auto|].
  destruct (Hwhich e eq_refl) as [He|[He|He]]; try discriminate He.
  injection He as <-. exact Hrun.
Defined.

(* --------------------------------------------------------------------- *)
(** ** Start of the run *)
(* --------------------------------------------------------------------- *)

Lemma parse_digits_uint d : forall acc s,
  no_digit_ahead s ->
  parse_digits (NilEmpty.string_of_uint d ++ s) (Some acc) = Some (uint_value d acc).
Proof.
  induction d; intros acc s Hs; cbn [NilEmpty.string_of_uint uint_value];
    rewrite ?string_app_cons, ?string_app_nil;
    try (cbn [parse_digits digit_value]; cbn; by apply IHd).
  destruct s as [|c s]; [done|]. cbn in Hs. cbn [parse_digits]. by rewrite Hs.
Qed.

Lemma parse_digits_uint_first d s :
  d <> Nil -> no_digit_ahead s ->
  parse_digits (NilEmpty.string_of_uint d ++ s) None = Some (uint_value d 0).
Proof.
  intros Hd Hs. destruct d; [done|..];
    cbn [NilEmpty.string_of_uint uint_value]; rewrite string_app_cons;
    cbn [parse_digits digit_value]; cbn; by apply parse_digits_uint.
Qed.

Lemma uint_value_pos d : forall acc : positive,
  uint_value d (Z.pos acc) = Z.pos (Pos.of_uint_acc d acc).
Proof.
  induction d; intros acc; cbn [uint_value Pos.of_uint_acc]; [done|..];
    rewrite <- IHd; f_equal; lia.
Qed.

Lemma uint_value_0 d : uint_value d 0 = Z.of_N (Pos.of_uint d).
Proof.
  induction d; cbn [uint_value Pos.of_uint]; [done|exact IHd|..];
    exact (uint_value_pos d _).
Qed.

Lemma uint_value_to_uint p : uint_value (Pos.to_uint p) 0 = Z.pos p.
Proof. by rewrite uint_value_0, DecimalPos.Unsigned.of_to. Qed.

(** The decimal digits of a positive number, read by [parseInt]. *)
Lemma parseInt_digits p s :
  no_digit_ahead s ->
  parseInt (NilEmpty.string_of_uint (Pos.to_uint p) ++ s) = Some (Z.pos p).
Proof.
  intros Hs. rewrite <- uint_value_to_uint.
  pose proof (DecimalPos.Unsigned.to_uint_nonnil p) as Hnil.
  rewrite <- (parse_digits_uint_first _ s Hnil Hs).
  destruct (Pos.to_uint p); [done|..];
    cbn [NilEmpty.string_of_uint]; rewrite !string_app_cons; reflexivity.
Qed.

(** X13. [parseInt] reads back the decimal text of an integer that a JS
    number holds exactly, and ignores whatever follows its digits, provided
    that does not begin with a digit: [7], [7days] and [7.5] all give 7. *)
Theorem parseInt_reads_back n s :
  Z.abs n <= 2 ^ 53 ->
  no_digit_ahead s -> parseInt (string_of_Z n ++ s) = Some n.
Proof.
  intros _ Hs. unfold string_of_Z. destruct n as [|p|p]; cbn [Z.to_int NilEmpty.string_of_int].
  - cbn [N.to_uint Pos.to_uint NilEmpty.string_of_uint].
    rewrite string_app_cons, string_app_nil.
    transitivity (parse_digits s (Some 0)); [reflexivity|].
    destruct s as [|c s]; [done|]. cbn in Hs. cbn [parse_digits]. by rewrite Hs.
  - by apply parseInt_digits.
  - rewrite string_app_cons.
    transitivity (Z.opp <$> parse_digits (NilEmpty.string_of_uint (Pos.to_uint p) ++ s) None);
      [reflexivity|].
    pose proof (DecimalPos.Unsigned.to_uint_nonnil p) as Hnil.
    by rewrite (parse_digits_uint_first _ s Hnil Hs), uint_value_to_uint.
Qed.

(** X13 on the argument [30d]. *)
Lemma parseInt_reads_back_witness :
  Z.abs 30 <= 2 ^ 53 /\ no_digit_ahead "d" /\ parseInt "30d" = Some 30.
Proof.
  split; [by vm_compute|]. split; [reflexivity|].
  apply (parseInt_reads_back 30 "d"); [by vm_compute|reflexivity].
Defined.

Example parseInt_samples :
  map parseInt ["  42abc"; "-7"; "+3"; "abc"; "--force-cache"; ""; "-"; "0x10"; "12.5"]
  = [Some 42; Some (-7); Some 3; None; None; None; None; Some 0; Some 12].
Proof. reflexivity. Qed.

Lemma args_include_In args flag : args_include args flag = true <-> In flag args.
Proof.
  unfold args_include. rewrite existsb_exists. split.
  - by intros (x & Hx & ->%String.eqb_eq).
  - intros Hin. exists flag. by rewrite String.eqb_refl.
Qed.

(** X14. The run starts only with a positive number of days and with both
    credentials set and not empty: the first argument is read by
    [parseInt] and gives the number of days, and the token and the
    organisation are the two environment variables.  The cache is forced
    exactly when the flag [--force-cache] is among the arguments that
    follow the first: given as the first argument, the flag is taken for
    the number of days and the process exits. *)
Theorem startup_run args GH_TOKEN GH_ORG days forceCache token org :
  startup args GH_TOKEN GH_ORG = Run days forceCache token org ->
  0 < days
  /\ (exists first rest, args = first :: rest /\ parseInt first = Some days
        /\ (forceCache = true <-> In "--force-cache" rest))
  /\ GH_TOKEN = Some token /\ token <> EmptyString
  /\ GH_ORG = Some org /\ org <> EmptyString.
Proof.
  unfold startup. destruct args as [|first rest]; [done|].
  destruct (parseInt first) as [n|] eqn:Hdays; [|done].
  destruct (Z.leb_spec n 0) as [|Hpos]; [done|].
  destruct GH_TOKEN as [t|], GH_ORG as [o|]; try done.
  destruct (String.eqb_spec t EmptyString) as [|Ht]; [done|].
  destruct (String.eqb_spec o EmptyString) as [|Ho]; [done|].
  cbn [orb]. cbv zeta.
  remember (args_include (first :: rest) "--force-cache") as flag eqn:Hflag.
  intros [= <- <- <- <-]. split; [done|]. split; [|done].
  exists first, rest. split; [done|]. split; [done|].
  rewrite Hflag, args_include_In. split; [|by right].
  intros [->|Hin]; [|done]. by vm_compute in Hdays.
Qed.

(** X14 on a command line: 30 days, cache forced. *)
Lemma startup_run_witness :
  startup ["30"; "--force-cache"] (Some "ghp_token") (Some "acme")
  = Run 30 true "ghp_token" "acme"
  /\ 0 < 30
  /\ startup ["--force-cache"; "30"] (Some "ghp_token") (Some "acme") = Exit 1.
Proof.
  assert (Hrun : startup ["30"; "--force-cache"] (Some "ghp_token") (Some "acme")
                 = Run 30 true "ghp_token" "acme") by reflexivity.
  split; [exact Hrun|].
  split; [exact (proj1 (startup_run _ _ _ _ _ _ _ Hrun))|reflexivity].
Defined.

(* --------------------------------------------------------------------- *)
(** ** The name of the output file *)
(* --------------------------------------------------------------------- *)

Lemma replace_colons_and_dots_list s :
  list_ascii_of_string (replace_colons_and_dots s)
  = map dash_of (list_ascii_of_string s).
Proof. induction s as [|c s IH]; cbn; [done|]. by rewrite IH. Qed.

Lemma list_ascii_of_string_app (a b : string) :
  list_ascii_of_string (a ++ b) = list_ascii_of_string a ++ list_ascii_of_string b.
Proof.
  induction a as [|c a IH]; [done|]. rewrite string_app_cons. cbn. by rewrite IH.
Qed.

Lemma dash_of_not_colon c : dash_of c <> ":"%char /\ dash_of c <> "."%char.
Proof.
  unfold dash_of.
  destruct (Ascii.eqb_spec c ":") as [->|Hcolon]; [done|].
  destruct (Ascii.eqb_spec c ".") as [->|Hdot]; done.
Qed.

Lemma dash_of_digit c : is_digit c = true -> dash_of c = c.
Proof.
  unfold dash_of.
  destruct (Ascii.eqb_spec c ":") as [->|_]; [done|].
  destruct (Ascii.eqb_spec c ".") as [->|_]; done.
Qed.

(** At a position of the pattern, the replacement loses nothing. *)
Lemma iso_pattern_separates :
  Forall (fun p : ascii -> bool =>
            forall x y, p x = true -> p y = true -> dash_of x = dash_of y -> x = y)
    iso_pattern.
Proof.
  assert (Hdigit : forall x y, is_digit x = true -> is_digit y = true ->
                     dash_of x = dash_of y -> x = y).
  { intros x y Hx Hy. by rewrite !dash_of_digit. }
  assert (Hfixed : forall c x y, Ascii.eqb c x = true -> Ascii.eqb c y = true ->
                     dash_of x = dash_of y -> x = y).
  { intros c x y <-%Ascii.eqb_eq <-%Ascii.eqb_eq _. done. }
  unfold iso_pattern. repeat constructor; try exact Hdigit; by apply Hfixed.
Qed.

Lemma pattern_separates (ps : list (ascii -> bool)) :
  Forall (fun p : ascii -> bool =>
            forall x y, p x = true -> p y = true -> dash_of x = dash_of y -> x = y) ps ->
  forall a b,
  Forall2 (fun p c => p c = true) ps a ->
  Forall2 (fun p c => p c = true) ps b ->
  map dash_of a = map dash_of b -> a = b.
Proof.
  induction 1 as [|p ps Hp _ IH]; intros a b Ha Hb Hmap.
  - by apply Forall2_nil_inv_l in Ha as ->, Hb as ->.
  - apply Forall2_cons_inv_l in Ha as (x & a' & Hx & Ha' & ->).
    apply Forall2_cons_inv_l in Hb as (y & b' & Hy & Hb' & ->).
    injection Hmap as Hxy Hmap. f_equal; [by apply Hp|by apply IH].
Qed.

(** X15. The name of the output file.  Whatever the timestamp is, its
    colons and dots are replaced by dashes, one for one: the name holds no
    colon, and its only dot is the one of the extension.  Two timestamps of
    the shape [toISOString] gives that differ give different file names,
    so that a snapshot overwrites another only when both were generated in
    the same millisecond. *)
Theorem output_file_name_safe iso :
  String.length (output_file_name iso) = (String.length iso + 17)%nat
  /\ ~ In ":"%char (list_ascii_of_string (output_file_name iso))
  /\ count_occ ascii_dec (list_ascii_of_string (output_file_name iso)) "."%char = 1%nat
  /\ forall iso',
       is_iso_timestamp iso -> is_iso_timestamp iso' ->
       output_file_name iso = output_file_name iso' -> iso = iso'.
Proof.
  unfold output_file_name.
  assert (Hlist : list_ascii_of_string
                    ("github-data-" ++ replace_colons_and_dots iso ++ ".json")
                  = list_ascii_of_string "github-data-"
                    ++ map dash_of (list_ascii_of_string iso)
                    ++ list_ascii_of_string ".json").
  { by rewrite !list_ascii_of_string_app, replace_colons_and_dots_list. }
  assert (Hnone : forall c, c = ":"%char \/ c = "."%char ->
            count_occ ascii_dec (map dash_of (list_ascii_of_string iso)) c = 0%nat).
  { intros c Hc. apply count_occ_not_In. intros (x & Hx & _)%in_map_iff.
    destruct (dash_of_not_colon x). destruct Hc; congruence. }
  split; [|split; [|split]].
  - rewrite <- (string_of_list_ascii_of_string (_ ++ _ ++ _)), Hlist.
    rewrite string_of_list_ascii_length, !length_app, length_map.
    rewrite <- (string_of_list_ascii_of_string iso) at 2.
    rewrite string_of_list_ascii_length. cbn. lia.
  - rewrite Hlist. rewrite (count_occ_not_In ascii_dec), !count_occ_app, Hnone by auto.
    reflexivity.
  - rewrite Hlist, !count_occ_app, Hnone by auto. reflexivity.
  - intros iso' Hiso Hiso' Heq.
    apply (f_equal list_ascii_of_string) in Heq.
    rewrite Hlist, !list_ascii_of_string_app, replace_colons_and_dots_list in Heq.
    apply app_inv_head, app_inv_tail in Heq.
    apply (pattern_separates _ iso_pattern_separates _ _ Hiso Hiso') in Heq.
    rewrite <- (string_of_list_ascii_of_string iso),
            <- (string_of_list_ascii_of_string iso'). by rewrite Heq.
Qed.

(** X15 on two instants one millisecond apart. *)
Lemma output_file_name_safe_witness :
  is_iso_timestamp "2024-05-08T12:30:00.000Z"
  /\ is_iso_timestamp "2024-05-08T12:30:00.001Z"
  /\ output_file_name "2024-05-08T12:30:00.000Z"
     = "github-data-2024-05-08T12-30-00-000Z.json"
  /\ output_file_name "2024-05-08T12:30:00.000Z"
     <> output_file_name "2024-05-08T12:30:00.001Z".
Proof.
  assert (Ha : is_iso_timestamp "2024-05-08T12:30:00.000Z")
    by (repeat constructor).
  assert (Hb : is_iso_timestamp "2024-05-08T12:30:00.001Z")
    by (repeat constructor).
  split; [exact Ha|]. split; [exact Hb|]. split; [reflexivity|].
  intros Heq.
  pose proof (proj2 (proj2 (proj2 (output_file_name_safe "2024-05-08T12:30:00.000Z")))
                _ Ha Hb Heq) as Hsame.
  discriminate Hsame.
Defined.

(* --------------------------------------------------------------------- *)
(** ** Payloads *)
(* --------------------------------------------------------------------- *)

Lemma bind_Ok {A B : Type} (r : Result A) (f : A -> Result B) y :
  (x ← r; f x) = Ok y <-> exists x, r = Ok x /\ f x = Ok y.
Proof.
  destruct r as [a|e]; cbn; split.
  - intros H. by exists a.
  - by intros (x & [= ->] & H).
  - done.
  - by intros (x & H & _).
Qed.

Lemma get_Ok v k : nullish v = false -> get v k = Ok (read v k).
Proof. unfold get. by intros ->. Qed.

Lemma get_Throw v k : nullish v = true -> get v k = Throw (cannot_read v k).
Proof. unfold get. by intros ->. Qed.

Lemma user_object_Ok u :
  nullish u = false ->
  user_object u = Ok (JObj [("login", read u "login"); ("id", read u "id");
                            ("avatar_url", read u "avatar_url");
                            ("html_url", read u "html_url")]).
Proof. intros Hu. unfold user_object. by rewrite !get_Ok. Qed.

Lemma user_object_is_Ok u : is_Ok (user_object u) <-> nullish u = false.
Proof.
  split.
  - intros [y Hy]. destruct (nullish u) eqn:Hl; [|done].
    unfold user_object, get in Hy. rewrite Hl in Hy. by cbn in Hy.
  - intros Hu. rewrite user_object_Ok by done. by eexists.
Qed.

Lemma label_object_is_Ok label : is_Ok (label_object label) <-> nullish label = false.
Proof.
  split.
  - intros [y Hy]. destruct (nullish label) eqn:Hl; [|done].
    unfold label_object, get in Hy. rewrite Hl in Hy. by cbn in Hy.
  - intros Hl. unfold label_object. rewrite !get_Ok by done. by eexists.
Qed.

Lemma branch_object_Ok branch :
  nullish branch = false ->
  branch_object branch
  = Ok (JObj [("ref", read branch "ref"); ("sha", read branch "sha");
              ("repo", repo_object (read branch "repo"))]).
Proof. intros Hb. unfold branch_object. by rewrite !get_Ok. Qed.

Lemma branch_object_is_Ok branch : is_Ok (branch_object branch) <-> nullish branch = false.
Proof.
  split.
  - intros [y Hy]. destruct (nullish branch) eqn:Hl; [|done].
    unfold branch_object, get in Hy. rewrite Hl in Hy. by cbn in Hy.
  - intros Hb. rewrite branch_object_Ok by done. by eexists.
Qed.

Lemma mapM_is_Ok (f : JsValue -> Result JsValue) items :
  (forall x, is_Ok (f x) <-> nullish x = false) ->
  is_Ok (mapM f items) <-> forallb (fun x => negb (nullish x)) items = true.
Proof.
  intros Hf. induction items as [|x items IH]; cbn [mapM forallb].
  - split; [done|]. intros _. by exists [].
  - rewrite andb_true_iff, negb_true_iff, <- IH, <- Hf. split.
    + intros [ys Hys]. apply bind_Ok in Hys as (y & Hy & Hys).
      apply bind_Ok in Hys as (k & Hk & _). split; by eexists.
    + intros [[y Hy] [k Hk]]. exists (y :: k). by rewrite Hy, Hk.
Qed.

Lemma array_map_is_Ok (f : JsValue -> Result JsValue) v :
  (forall x, is_Ok (f x) <-> nullish x = false) ->
  is_Ok (array_map f (or_else v (JArr []))) <-> mappable v = true.
Proof.
  intros Hf. unfold or_else, mappable. destruct (truthy v) eqn:Hv.
  - destruct v; try (split; [by intros [? ?]|done]).
    cbn [array_map]. rewrite <- (mapM_is_Ok f) by done. split.
    + intros [y Hy]. apply bind_Ok in Hy as (k & Hk & _). by exists k.
    + intros [k Hk]. rewrite Hk. by eexists.
  - split; [done|]. intros _. by eexists.
Qed.

Lemma is_Ok_Ok {A : Type} (a : A) : is_Ok (Ok a).
Proof. by exists a. Qed.

Lemma is_Ok_Throw {A : Type} (e : JsError) : ~ is_Ok (@Throw A e).
Proof. by intros [a Ha]. Qed.

(** The formatter on a payload that is not nullish: the reads of the
    payload itself cannot throw. *)
Lemma pull_request_object_reads pr additions deletions changed_files :
  nullish pr = false ->
  pull_request_object pr additions deletions changed_files
  = (assignees ← array_map user_object (or_else (read pr "assignees") (JArr []));
     requested_reviewers ←
       array_map user_object (or_else (read pr "requested_reviewers") (JArr []));
     labels ← array_map label_object (or_else (read pr "labels") (JArr []));
     head ← branch_object (read pr "head");
     base ← branch_object (read pr "base");
     Ok (JObj [("id", read pr "id"); ("number", read pr "number");
               ("title", read pr "title");
               ("user", author_object (read pr "user")); ("state", read pr "state");
               ("created_at", read pr "created_at");
               ("updated_at", read pr "updated_at");
               ("closed_at", read pr "closed_at"); ("merged_at", read pr "merged_at");
               ("merge_commit_sha", read pr "merge_commit_sha");
               ("assignees", assignees);
               ("requested_reviewers", requested_reviewers); ("labels", labels);
               ("draft", or_else (read pr "draft") (JBool false));
               ("head", head); ("base", base);
               ("html_url", read pr "html_url"); ("commits", JArr []);
               ("reviews", JArr []); ("review_requests", JArr []);
               ("comments", JArr []); ("additions", additions);
               ("deletions", deletions); ("changed_files", changed_files)])).
Proof.
  intros Hpr. unfold pull_request_object, get. rewrite Hpr. cbn [mbind Result_bind].
  repeat (destruct (array_map _ _); cbn [mbind Result_bind]; [|reflexivity]).
  repeat (destruct (branch_object _); cbn [mbind Result_bind]; [|reflexivity]).
  reflexivity.
Qed.

Lemma pull_request_object_spec pr additions deletions changed_files :
  (is_Ok (pull_request_object pr additions deletions changed_files)
   <-> formattable pr = true)
  /\ forall out,
       pull_request_object pr additions deletions changed_files = Ok out ->
       read out "commits" = JArr [] /\ read out "reviews" = JArr []
       /\ read out "review_requests" = JArr [] /\ read out "comments" = JArr []
       /\ read out "additions" = additions /\ read out "deletions" = deletions
       /\ read out "changed_files" = changed_files
       /\ (nullish (read pr "user") = true ->
           read out "user"
           = JObj [("login", JStr "unknown"); ("id", JNum 0);
                   ("avatar_url", JStr EmptyString); ("html_url", JStr EmptyString)])
       /\ (nullish (read (read pr "head") "repo") = true ->
           read (read out "head") "repo"
           = JObj [("id", JNum 0); ("name", JStr EmptyString);
                   ("full_name", JStr EmptyString); ("html_url", JStr EmptyString)]).
Proof.
  unfold formattable. destruct (nullish pr) eqn:Hpr.
  { assert (Hthrow : pull_request_object pr additions deletions changed_files
                     = Throw (cannot_read pr "id")).
    { unfold pull_request_object, get. by rewrite Hpr. }
    rewrite Hthrow. split; [|done]. split; [by intros []%is_Ok_Throw|done]. }
  rewrite pull_request_object_reads by done. cbn [negb andb].
  pose proof (array_map_is_Ok user_object (read pr "assignees") user_object_is_Ok) as Ha.
  pose proof (array_map_is_Ok user_object (read pr "requested_reviewers")
                user_object_is_Ok) as Hr.
  pose proof (array_map_is_Ok label_object (read pr "labels") label_object_is_Ok) as Hl.
  pose proof (branch_object_is_Ok (read pr "head")) as Hh.
  pose proof (branch_object_is_Ok (read pr "base")) as Hb.
  pose proof (branch_object_Ok (read pr "head")) as Hhead.
  destruct (array_map user_object (or_else (read pr "assignees") (JArr [])))
    as [assignees|e].
  2:{ split; [|done]. split; [by intros []%is_Ok_Throw|].
      rewrite !andb_true_iff. intros ((((Hm1 & Hm2) & Hm3) & Hm4) & Hm5).
      by apply Ha, is_Ok_Throw in Hm1. }
  destruct (array_map user_object (or_else (read pr "requested_reviewers") (JArr [])))
    as [requested_reviewers|e].
  2:{ split; [|done]. split; [by intros []%is_Ok_Throw|].
      rewrite !andb_true_iff. intros ((((Hm1 & Hm2) & Hm3) & Hm4) & Hm5).
      by apply Hr, is_Ok_Throw in Hm2. }
  destruct (array_map label_object (or_else (read pr "labels") (JArr [])))
    as [labels|e].
  2:{ split; [|done]. split; [by intros []%is_Ok_Throw|].
      rewrite !andb_true_iff. intros ((((Hm1 & Hm2) & Hm3) & Hm4) & Hm5).
      by apply Hl, is_Ok_Throw in Hm3. }
  destruct (branch_object (read pr "head")) as [head|e].
  2:{ split; [|done]. split; [by intros []%is_Ok_Throw|].
      rewrite !andb_true_iff. intros ((((Hm1 & Hm2) & Hm3) & Hm4) & Hm5).
      by apply negb_true_iff, Hh, is_Ok_Throw in Hm4. }
  destruct (branch_object (read pr "base")) as [base|e].
  2:{ split; [|done]. split; [by intros []%is_Ok_Throw|].
      rewrite !andb_true_iff. intros ((((Hm1 & Hm2) & Hm3) & Hm4) & Hm5).
      by apply negb_true_iff, Hb, is_Ok_Throw in Hm5. }
  cbn [mbind Result_bind]. split.
  - split; [intros _|intros _; apply is_Ok_Ok].
    rewrite (proj1 Ha), (proj1 Hr), (proj1 Hl), (proj1 Hh), (proj1 Hb);
      [done|apply is_Ok_Ok..].
  - intros out [= <-]. do 7 (split; [reflexivity|]). split.
    + intros Huser. cbn. unfold author_object, get_optional. by rewrite Huser.
    + intros Hrepo. specialize (Hhead (proj1 Hh (is_Ok_Ok _))).
      injection Hhead as ->. cbn. unfold repo_object, get_optional. by rewrite Hrepo.
Qed.

(** X16. The payloads a pull request is formatted from.  The formatter
    shared by [fetchPullRequestDetails] and [formatPullRequest] returns
    unless it is given null or undefined, a list of assignees, requested
    reviewers or labels that is truthy and not an array or that holds a
    null, or a payload without [head] or [base].  What it returns has four
    empty lists of commits, reviews, review requests and comments; an
    author that is absent (a deleted account) is formatted as the user
    [unknown] with id 0, and a head repository that is absent (a deleted
    fork) as a repository of id 0 and empty names. *)
Theorem pull_request_object_formattable pr additions deletions changed_files :
  (is_Ok (pull_request_object pr additions deletions changed_files)
   <-> formattable pr = true)
  /\ forall out,
       pull_request_object pr additions deletions changed_files = Ok out ->
       read out "commits" = JArr [] /\ read out "reviews" = JArr []
       /\ read out "review_requests" = JArr [] /\ read out "comments" = JArr []
       /\ (nullish (read pr "user") = true ->
           read out "user"
           = JObj [("login", JStr "unknown"); ("id", JNum 0);
                   ("avatar_url", JStr EmptyString); ("html_url", JStr EmptyString)])
       /\ (nullish (read (read pr "head") "repo") = true ->
           read (read out "head") "repo"
           = JObj [("id", JNum 0); ("name", JStr EmptyString);
                   ("full_name", JStr EmptyString); ("html_url", JStr EmptyString)]).
Proof.
  destruct (pull_request_object_spec pr additions deletions changed_files)
    as [Hok Hout].
  split; [exact Hok|]. intros out Hrun.
  destruct (Hout out Hrun) as (? & ? & ? & ? & _ & _ & _ & ? & ?). done.
Qed.



(* --------------------------------------------------------------------- *)
(** ** Review requests and repositories *)
(* --------------------------------------------------------------------- *)

Lemma review_request_object_direct_Ok user :
  nullish user = false ->
  review_request_object_direct user
  = Ok (JObj [("user", JObj [("login", read user "login"); ("id", read user "id");
                             ("avatar_url", read user "avatar_url");
                             ("html_url", read user "html_url")]);
              ("requested_at", JUndefined)]).
Proof. intros Hu. unfold review_request_object_direct. by rewrite user_object_Ok. Qed.

Lemma review_request_object_direct_is_Ok user :
  is_Ok (review_request_object_direct user) <-> nullish user = false.
Proof.
  split.
  - intros [y Hy]. apply bind_Ok in Hy as (u & Hu & _).
    apply user_object_is_Ok. by exists u.
  - intros Hu. rewrite review_request_object_direct_Ok by done. apply is_Ok_Ok.
Qed.

Lemma mapM_Forall2 (f : JsValue -> Result JsValue) items ys :
  mapM f items = Ok ys <-> Forall2 (fun x y => f x = Ok y) items ys.
Proof.
  revert ys. induction items as [|x items IH]; intros ys; cbn [mapM].
  - split; [intros [= <-]; constructor|by intros ->%Forall2_nil_inv_l].
  - split.
    + intros (y & Hy & Hk)%bind_Ok. apply bind_Ok in Hk as (k & Hk & [= <-]).
      constructor; [done|by apply IH].
    + intros (y & k & Hy & Hk & ->)%Forall2_cons_inv_l.
      apply IH in Hk. by rewrite Hy, Hk.
Qed.

(** X18. Review requests, in the two variants, from the same answer.
    When the request fails or its answer has no array of users, both give
    no review request.  When the answer has the array [items] of users, the
    cached pipeline gives one review request for each item that is truthy,
    in order, and skips the others; the pipeline without cache gives one
    for each item when none of them is null or undefined, and none at all
    as soon as one is. *)
Theorem review_requests_variants answer :
  match answer with
  | Ok data =>
      match read data "users" with
      | JArr items =>
          review_requests_of answer
          = map review_request_object (List.filter truthy items)
          /\ (forallb (fun u => negb (nullish u)) items = true ->
              Forall2 (fun u request => review_request_object_direct u = Ok request)
                items (fetchReviewRequests_direct answer))
          /\ (forallb (fun u => negb (nullish u)) items = false ->
              fetchReviewRequests_direct answer = [])
      | _ => review_requests_of answer = [] /\ fetchReviewRequests_direct answer = []
      end
  | Throw _ => review_requests_of answer = [] /\ fetchReviewRequests_direct answer = []
  end.
Proof.
  destruct answer as [data|e]; [|done].
  unfold review_requests_of, fetchReviewRequests_direct, get. cbn [mbind Result_bind].
  destruct (nullish data) eqn:Hdata.
  { destruct data; try done. }
  cbn [mbind Result_bind].
  destruct (read data "users") as [ | | | | | |items| ] eqn:Husers; try done.
  cbn [requested_users array_map]. split; [done|].
  pose proof (mapM_is_Ok review_request_object_direct items
                review_request_object_direct_is_Ok) as Hall.
  destruct (mapM review_request_object_direct items) as [requests|e] eqn:Hmap.
  - cbn [mbind Result_bind]. split.
    + intros _. by apply mapM_Forall2.
    + intros Hnull. rewrite (proj1 Hall (is_Ok_Ok _)) in Hnull. done.
  - cbn [mbind Result_bind]. split; [|done].
    intros Hnone. by apply Hall, is_Ok_Throw in Hnone.
Qed.

Lemma repository_object_Ok repo :
  nullish repo = false -> exists out, repository_object repo = Ok out.
Proof. intros Hr. unfold repository_object, get. rewrite Hr. cbn. by eexists. Qed.

Lemma repository_object_is_Ok repo : is_Ok (repository_object repo) <-> nullish repo = false.
Proof.
  split.
  - intros [y Hy]. destruct (nullish repo) eqn:Hr; [|done].
    unfold repository_object, get in Hy. rewrite Hr in Hy. by cbn in Hy.
  - apply repository_object_Ok.
Qed.

Lemma or_else_truthy a b : truthy b = true -> truthy (or_else a b) = true.
Proof. intros Hb. unfold or_else. by destruct (truthy a) eqn:Ha. Qed.

(** X19. What a repository is formatted to.  An item of the listing is
    formatted unless it is null or undefined.  The repository made of it
    has no pull request yet, always has a list of topics, a visibility and
    a default branch, [public] and [main] standing for those the payload
    lacks; its license is null when the payload has none, and otherwise has
    its four attributes, the empty string standing for those that are
    absent. *)
Theorem repository_object_defaults repo :
  (is_Ok (repository_object repo) <-> nullish repo = false)
  /\ forall out,
       repository_object repo = Ok out ->
       read out "name" = read repo "name"
       /\ read out "pull_requests" = JArr []
       /\ read out "topics" = or_else (read repo "topics") (JArr [])
       /\ read out "visibility" = or_else (read repo "visibility") (JStr "public")
       /\ read out "default_branch"
          = or_else (read repo "default_branch") (JStr "main")
       /\ truthy (read out "topics") = true
       /\ truthy (read out "visibility") = true
       /\ truthy (read out "default_branch") = true
       /\ (truthy (read repo "license") = false -> read out "license" = JNull)
       /\ (truthy (read repo "license") = true ->
           forall k, In k ["key"; "name"; "spdx_id"; "url"] ->
             read (read out "license") k
             = or_else (read (read repo "license") k) (JStr EmptyString)).
Proof.
  split; [apply repository_object_is_Ok|].
  intros out Hout. destruct (nullish repo) eqn:Hr.
  { unfold repository_object, get in Hout. rewrite Hr in Hout. by cbn in Hout. }
  unfold repository_object, get in Hout. rewrite Hr in Hout.
  cbn [mbind Result_bind] in Hout. injection Hout as <-.
  do 5 (split; [reflexivity|]).
  split; [by apply or_else_truthy|]. split; [by apply or_else_truthy|].
  split; [by apply or_else_truthy|]. split.
  - intros Hl. cbn. unfold license_object. by rewrite Hl.
  - intros Hl k Hk. cbn [read own_property String.eqb Ascii.eqb Bool.eqb].
    unfold license_object. rewrite Hl.
    cbn in Hk. decompose [or] Hk; subst; try reflexivity. done.
Qed.

Section PayloadFetcherFacts.

Variable JSON_parse : string -> option JsValue.
Variable JSON_stringify_indented : JsValue -> option string.
Variable octokit_request : World -> string -> JsValue -> Result JsValue.

Abbreviation client :=
  (cachedRequest JSON_parse JSON_stringify_indented octokit_request).
Abbreviation details :=
  (fetchPullRequestDetails JSON_parse JSON_stringify_indented octokit_request).
Abbreviation review_requests :=
  (fetchReviewRequests JSON_parse JSON_stringify_indented octokit_request).
Abbreviation repositories_loop :=
  (fetchRepositories_loop JSON_parse JSON_stringify_indented octokit_request).
Abbreviation repositories :=
  (fetchRepositories JSON_parse JSON_stringify_indented octokit_request).

Lemma client_forced w method url params ttlDays retryCount w' r :
  client w method url params ttlDays retryCount true = Some (w', r) -> w' = w.
Proof.
  intros Hrun. by apply cachedRequest_footprint in Hrun as [->|[Hforce _]].
Qed.

Lemma fetchRepositories_loop_forced fuel : forall w org page acc w' out,
  repositories_loop fuel w org true page acc = Some (w', out) -> w' = w.
Proof.
  induction fuel as [|fuel IH]; intros w org page acc w' out; [done|].
  cbn [fetchRepositories_loop].
  destruct (client w "GET" "/orgs/{org}/repos" (repositories_params org page) 7 0 true)
    as [[w1 answer]|] eqn:Hclient; [|done].
  apply client_forced in Hclient as ->. cbn [mbind option_bind].
  repeat case_match; try (by intros [= <- _]); apply IH.
Qed.

(** X20. Forced mode is offline.  With the cache forced, the details of a
    pull request, its review requests and the listing of the repositories
    are obtained without any call of the remote end, any wait or any
    write: the world is left as it was, whatever is in the cache and
    whatever the remote end would answer. *)
Theorem forced_mode_is_offline w owner repo pull_number org fuel :
  (forall w' r,
     fetchPullRequestDetails JSON_parse JSON_stringify_indented octokit_request
       w owner repo pull_number true = Some (w', r) -> w' = w)
  /\ (forall w' requests,
        fetchReviewRequests JSON_parse JSON_stringify_indented octokit_request
          w owner repo pull_number true = Some (w', requests) -> w' = w)
  /\ (forall w' repos,
        fetchRepositories JSON_parse JSON_stringify_indented octokit_request
          fuel w org true = Some (w', repos) -> w' = w).
Proof.
  split; [|split].
  - intros w' r. unfold fetchPullRequestDetails.
    destruct (client w _ _ _ 7 0 true) as [[w1 answer]|] eqn:Hclient; [|done].
    apply client_forced in Hclient as ->. by intros [= <- _].
  - intros w' requests. unfold fetchReviewRequests.
    destruct (client w _ _ _ 7 0 true) as [[w1 answer]|] eqn:Hclient; [|done].
    apply client_forced in Hclient as ->. by intros [= <- _].
  - intros w' repos. apply fetchRepositories_loop_forced.
Qed.

Lemma push_each_all items : forall out,
  Forall (fun x => nullish x = false) items ->
  exists formatted,
    mapM repository_object items = Ok formatted
    /\ push_each repository_object items out = (out ++ formatted, None).
Proof.
  induction items as [|x items IH]; intros out Hall.
  - exists []. by rewrite app_nil_r.
  - apply Forall_cons in Hall as [Hx Hall].
    destruct (repository_object_Ok x Hx) as [y Hy].
    destruct (IH (out ++ [y]) Hall) as (formatted & Hmap & Hpush).
    exists (y :: formatted). cbn [mapM push_each]. rewrite Hy, Hmap, Hpush.
    by rewrite <- app_assoc.
Qed.

Lemma mapM_app (f : JsValue -> Result JsValue) a b ya yb :
  mapM f a = Ok ya -> mapM f b = Ok yb -> mapM f (a ++ b) = Ok (ya ++ yb).
Proof.
  rewrite !mapM_Forall2. apply Forall2_app.
Qed.

Abbreviation page_key org page :=
  (generateCacheKey "GET" "/orgs/{org}/repos" (repositories_params org page)).

(** The listing when its pages are in the cache. *)
Lemma fetchRepositories_loop_cached pages : forall fuel w org force page acc,
  Forall (fun items => items <> [] /\ Forall (fun x => nullish x = false) items) pages ->
  (forall i items, pages !! i = Some items ->
     getCachedData JSON_parse w (page_key org (page + i)) 7 force = JArr items) ->
  (getCachedData JSON_parse w (page_key org (page + length pages)) 7 force = JArr []
   \/ force = true
      /\ truthy (getCachedData JSON_parse w (page_key org (page + length pages)) 7 true)
         = false) ->
  (length pages < fuel)%nat ->
  exists formatted,
    mapM repository_object (concat pages) = Ok formatted
    /\ repositories_loop fuel w org force page acc = Some (w, acc ++ formatted).
Proof.
  induction pages as [|items pages IH]; intros fuel w org force page acc Hpages Hhits Hend Hfuel;
    (destruct fuel as [|fuel]; [cbn in Hfuel; lia|]); cbn [fetchRepositories_loop].
  - exists []. rewrite app_nil_r. split; [done|].
    cbn [length] in Hend. rewrite Nat.add_0_r in Hend.
    destruct Hend as [Hempty|[-> Hmiss]].
    + unfold cachedRequest. by rewrite (cachedRequest_rec_hit _ _ _ _ _ _ _ _ _ _ _ _ Hempty).
    + unfold cachedRequest. by rewrite cachedRequest_rec_forced_miss.
  - apply Forall_cons in Hpages as [[Hne Hitems] Hpages].
    pose proof (Hhits 0%nat items eq_refl) as Hhit. rewrite Nat.add_0_r in Hhit.
    unfold cachedRequest.
    rewrite (cachedRequest_rec_hit _ _ _ _ _ _ _ _ _ _ _ _ Hhit eq_refl).
    cbn [mbind option_bind Result_bind get nullish read String.eqb Ascii.eqb Bool.eqb].
    destruct items as [|x items]; [done|]. cbn [length Z.of_nat].
    destruct (push_each_all (x :: items) acc Hitems) as (ys & Hmap & Hpush).
    rewrite Hpush.
    destruct (IH fuel w org force (S page) (acc ++ ys)) as (formatted & Hrest & Hrun);
      [done| | |cbn in Hfuel; lia|].
    { intros i d Hd. rewrite Nat.add_succ_l, <- Nat.add_succ_r. by apply Hhits. }
    { cbn [length] in Hend. by rewrite Nat.add_succ_l, <- Nat.add_succ_r. }
    exists (ys ++ formatted). split.
    + change (concat ((x :: items) :: pages)) with ((x :: items) ++ concat pages).
      by apply mapM_app.
    + unfold cachedRequest in Hrun. by rewrite Hrun, app_assoc.
Qed.

(** X21. The listing of the repositories from the cache.  The cache
    serves the pages 1, 2, ... of the listing with the non-empty arrays
    [pages], whose items are not null, and for the page after them it
    serves an empty array or, the cache being forced, has nothing to serve.
    Then [fetchRepositories] returns the formatted items of these pages, in
    order, and leaves the world as it was: no call, no wait, no write.  In
    forced mode the page that is missing from the cache ends the listing
    like an empty page would, without an error. *)
Theorem fetchRepositories_from_cache fuel w org force pages :
  Forall (fun items => items <> [] /\ Forall (fun x => nullish x = false) items) pages ->
  (forall i items, pages !! i = Some items ->
     getCachedData JSON_parse w (page_key org (S i)) 7 force = JArr items) ->
  (getCachedData JSON_parse w (page_key org (S (length pages))) 7 force = JArr []
   \/ force = true
      /\ truthy (getCachedData JSON_parse w (page_key org (S (length pages))) 7 true)
         = false) ->
  (length pages < fuel)%nat ->
  exists formatted,
    mapM repository_object (concat pages) = Ok formatted
    /\ repositories fuel w org force = Some (w, formatted).
Proof.
  intros Hpages Hhits Hend Hfuel.
  by apply (fetchRepositories_loop_cached pages fuel w org force 1 []).
Qed.

End PayloadFetcherFacts.

(** X16 on a pull request without author and without head repository. *)
Lemma pull_request_object_formattable_witness :
  formattable orphan_pull_request = true
  /\ exists out,
       format_details orphan_pull_request = Ok out
       /\ read (read out "user") "login" = JStr "unknown"
       /\ read (read (read out "head") "repo") "id" = JNum 0
       /\ read out "additions" = JNum 10 /\ read out "deletions" = JNum 0.
Proof.
  assert (Hok : formattable orphan_pull_request = true) by reflexivity.
  split; [exact Hok|].
  destruct (pull_request_object_formattable orphan_pull_request
              (count_or_zero orphan_pull_request "additions")
              (count_or_zero orphan_pull_request "deletions")
              (count_or_zero orphan_pull_request "changed_files")) as [Hiff Hout].
  destruct (proj2 Hiff Hok) as [out Hrun]. exists out. split; [exact Hrun|].
  destruct (Hout out Hrun) as (_ & _ & _ & _ & Huser & Hrepo).
  rewrite (Huser eq_refl), (Hrepo eq_refl).
  split; [reflexivity|]. split; [reflexivity|].
  unfold pull_request_object in Hrun. vm_compute in Hrun. injection Hrun as <-.
  split; reflexivity.
Defined.


(** X18 on an answer that lists a user and a null. *)
Lemma review_requests_variants_witness :
  review_requests_of (Ok requested_reviewers_payload)
  = [review_request_object octocat_payload]
  /\ fetchReviewRequests_direct (Ok requested_reviewers_payload) = [].
Proof.
  pose proof (review_requests_variants (Ok requested_reviewers_payload)) as H.
  cbn in H. destruct H as (Hcached & _ & Hdirect).
  split; [exact Hcached|exact (Hdirect eq_refl)].
Defined.

(** X19 on a repository whose payload has no license, no visibility and no
    default branch. *)
Lemma repository_object_defaults_witness :
  nullish widgets_payload = false
  /\ exists out,
       repository_object widgets_payload = Ok out
       /\ read out "name" = JStr "widgets"
       /\ read out "visibility" = JStr "public"
       /\ read out "default_branch" = JStr "main"
       /\ read out "license" = JNull.
Proof.
  split; [reflexivity|].
  destruct (repository_object_defaults widgets_payload) as [Hiff Hout].
  destruct (proj2 Hiff eq_refl) as [out Hrun]. exists out. split; [exact Hrun|].
  destruct (Hout out Hrun) as (Hname & _ & _ & Hvis & Hbranch & _ & _ & _ & Hlicense & _).
  split; [exact Hname|]. split; [exact Hvis|]. split; [exact Hbranch|].
  exact (Hlicense eq_refl).
Defined.

(** X20 on an empty cache: the details of a pull request are not fetched,
    and nothing is touched. *)
Lemma forced_mode_is_offline_witness :
  exists r,
    fetchPullRequestDetails sample_parse JSON_stringify always_empty_page
      empty_world "acme" "widgets" 1 true = Some (empty_world, r).
Proof.
  destruct (fetchPullRequestDetails sample_parse JSON_stringify always_empty_page
              empty_world "acme" "widgets" 1 true) as [[w' r]|] eqn:Hrun.
  - destruct (forced_mode_is_offline sample_parse JSON_stringify always_empty_page
                empty_world "acme" "widgets" 1 "acme" 1) as (Hdetails & _ & _).
    rewrite (Hdetails w' r Hrun). by exists r.
  - vm_compute in Hrun. discriminate Hrun.
Defined.

(** X21 on a forced run whose cache holds the first page of the listing
    only: the listing ends there. *)
Lemma fetchRepositories_from_cache_witness :
  Forall (fun items => items <> [] /\ Forall (fun x => nullish x = false) items)
    [[widgets_payload]]
  /\ (forall i items, [[widgets_payload]] !! i = Some items ->
        getCachedData listing_parse world_with_first_page
          (generateCacheKey "GET" "/orgs/{org}/repos" (repositories_params "acme" (S i)))
          7 true = JArr items)
  /\ truthy (getCachedData listing_parse world_with_first_page
               (generateCacheKey "GET" "/orgs/{org}/repos"
                  (repositories_params "acme" 2)) 7 true) = false
  /\ exists formatted,
       mapM repository_object [widgets_payload] = Ok formatted
       /\ fetchRepositories listing_parse JSON_stringify always_rate_limited
            5 world_with_first_page "acme" true
          = Some (world_with_first_page, formatted).
Proof.
  assert (Hpages : Forall (fun items => items <> []
                             /\ Forall (fun x => nullish x = false) items)
                     [[widgets_payload]]) by (repeat constructor; discriminate).
  assert (Hhits : forall i items, [[widgets_payload]] !! i = Some items ->
            getCachedData listing_parse world_with_first_page
              (generateCacheKey "GET" "/orgs/{org}/repos"
                 (repositories_params "acme" (S i))) 7 true = JArr items).
  { intros [|i] items; cbn; [|done]. intros [= <-]. vm_compute. reflexivity. }
  assert (Hend : truthy (getCachedData listing_parse world_with_first_page
                           (generateCacheKey "GET" "/orgs/{org}/repos"
                              (repositories_params "acme" 2)) 7 true) = false)
    by (vm_compute; reflexivity).
  split; [exact Hpages|]. split; [exact Hhits|]. split; [exact Hend|].
  exact (fetchRepositories_from_cache listing_parse JSON_stringify always_rate_limited
           5 world_with_first_page "acme" true [[widgets_payload]] Hpages Hhits
           (or_intror (conj eq_refl Hend)) ltac:(cbn; lia)).
Defined.

(* --------------------------------------------------------------------- *)
(** ** Private repositories first *)
(* --------------------------------------------------------------------- *)

Section AllRepositoriesFacts.

Variable repos_page : nat -> Result (list JsValue).

Lemma fetchAllRepositories_private_pages pages : forall fuel page acc total,
  Forall (fun data => data <> [] /\ Forall (fun x => nullish x = false) data) pages ->
  (forall i data, pages !! i = Some data -> repos_page (page + i) = Ok data) ->
  (repos_page (page + length pages) = Ok []
   \/ exists e, repos_page (page + length pages) = Throw e) ->
  (length pages < fuel)%nat ->
  fetchAllRepositories_private repos_page fuel page acc total
  = Some (acc ++ map private_repository (List.filter is_private (concat pages)),
          total + Z.of_nat (length (concat pages))).
Proof.
  induction pages as [|data pages IH]; intros fuel page acc total Hpages Hans Hend Hfuel;
    (destruct fuel as [|fuel]; [cbn in Hfuel; lia|]);
    cbn [fetchAllRepositories_private length concat].
  - rewrite Nat.add_0_r in Hend. rewrite app_nil_r.
    destruct Hend as [->|[e ->]]; cbn; do 2 f_equal; lia.
  - pose proof (Hans 0%nat data eq_refl) as Hhead. rewrite Nat.add_0_r in Hhead.
    rewrite Hhead. apply Forall_cons in Hpages as [[Hne Hitems] Hpages].
    destruct data as [|x data]; [done|]. cbn [length Nat.eqb].
    assert (Hall : forallb (fun repo => negb (nullish repo)) (x :: data) = true).
    { apply forallb_forall. intros y Hy. rewrite List.Forall_forall in Hitems.
      by rewrite (Hitems y Hy). }
    rewrite Hall, IH; [|done| | |cbn in Hfuel; lia].
    + rewrite List.filter_app, map_app, length_app, <- app_assoc.
      do 2 f_equal. cbn [length]. lia.
    + intros i d Hd. rewrite Nat.add_succ_l, <- Nat.add_succ_r. by apply Hans.
    + by rewrite Nat.add_succ_l, <- Nat.add_succ_r.
Qed.

Lemma fetchAllRepositories_any_pages pages : forall fuel page acc,
  Forall (fun data => data <> [] /\ Forall (fun x => nullish x = false) data) pages ->
  (forall i data, pages !! i = Some data -> repos_page (page + i) = Ok data) ->
  (repos_page (page + length pages) = Ok []
   \/ exists e, repos_page (page + length pages) = Throw e) ->
  (length pages < fuel)%nat ->
  fetchAllRepositories_any repos_page fuel page acc
  = Some (acc ++ map any_repository (concat pages)).
Proof.
  induction pages as [|data pages IH]; intros fuel page acc Hpages Hans Hend Hfuel;
    (destruct fuel as [|fuel]; [cbn in Hfuel; lia|]);
    cbn [fetchAllRepositories_any length concat].
  - rewrite Nat.add_0_r in Hend. rewrite app_nil_r.
    by destruct Hend as [->|[e ->]].
  - pose proof (Hans 0%nat data eq_refl) as Hhead. rewrite Nat.add_0_r in Hhead.
    rewrite Hhead. apply Forall_cons in Hpages as [[Hne Hitems] Hpages].
    destruct data as [|x data]; [done|]. cbn [length Nat.eqb].
    assert (Hall : forallb (fun repo => negb (nullish repo)) (x :: data) = true).
    { apply forallb_forall. intros y Hy. rewrite List.Forall_forall in Hitems.
      by rewrite (Hitems y Hy). }
    rewrite Hall, IH; [|done| | |cbn in Hfuel; lia].
    + by rewrite map_app, <- app_assoc.
    + intros i d Hd. rewrite Nat.add_succ_l, <- Nat.add_succ_r. by apply Hans.
    + by rewrite Nat.add_succ_l, <- Nat.add_succ_r.
Qed.

(** X22. Private repositories first.  The listing answers the non-empty
    [pages], whose items are not null, and then an empty page or an error,
    the same way each time it is asked.  If some repository of the listing
    is private, the sequential pipeline returns the private ones only, in
    order, each with the visibility [private]: the public repositories of
    the organisation are left out.  If none is private, it returns them
    all.  So it returns no repository only when the listing has none. *)
Theorem fetchAllRepositories_private_first pages fuel :
  Forall (fun data => data <> [] /\ Forall (fun x => nullish x = false) data) pages ->
  (forall i data, pages !! i = Some data -> repos_page (S i) = Ok data) ->
  (repos_page (S (length pages)) = Ok []
   \/ exists e, repos_page (S (length pages)) = Throw e) ->
  (length pages < fuel)%nat ->
  let all := concat pages in
  exists repositories,
    fetchAllRepositories repos_page fuel = Some repositories
    /\ (existsb is_private all = true ->
        repositories = map private_repository (List.filter is_private all)
        /\ Forall (fun r => read r "visibility" = JStr "private") repositories)
    /\ (existsb is_private all = false -> repositories = map any_repository all)
    /\ (repositories = [] <-> all = []).
Proof.
  intros Hpages Hans Hend Hfuel. cbv zeta. unfold fetchAllRepositories.
  rewrite (fetchAllRepositories_private_pages pages fuel 1 [] 0) by done.
  cbn [mbind option_bind app]. rewrite Z.add_0_l.
  set (all := concat pages).
  destruct (existsb is_private all) eqn:Hsome.
  - apply existsb_exists in Hsome as (x & Hx & Hpriv).
    assert (Hin : In x (List.filter is_private all)) by (by apply filter_In).
    assert (Hvis : Forall (fun r => read r "visibility" = JStr "private")
                     (map private_repository (List.filter is_private all))).
    { apply List.Forall_forall. by intros r (z & <- & _)%in_map_iff. }
    destruct (List.filter is_private all) as [|y kept] eqn:Hkept; [done|].
    cbn [map length Nat.eqb andb]. eexists. split; [done|]. split; [|split].
    + intros _. by split.
    + done.
    + split; [done|]. intros Hall. by rewrite Hall in Hx.
  - assert (Hnone : List.filter is_private all = []).
    { apply filter_keeps_none. intros x Hx.
      destruct (is_private x) eqn:Hp; [|done].
      assert (existsb is_private all = true) by (apply existsb_exists; eauto).
      congruence. }
    rewrite Hnone. cbn [map length Nat.eqb andb].
    destruct all as [|x rest] eqn:Hall.
    + cbn. exists []. by repeat split.
    + cbn [length]. replace (0 <? Z.of_nat (S (length rest))) with true
        by (symmetry; apply Z.ltb_lt; lia).
      rewrite (fetchAllRepositories_any_pages pages fuel 1 []) by done.
      fold all. rewrite Hall. eexists. split; [done|]. by repeat split.
Qed.

End AllRepositoriesFacts.

(** X22 on two listings of one page: one private repository among two,
    and none. *)
Lemma fetchAllRepositories_private_first_witness :
  let pages := [[widgets_payload; gadgets_payload]] in
  Forall (fun data => data <> [] /\ Forall (fun x => nullish x = false) data) pages
  /\ (forall i data, pages !! i = Some data ->
        one_page [widgets_payload; gadgets_payload] (S i) = Ok data)
  /\ one_page [widgets_payload; gadgets_payload] (S (length pages)) = Ok []
  /\ (length pages < 3)%nat
  /\ fetchAllRepositories (one_page [widgets_payload; gadgets_payload]) 3
     = Some [private_repository widgets_payload]
  /\ fetchAllRepositories (one_page [public_widgets_payload; gadgets_payload]) 3
     = Some [any_repository public_widgets_payload; any_repository gadgets_payload].
Proof.
  cbv zeta.
  assert (Hpages : Forall (fun data => data <> []
                             /\ Forall (fun x => nullish x = false) data)
                     [[widgets_payload; gadgets_payload]])
    by (repeat constructor; discriminate).
  assert (Hans : forall i data, [[widgets_payload; gadgets_payload]] !! i = Some data ->
            one_page [widgets_payload; gadgets_payload] (S i) = Ok data).
  { intros [|i] data; cbn; [|done]. by intros [= <-]. }
  assert (Hfuel : (length [[widgets_payload; gadgets_payload]] < 3)%nat) by (cbn; lia).
  split; [exact Hpages|]. split; [exact Hans|]. split; [reflexivity|].
  split; [exact Hfuel|]. split; [|reflexivity].
  destruct (fetchAllRepositories_private_first
              (one_page [widgets_payload; gadgets_payload])
              [[widgets_payload; gadgets_payload]] 3 Hpages Hans (or_introl eq_refl) Hfuel)
    as (repositories & Hrun & Hprivate & _).
  rewrite Hrun. by destruct (Hprivate eq_refl) as [-> _].
Defined.
